(** * Pharma sales forecasting service

    A shallow embedding of the forecasting service of [ml-services/realmodel.py]
    (the CSV cleaner, the frequency detector, the recursive sequence
    forecaster, the additive path with its trend fallback, the output
    clipping and the route [predict_csv]) and of the record validator, the
    cleaner and the outlier detection of
    [ml-services/utils/data_processor.py].

    Modelling conventions.
    - A pandas DataFrame is a header (column labels) and a list of rows, each
      row holding one cell per column. Row labels (the index) are not part of
      the model: no consumer in the service reads them.
    - Floats are exact rationals plus [NaN]; rounding and infinities are
      outside the model.
    - Column labels and other strings are strings of bytes; [strip] and
      [lower] are those of Python on ASCII strings.
    - [sort_values] puts rows with equal keys in the order of a stable
      algorithm. The default algorithm of pandas is not stable; where the
      order of such rows matters, the algorithm is a parameter
      ([sort_values_kind], [_prep_dataframe_kind]).
    - Timestamps are integers counting nanoseconds since the epoch.
    - Exceptions are values of [exn]; a computation that may raise returns a
      [result].
    - The trained artefacts and the library calls whose behaviour is not in
      the repository (the date parser, pandas' frequency inference, the
      sequence model, the scaler, the Prophet bundles) are fields of an
      environment record [Env].
    - A Python dictionary is an association list in insertion order. A value
      of a raw record is known through what [str], [float] and the date
      parser make of it; the clock read by the cleaner is a parameter. *)

From Stdlib Require Import List ZArith QArith String Ascii Bool Lia Sorted.
From Stdlib Require Import Permutation.
From Stdlib Require Import DecimalString Lqa Qround Qabs.
Import ListNotations.
Close Scope Q_scope.
Open Scope string_scope.
Open Scope list_scope.

(** ** Exceptions and results *)

Inductive exn : Type :=
| ValueError (msg : string)
| TypeError (msg : string)
| KeyError (msg : string)
| IndexError (msg : string)
| FileNotFoundError (msg : string)
| OverflowError (msg : string).

(** [str(e)] *)
Definition exn_str (e : exn) : string :=
  match e with
  | ValueError m | TypeError m | KeyError m | IndexError m
  | FileNotFoundError m | OverflowError m => m
  end.

Inductive result (A : Type) : Type :=
| Ok (a : A)
| Raise (e : exn).
Arguments Ok {A} a.
Arguments Raise {A} e.

Definition bind {A B : Type} (c : result A) (k : A -> result B) : result B :=
  match c with
  | Ok a => k a
  | Raise e => Raise e
  end.

Notation "x <- c ;; k" := (bind c (fun x => k))
  (at level 61, c at next level, right associativity).

Fixpoint mapM {A B : Type} (f : A -> result B) (l : list A) : result (list B) :=
  match l with
  | [] => Ok []
  | a :: t => b <- f a ;; bs <- mapM f t ;; Ok (b :: bs)
  end.

(** ** Numbers *)

Inductive pyfloat : Type :=
| NaN
| Num (q : Q).

Definition Qlt_bool (x y : Q) : bool := negb (Qle_bool y x).

(** [a < b] and [a > b] on floats: every comparison with NaN is false. *)
Definition flt (a b : pyfloat) : bool :=
  match a, b with
  | Num x, Num y => Qlt_bool x y
  | _, _ => false
  end.
Definition fgt (a b : pyfloat) : bool := flt b a.
Definition fle (a b : pyfloat) : bool :=
  match a, b with
  | Num x, Num y => Qle_bool x y
  | _, _ => false
  end.

Definition fadd (a b : pyfloat) : pyfloat :=
  match a, b with
  | Num x, Num y => Num (x + y)%Q
  | _, _ => NaN
  end.
Definition fmul (a b : pyfloat) : pyfloat :=
  match a, b with
  | Num x, Num y => Num (x * y)%Q
  | _, _ => NaN
  end.

(** Python's built-in [max(a, b)] and [min(a, b)]: the first argument is kept
    unless the second is strictly larger (smaller). *)
Definition py_max2 (a b : pyfloat) : pyfloat := if fgt b a then b else a.
Definition py_min2 (a b : pyfloat) : pyfloat := if flt b a then b else a.

(** [max(l)] and [min(l)] on a list; both raise on an empty list. *)
Definition py_max (l : list pyfloat) : result pyfloat :=
  match l with
  | [] => Raise (ValueError "max() arg is an empty sequence")
  | h :: t => Ok (fold_left py_max2 t h)
  end.
Definition py_min (l : list pyfloat) : result pyfloat :=
  match l with
  | [] => Raise (ValueError "min() arg is an empty sequence")
  | h :: t => Ok (fold_left py_min2 t h)
  end.

(** ** Strings *)

(** ASCII white space, as removed by [str.strip()]. *)
Definition is_space (c : ascii) : bool :=
  let n := nat_of_ascii c in
  ((9 <=? n)%nat && (n <=? 13)%nat) || ((28 <=? n)%nat && (n <=? 32)%nat).

Fixpoint lstrip (s : string) : string :=
  match s with
  | String c t => if is_space c then lstrip t else s
  | EmptyString => EmptyString
  end.

Fixpoint rstrip (s : string) : string :=
  match s with
  | String c t =>
      match rstrip t with
      | EmptyString => if is_space c then EmptyString else String c EmptyString
      | t' => String c t'
      end
  | EmptyString => EmptyString
  end.

Definition strip (s : string) : string := rstrip (lstrip s).

Definition lower_ascii (c : ascii) : ascii :=
  let n := nat_of_ascii c in
  if (65 <=? n)%nat && (n <=? 90)%nat then ascii_of_nat (n + 32) else c.

Fixpoint lower (s : string) : string :=
  match s with
  | String c t => String (lower_ascii c) (lower t)
  | EmptyString => EmptyString
  end.

(** [s.startswith(p)] *)
Definition startswith (p s : string) : bool := String.prefix p s.

(** [x in l] for a list of strings. *)
Definition mem (x : string) (l : list string) : bool :=
  existsb (String.eqb x) l.

(** ** Configuration of [realmodel.py] *)

Definition PRODUCT_COLS : list string :=
  ["M01AB"; "M01AE"; "N02BA"; "N02BE"; "N05B"; "N05C"; "R03"; "R06"].
Definition DATE_COL : string := "datum".

(** ** Data frames *)

Inductive cell : Type :=
| CFloat (f : pyfloat)
| CStr (s : string)
| CTime (t : Z)
| CNaT.

Record DataFrame : Type := mkDF {
  columns : list string;
  rows : list (list cell)
}.

(** [pd.isna] on a cell. *)
Definition isna (c : cell) : bool :=
  match c with
  | CFloat NaN | CNaT => true
  | _ => false
  end.

Definition is_datetime (c : cell) : bool :=
  match c with
  | CTime _ | CNaT => true
  | _ => false
  end.

(** A timestamp that is present. *)
Definition is_time (c : cell) : bool :=
  match c with
  | CTime _ => true
  | _ => false
  end.

(** Position of the first column labelled [c]. *)
Fixpoint col_index (c : string) (cols : list string) : option nat :=
  match cols with
  | [] => None
  | h :: t => if String.eqb c h then Some 0
              else option_map S (col_index c t)
  end.

(** The cell of a row at a position; short rows read as missing. *)
Definition cell_at (i : nat) (r : list cell) : cell := nth i r (CFloat NaN).

Fixpoint set_at (i : nat) (v : cell) (r : list cell) : list cell :=
  match r, i with
  | [], _ => []
  | _ :: t, O => v :: t
  | h :: t, S k => h :: set_at k v t
  end.

(** The cell of a row under a column label of the header [cols]. *)
Definition get (cols : list string) (c : string) (r : list cell) : cell :=
  match col_index c cols with
  | Some i => cell_at i r
  | None => CFloat NaN
  end.

(** [df[c].tolist()]; a [KeyError] when the label is absent. *)
Definition column (df : DataFrame) (c : string) : result (list cell) :=
  match col_index c (columns df) with
  | Some i => Ok (map (cell_at i) (rows df))
  | None => Raise (KeyError c)
  end.

(** [df[cols]]: restriction to the listed columns, in that order. *)
Definition select (cols : list string) (df : DataFrame) : DataFrame :=
  mkDF cols (map (fun r => map (fun c => get (columns df) c r) cols) (rows df)).

(** [df.rename(columns={old: new})] *)
Definition rename (old new : string) (cols : list string) : list string :=
  map (fun c => if String.eqb c old then new else c) cols.

(** Order used by [sort_values] on a datetime column: ascending, missing
    timestamps last. *)
Definition date_leb (a b : cell) : bool :=
  match a, b with
  | CTime x, CTime y => (x <=? y)%Z
  | _, CTime _ => false
  | _, _ => true
  end.

Section SortRows.
Variable key : list cell -> cell.

(** Stable insertion: [r] goes before the first row whose key is not
    smaller. *)
Fixpoint insert_row (r : list cell) (l : list (list cell)) : list (list cell) :=
  match l with
  | [] => [r]
  | h :: t => if date_leb (key r) (key h) then r :: l
              else h :: insert_row r t
  end.

Fixpoint sort_rows (l : list (list cell)) : list (list cell) :=
  match l with
  | [] => []
  | r :: t => insert_row r (sort_rows t)
  end.
End SortRows.

(** [df.sort_values(c)], in the order that a stable algorithm gives. The
    algorithm that pandas runs by default is not stable: [sort_values_kind]
    below takes the algorithm as a parameter; it gives this order whenever no
    two timestamps are equal ([sort_values_kind_distinct]). *)
Definition sort_values (c : string) (df : DataFrame) : result DataFrame :=
  match col_index c (columns df) with
  | Some i => Ok (mkDF (columns df) (sort_rows (cell_at i) (rows df)))
  | None => Raise (KeyError c)
  end.

(** ** External collaborators *)

(** A fitted Prophet model is known only through the forecast frame it
    returns: [prophet_run periods freq] is
    [m.predict(m.make_future_dataframe(periods, freq))] as rows [(ds, yhat)]. *)
Record prophet : Type := mkProphet {
  prophet_run : Z -> string -> result (list (Z * pyfloat))
}.

(** What [joblib.load] may return for a Prophet bundle. *)
Inductive pickled_model : Type :=
| PProphet (m : prophet)
| PNotProphet.
Inductive pickled : Type :=
| PDict (entries : list (string * pickled_model))
| PNotDict (type_name : string).

Record Env : Type := mkEnv {
  (** [int(os.getenv("SEQ_LEN", 168))] *)
  SEQ_LEN : nat;
  (** [pd.to_datetime] on one cell *)
  to_datetime_cell : cell -> result cell;
  (** pandas' frequency inference on at least three sorted timestamps *)
  infer_freq_rule : list cell -> option string;
  (** [model.predict(window)[0]] *)
  model_predict : list (list pyfloat) -> result (list pyfloat);
  (** [scaler.transform] and [scaler.inverse_transform] *)
  scaler_transform : list (list cell) -> result (list (list pyfloat));
  scaler_inverse_transform : list (list pyfloat) -> result (list (list pyfloat));
  (** the Prophet bundle stored for a frequency: [None] when the file does
      not exist, otherwise the outcome of [joblib.load] *)
  prophet_file : string -> option (result pickled)
}.

(** ** The cleaner: [_prep_dataframe] *)

Definition fill_cell (c : string) (v : cell) : cell :=
  if mem c PRODUCT_COLS && isna v then CFloat (Num 0) else v.

(** [df[PRODUCT_COLS] = df[PRODUCT_COLS].fillna(0.0)] on one row. *)
Fixpoint fillna_row (cols : list string) (r : list cell) : list cell :=
  match cols, r with
  | c :: cs, v :: vs => fill_cell c v :: fillna_row cs vs
  | _, _ => r
  end.

(** [prods.isna().all(axis=1)] on one row. *)
Definition all_products_missing (cols : list string) (r : list cell) : bool :=
  forallb (fun c => isna (get cols c r)) PRODUCT_COLS.

Section Cleaner.
Variable E : Env.

(** [df[DATE_COL] = pd.to_datetime(df[DATE_COL])] *)
Definition parse_dates (df : DataFrame) : result DataFrame :=
  match col_index DATE_COL (columns df) with
  | Some i =>
      rs <- mapM (fun r => d <- to_datetime_cell E (cell_at i r) ;;
                           Ok (set_at i d r)) (rows df) ;;
      Ok (mkDF (columns df) rs)
  | None => Raise (KeyError DATE_COL)
  end.

Definition _prep_dataframe (df : DataFrame) : result DataFrame :=
  cols <- (if mem DATE_COL (columns df) then Ok (columns df)
           else
             match filter (fun c => String.eqb (lower (strip c)) (lower DATE_COL))
                          (columns df) with
             | [] => Raise (ValueError "CSV must contain a 'datum' column.")
             | c0 :: _ => Ok (rename c0 DATE_COL (columns df))
             end) ;;
  df <- parse_dates (mkDF cols (rows df)) ;;
  df <- sort_values DATE_COL df ;;
  let missing := filter (fun c => negb (mem c (columns df))) PRODUCT_COLS in
  match missing with
  | _ :: _ =>
      Raise (ValueError (String.append "CSV is missing required product columns: "
                                       (String.concat ", " missing)))
  | [] =>
      let cols := DATE_COL :: PRODUCT_COLS in
      let df := select cols df in
      let kept := filter (fun r => negb (all_products_missing cols r)) (rows df) in
      Ok (mkDF cols (map (fillna_row cols) kept))
  end.
End Cleaner.

(** ** The cleaner under the sorting algorithm of pandas *)

(** [df.sort_values(c)] sorts with [kind="quicksort"], which is not a stable
    algorithm, so the order it gives to rows with equal keys is that of the
    algorithm ([sort_values] above is the order a stable algorithm gives).
    Here the algorithm is a parameter: [argsort keys] stands for
    [keys.argsort(kind=kind)], the positions of the keys in sorted order. *)

Definition key_time (c : cell) : Z :=
  match c with
  | CTime t => t
  | _ => 0%Z
  end.

(** [a[indexer]] *)
Definition take {A : Type} (default : A) (a : list A) (indexer : list nat) : list A :=
  map (fun j => nth j a default) indexer.

Section SortKind.
Variable argsort : list Z -> list nat.

(** [nargsort] and [take]: the rows whose key is a timestamp, in the order
    that [argsort] gives to their keys, then the rows without a timestamp, in
    their original order ([na_position="last"]). *)
Definition nargsort_rows (key : list cell -> cell) (l : list (list cell))
  : list (list cell) :=
  let non_nans := filter (fun r => is_time (key r)) l in
  let nans := filter (fun r => negb (is_time (key r))) l in
  take [] non_nans (argsort (map (fun r => key_time (key r)) non_nans)) ++ nans.

Definition sort_values_kind (c : string) (df : DataFrame) : result DataFrame :=
  match col_index c (columns df) with
  | Some i => Ok (mkDF (columns df) (nargsort_rows (cell_at i) (rows df)))
  | None => Raise (KeyError c)
  end.

Variable E : Env.

(** [_prep_dataframe], line by line as above, with the algorithm of its
    [sort_values] made explicit. *)
Definition _prep_dataframe_kind (df : DataFrame) : result DataFrame :=
  cols <- (if mem DATE_COL (columns df) then Ok (columns df)
           else
             match filter (fun c => String.eqb (lower (strip c)) (lower DATE_COL))
                          (columns df) with
             | [] => Raise (ValueError "CSV must contain a 'datum' column.")
             | c0 :: _ => Ok (rename c0 DATE_COL (columns df))
             end) ;;
  df <- parse_dates E (mkDF cols (rows df)) ;;
  df <- sort_values_kind DATE_COL df ;;
  let missing := filter (fun c => negb (mem c (columns df))) PRODUCT_COLS in
  match missing with
  | _ :: _ =>
      Raise (ValueError (String.append "CSV is missing required product columns: "
                                       (String.concat ", " missing)))
  | [] =>
      let cols := DATE_COL :: PRODUCT_COLS in
      let df := select cols df in
      let kept := filter (fun r => negb (all_products_missing cols r)) (rows df) in
      Ok (mkDF cols (map (fillna_row cols) kept))
  end.
End SortKind.

(** What every algorithm of [argsort] guarantees: the positions returned are
    a permutation of all positions, and the keys taken in that order are
    ascending. *)
Definition argsort_contract (argsort : list Z -> list nat) : Prop :=
  forall keys,
    Permutation (argsort keys) (List.seq 0 (List.length keys)) /\
    StronglySorted Z.le (take 0%Z keys (argsort keys)).

(** The timestamps that are present in a column of dates. *)
Fixpoint timestamps (dates : list cell) : list Z :=
  match dates with
  | CTime t :: rest => t :: timestamps rest
  | _ :: rest => timestamps rest
  | [] => []
  end.

(** A stable algorithm: insertion of the positions, from the last one to the
    first one, each before the first position whose key is not smaller. *)
Fixpoint insert_position (keys : list Z) (j : nat) (sorted : list nat) : list nat :=
  match sorted with
  | [] => [j]
  | h :: t => if (nth j keys 0 <=? nth h keys 0)%Z then j :: sorted
              else h :: insert_position keys j t
  end.

Definition stable_argsort (keys : list Z) : list nat :=
  fold_right (insert_position keys) [] (List.seq 0 (List.length keys)).

(** The quicksort of numpy on positions ([aquicksort] in
    [npysort/quicksort.cpp]), which [argsort] runs for [kind="quicksort"] on
    builds without vector instructions: a range of more than 17 positions is
    partitioned around the median of its first, middle and last key, a
    shorter range is sorted by insertion. [tosort] is the array of positions,
    [pl], [pr], [pi], [pj], [pm] index it. *)
Definition SMALL_QUICKSORT : nat := 16.

Section Quicksort.
Variable v : list Z.

(** [v[*p]] *)
Definition key_at (tosort : list nat) (p : nat) : Z := nth (nth p tosort 0%nat) v 0%Z.

(** [*p = x] *)
Fixpoint store (p : nat) (x : nat) (tosort : list nat) : list nat :=
  match tosort, p with
  | [], _ => []
  | _ :: rest, 0%nat => x :: rest
  | h :: rest, S p => h :: store p x rest
  end.

(** The macro [INTP_SWAP] on the positions [p] and [q]. *)
Definition INTP_SWAP (tosort : list nat) (p q : nat) : list nat :=
  store p (nth q tosort 0%nat) (store q (nth p tosort 0%nat) tosort).

(** [do { ++pi; } while (less(v[*pi], vp));] *)
Fixpoint scan_up (fuel : nat) (tosort : list nat) (vp : Z) (pi : nat) : nat :=
  match fuel with
  | 0%nat => S pi
  | S fuel => if (key_at tosort (S pi) <? vp)%Z then scan_up fuel tosort vp (S pi)
              else S pi
  end.

(** [do { --pj; } while (less(vp, v[*pj]));] *)
Fixpoint scan_down (fuel : nat) (tosort : list nat) (vp : Z) (pj : nat) : nat :=
  match fuel with
  | 0%nat => (pj - 1)%nat
  | S fuel => if (vp <? key_at tosort (pj - 1))%Z
              then scan_down fuel tosort vp (pj - 1)
              else (pj - 1)%nat
  end.

(** The loop [for (;;)] of the partition. *)
Fixpoint partition_loop (fuel : nat) (tosort : list nat) (vp : Z) (pi pj : nat)
  : list nat * nat :=
  match fuel with
  | 0%nat => (tosort, pi)
  | S fuel =>
      let pi := scan_up (List.length tosort) tosort vp pi in
      let pj := scan_down (List.length tosort) tosort vp pj in
      if (pj <=? pi)%nat then (tosort, pi)
      else partition_loop fuel (INTP_SWAP tosort pi pj) vp pi pj
  end.

(** One partition of the range from [pl] to [pr]: the array and the final
    position [pi] of the pivot. *)
Definition partition (tosort : list nat) (pl pr : nat) : list nat * nat :=
  let pm := (pl + (pr - pl) / 2)%nat in
  let tosort := if (key_at tosort pm <? key_at tosort pl)%Z
                then INTP_SWAP tosort pm pl else tosort in
  let tosort := if (key_at tosort pr <? key_at tosort pm)%Z
                then INTP_SWAP tosort pr pm else tosort in
  let tosort := if (key_at tosort pm <? key_at tosort pl)%Z
                then INTP_SWAP tosort pm pl else tosort in
  let vp := key_at tosort pm in
  let pi := pl in
  let pj := (pr - 1)%nat in
  let tosort := INTP_SWAP tosort pm pj in
  let '(tosort, pi) := partition_loop (List.length tosort) tosort vp pi pj in
  let pk := (pr - 1)%nat in
  (INTP_SWAP tosort pi pk, pi).

(** [while (pj > pl && less(vp, v[*pk])) { *pj-- = *pk--; }] with
    [pk = pj - 1]. *)
Fixpoint shift_right (fuel : nat) (tosort : list nat) (pl : nat) (vp : Z) (pj : nat)
  : list nat * nat :=
  match fuel with
  | 0%nat => (tosort, pj)
  | S fuel =>
      if (pl <? pj)%nat && (vp <? key_at tosort (pj - 1))%Z
      then shift_right fuel (store pj (nth (pj - 1) tosort 0%nat) tosort) pl vp
                       (pj - 1)%nat
      else (tosort, pj)
  end.

(** The insertion sort of the range from [pl] to [pr]. *)
Definition insertion_sort (tosort : list nat) (pl pr : nat) : list nat :=
  fold_left (fun tosort pi =>
               let vi := nth pi tosort 0%nat in
               let vp := nth vi v 0%Z in
               let '(tosort, pj) := shift_right (List.length tosort) tosort pl vp pi in
               store pj vi tosort)
            (List.seq (S pl) (pr - pl)) tosort.

(** The ranges left by a partition are sorted in their turn; [cdepth] bounds
    the number of partitions above a range (numpy sorts a range that exceeds
    it by heapsort, which no input below reaches and which is read here as
    the insertion sort). *)
Fixpoint aquicksort_range (cdepth : nat) (tosort : list nat) (pl pr : nat) : list nat :=
  match cdepth with
  | 0%nat => insertion_sort tosort pl pr
  | S cdepth =>
      if (SMALL_QUICKSORT <? pr - pl)%nat
      then let '(tosort, pi) := partition tosort pl pr in
           let tosort := aquicksort_range cdepth tosort pl (pi - 1) in
           aquicksort_range cdepth tosort (S pi) pr
      else insertion_sort tosort pl pr
  end.
End Quicksort.

(** [keys.argsort(kind="quicksort")] *)
Definition aquicksort (keys : list Z) : list nat :=
  let num := List.length keys in
  aquicksort_range keys (S (2 * Nat.log2 num)) (List.seq 0 num) 0 (num - 1).

(** ** More numbers: sums, means, medians, deviations *)

(** Division; a zero divisor (an infinity or NaN in numpy) reads as NaN. *)
Definition fdiv (a b : pyfloat) : pyfloat :=
  match a, b with
  | Num x, Num y => if Qeq_bool y 0 then NaN else Num (x / y)%Q
  | _, _ => NaN
  end.

Definition fsub (a b : pyfloat) : pyfloat :=
  match a, b with
  | Num x, Num y => Num (x - y)%Q
  | _, _ => NaN
  end.

Definition fsum (l : list pyfloat) : pyfloat := fold_left fadd l (Num 0).

Definition of_nat (n : nat) : pyfloat := Num (inject_Z (Z.of_nat n)).

(** [np.mean]: NaN on an empty list. *)
Definition np_mean (l : list pyfloat) : pyfloat :=
  match l with
  | [] => NaN
  | _ => fdiv (fsum l) (of_nat (List.length l))
  end.

(** Square root of a non-negative rational, rounded down, exact to within
    [10^-9]. *)
Definition Qsqrt (q : Q) : Q :=
  let n := Qnum q in
  let d := Zpos (Qden q) in
  Qmake (Z.sqrt (n * d * 10 ^ 18)) (Qden q * 1000000000).

(** [np.std]: the population standard deviation. *)
Definition np_std (l : list pyfloat) : pyfloat :=
  let m := np_mean l in
  match np_mean (map (fun x => fmul (fsub x m) (fsub x m)) l) with
  | Num v => Num (Qsqrt v)
  | NaN => NaN
  end.

Fixpoint insert_Q (x : Q) (l : list Q) : list Q :=
  match l with
  | [] => [x]
  | h :: t => if Qle_bool x h then x :: l else h :: insert_Q x t
  end.

Definition sort_Q (l : list Q) : list Q := fold_right insert_Q [] l.

(** [Series.median()]: the middle value of the sorted values, the mean of the
    two middle values when their number is even, NaN when there is none. *)
Definition median (l : list Q) : pyfloat :=
  let s := sort_Q l in
  let n := List.length s in
  match n with
  | O => NaN
  | _ =>
      if Nat.even n
      then Num ((nth (n / 2 - 1) s 0%Q + nth (n / 2) s 0%Q) / 2)%Q
      else Num (nth (n / 2) s 0%Q)
  end.

(** [l[-n:]] for a positive literal [n]. *)
Definition last_n {A : Type} (n : nat) (l : list A) : list A :=
  skipn (List.length l - n) l.

(** [l[-n:]] for a variable [n >= 0]: the whole list when [n] is zero. *)
Definition slice_last {A : Type} (n : nat) (l : list A) : list A :=
  match n with
  | O => l
  | _ => last_n n l
  end.

(** ** The frequency detector: [_detect_frequency] *)

(** [col.diff().dropna()] on a datetime column, in nanoseconds. *)
Fixpoint diff_dropna (l : list cell) : list Z :=
  match l with
  | a :: t =>
      match a, t with
      | CTime x, CTime y :: _ => (y - x)%Z :: diff_dropna t
      | _, _ => diff_dropna t
      end
  | [] => []
  end.

(** [Timedelta.total_seconds()] *)
Definition total_seconds (ns : Z) : Q := (inject_Z ns / 1000000000)%Q.

Definition median_gap_hours (dates : list cell) : pyfloat :=
  fdiv (median (map total_seconds (diff_dropna dates))) (Num 3600).

(** The manual rule on the median gap in hours. *)
Definition classify_gap (median_gap_hours : pyfloat) : string :=
  if fle median_gap_hours (Num 1.5) then "H"
  else if fle median_gap_hours (Num 25) then "D"
  else if fle median_gap_hours (Num 200) then "W"
  else "M".

(** The branches taken on a frequency string returned by pandas. *)
Definition classify_inferred (inferred : string) : option string :=
  if startswith "h" (lower inferred) then Some "H"
  else if startswith "d" (lower inferred) then Some "D"
  else if startswith "w" (lower inferred) then Some "W"
  else if startswith "m" (lower inferred) then Some "M"
  else None.

Section Detector.
Variable E : Env.

(** [pd.infer_freq]: pandas refuses fewer than three timestamps. *)
Definition pd_infer_freq (dates : list cell) : result (option string) :=
  if (List.length dates <? 3)%nat
  then Raise (ValueError "Need at least 3 dates to infer frequency")
  else Ok (infer_freq_rule E dates).

Definition _detect_frequency (df : DataFrame) : result string :=
  df <- sort_values DATE_COL df ;;
  dates <- column df DATE_COL ;;
  inferred <- pd_infer_freq dates ;;
  match match inferred with
        | Some s => classify_inferred s
        | None => None
        end with
  | Some f => Ok f
  | None => Ok (classify_gap (median_gap_hours dates))
  end.
End Detector.

(** ** The recursive forecaster: [_multi_step_forecast] *)

(** [a.shape[1]] of a two-dimensional array given by its rows. *)
Definition n_features (a : list (list pyfloat)) : nat :=
  match a with
  | [] => 0
  | r :: _ => List.length r
  end.

(** [np.vstack([rest, yhat])]: the widths have to agree. *)
Definition np_vstack (n_feat : nat) (rest : list (list pyfloat)) (yhat : list pyfloat)
  : result (list (list pyfloat)) :=
  if (List.length yhat =? n_feat)%nat then Ok (rest ++ [yhat])
  else Raise (ValueError
    "all the input array dimensions except for the concatenation axis must match exactly").

Section Forecaster.
Variable E : Env.

(** [seq.reshape(1, SEQ_LEN, n_feat)]: the sizes have to agree. *)
Definition reshape_window (n_feat : nat) (seq : list (list pyfloat))
  : result (list (list pyfloat)) :=
  if (n_feat =? 0)%nat then
    if (List.length (List.concat seq) =? 0)%nat then Ok (repeat [] (SEQ_LEN E))
    else Raise (ValueError "cannot reshape array")
  else if (List.length seq =? SEQ_LEN E)%nat then Ok seq
  else Raise (ValueError "cannot reshape array").

(** The loop [for _ in range(horizon)], with [seq] and [preds_scaled] as
    loop state. *)
Fixpoint forecast_steps (steps n_feat : nat) (seq preds_scaled : list (list pyfloat))
  : result (list (list pyfloat)) :=
  match steps with
  | O => Ok preds_scaled
  | S k =>
      window <- reshape_window n_feat seq ;;
      yhat <- model_predict E window ;;
      seq <- np_vstack n_feat (tl seq) yhat ;;
      forecast_steps k n_feat seq (preds_scaled ++ [yhat])
  end.

Definition _multi_step_forecast (last_seq_scaled : list (list pyfloat)) (horizon : Z)
  : result (list (list pyfloat)) :=
  let n_feat := n_features last_seq_scaled in
  preds_scaled <- forecast_steps (Z.to_nat horizon) n_feat last_seq_scaled [] ;;
  match preds_scaled with
  | [] => Raise (ValueError "Expected 2D array, got 1D array instead")
  | _ => scaler_inverse_transform E preds_scaled
  end.
End Forecaster.

(** ** Output clipping *)

(** [max(hist_values) if hist_values and max(hist_values) > 0 else 1.0] *)
Definition hist_max_of (hist_values : list pyfloat) : pyfloat :=
  match hist_values with
  | [] => Num 1
  | h :: t => if fgt (fold_left py_max2 t h) (Num 0)
              then fold_left py_max2 t h else Num 1
  end.

(** [np.std(hist_values) if hist_values else 1.0] *)
Definition hist_std_of (hist_values : list pyfloat) : pyfloat :=
  match hist_values with
  | [] => Num 1
  | _ => np_std hist_values
  end.

(** Sequence path: [min(max(v, 0.0), clip_max)] with
    [clip_max = hist_max + 2 * hist_std]. *)
Definition clip_max_of (hist_values : list pyfloat) : pyfloat :=
  fadd (hist_max_of hist_values) (fmul (Num 2) (hist_std_of hist_values)).

Definition clip_value (clip_max v : pyfloat) : pyfloat :=
  py_min2 (py_max2 v (Num 0)) clip_max.

(** Additive path: the body of [for val in forecast_values]. *)
Definition scale_value (hist_max val : pyfloat) : pyfloat :=
  if flt val (Num 0) then Num 0
  else if fgt val (fmul hist_max (Num 2)) then fmul hist_max (Num 1.5)
  else val.

(** ** Requests and responses *)

Inductive form_int : Type :=
| FormInt (z : Z)
| FormNotInt (s : string).

Record request : Type := mkRequest {
  (** the part [file] of the upload, as [pd.read_csv] reads it *)
  req_file : option (result DataFrame);
  (** the form fields [days] and [category] *)
  req_days : option form_int;
  req_category : option string
}.

Record forecast_body : Type := mkBody {
  historical_dates : list cell;
  historical_values : list pyfloat;
  forecast_dates : list Z;
  forecast_values : list pyfloat;
  metrics : Q * Q * Q;
  granularity : string;
  frequency : string;
  category : string;
  fallback : bool
}.

Inductive response : Type :=
| Json (body : forecast_body)
| JsonError (status : Z) (message : string).

(** [int(request.form.get("days", 7))] *)
Definition parse_days (f : option form_int) : result Z :=
  match f with
  | None => Ok 7%Z
  | Some (FormInt z) => Ok z
  | Some (FormNotInt s) =>
      Raise (ValueError (String.append "invalid literal for int() with base 10: " s))
  end.

(** Floats of a column; arithmetic on any other content is a [TypeError]. *)
Definition floats_of (l : list cell) : result (list pyfloat) :=
  mapM (fun c => match c with
                 | CFloat f => Ok f
                 | _ => Raise (TypeError "unsupported operand type(s)")
                 end) l.

(** [df[DATE_COL].max()]: the latest present timestamp, if any. *)
Definition max_timestamp (dates : list cell) : option Z :=
  fold_left (fun acc c => match c, acc with
                          | CTime t, Some m => Some (Z.max m t)
                          | CTime t, None => Some t
                          | _, _ => acc
                          end) dates None.

Definition HOUR : Z := 3600 * 1000000000.
Definition DAY : Z := 24 * HOUR.

(** [pd.date_range(start, periods, freq)] for a fixed step. *)
Definition date_range (start : option Z) (periods step : Z) : result (list Z) :=
  match start with
  | None => Raise (ValueError "Neither `start` nor `end` can be NaT")
  | Some s =>
      if (periods <? 0)%Z
      then Raise (ValueError "Number of periods must be non-negative")
      else Ok (map (fun k => (s + Z.of_nat k * step)%Z) (List.seq 0 (Z.to_nat periods)))
  end.

(** [a[:, j]] *)
Definition column_of (j : nat) (a : list (list pyfloat)) : result (list pyfloat) :=
  mapM (fun r => match nth_error r j with
                 | Some v => Ok v
                 | None => Raise (IndexError "index is out of bounds for axis 1")
                 end) a.

(** [df.tail(n)] *)
Definition tail {A : Type} (n : Z) (l : list A) : list A :=
  if (n <? 0)%Z then skipn (Z.abs_nat n) l
  else last_n (Z.to_nat n) l.

(** [str(l)] for a list of plain strings: ['a', 'b']. *)
Definition list_repr (l : list string) : string :=
  String.append "["
    (String.append
       (String.concat ", " (map (fun k => String.append "'" (String.append k "'")) l))
       "]").

(** [str(n)] for a natural number. *)
Definition show_nat (n : nat) : string :=
  DecimalString.NilZero.string_of_uint (Nat.to_uint n).

(** ** The additive path: Prophet bundles *)

Definition model_map (freq : string) : option string :=
  if String.eqb freq "D" then Some "daily_prophet.pkl"
  else if String.eqb freq "W" then Some "weekly_prophet.pkl"
  else if String.eqb freq "M" then Some "monthly_prophet.pkl"
  else None.

Definition freq_map (freq : string) : result string :=
  if String.eqb freq "D" then Ok "D"
  else if String.eqb freq "W" then Ok "W"
  else if String.eqb freq "M" then Ok "ME"
  else Raise (KeyError freq).

Definition granularity_map (freq : string) : string :=
  if String.eqb freq "D" then "days"
  else if String.eqb freq "W" then "weeks"
  else if String.eqb freq "M" then "months"
  else "days".

Fixpoint dict_get {V : Type} (k : string) (d : list (string * V)) : option V :=
  match d with
  | [] => None
  | (k', v) :: t => if String.eqb k k' then Some v else dict_get k t
  end.

(** The checks of a loaded bundle: a dictionary whose values are Prophet
    models. *)
Definition check_bundle (obj : pickled) : result (list (string * prophet)) :=
  match obj with
  | PNotDict ty =>
      Raise (ValueError (String.append "Expected dictionary of models, got " ty))
  | PDict entries =>
      mapM (fun '(product, m) =>
              match m with
              | PProphet p => Ok (product, p)
              | PNotProphet =>
                  Raise (ValueError (String.append "Model for "
                           (String.append product " is not a valid Prophet model")))
              end) entries
  end.

Section Additive.
Variable E : Env.

Definition _load_prophet_models_dict (freq : string)
  : result (list (string * prophet)) :=
  match model_map freq with
  | None =>
      Raise (ValueError (String.append "No Prophet model available for frequency '"
                           (String.append freq "'")))
  | Some pkl_path =>
      match prophet_file E pkl_path with
      | None =>
          Raise (FileNotFoundError
                   (String.append "Prophet model file not found: " pkl_path))
      | Some loaded =>
          match (obj <- loaded ;; check_bundle obj) with
          | Ok models_dict => Ok models_dict
          | Raise e =>
              Raise (ValueError (String.append "Failed to load Prophet models from "
                       (String.append pkl_path (String.append ": " (exn_str e)))))
          end
      end
  end.

Definition _get_prophet_model (freq category : string) : result prophet :=
  models_dict <- _load_prophet_models_dict freq ;;
  match dict_get category models_dict with
  | None =>
      Raise (ValueError (String.append "No model found for category '"
               (String.append category
                  (String.append "'. Available: "
                     (list_repr (map fst models_dict))))))
  | Some m => Ok m
  end.

(** The body of the [try] of the Prophet branch of [predict_csv]. *)
Definition prophet_forecast (df : DataFrame) (freq category : string) (days : Z)
  : result forecast_body :=
  prophet_model <- _get_prophet_model freq category ;;
  hist_cells <- column df category ;;
  hist_values <- floats_of hist_cells ;;
  hist_dates <- column df DATE_COL ;;
  _ <- py_min hist_values ;;
  _ <- py_max hist_values ;;
  freq_arg <- freq_map freq ;;
  forecast <- prophet_run prophet_model days freq_arg ;;
  let future_only := tail days forecast in
  let forecast_values := map snd future_only in
  let forecast_dates := map fst future_only in
  _ <- py_min forecast_values ;;
  _ <- py_max forecast_values ;;
  let hist_max := hist_max_of hist_values in
  let forecast_scaled := map (scale_value hist_max) forecast_values in
  _ <- py_min forecast_scaled ;;
  _ <- py_max forecast_scaled ;;
  Ok (mkBody hist_dates hist_values forecast_dates forecast_scaled
             (15, 20, 12)%Q (granularity_map freq) freq category false).

(** The handler [except Exception as prophet_error]: the trend fallback. *)
Definition trend_fallback (df : DataFrame) (freq category : string) (days : Z)
  : result forecast_body :=
  hist_cells <- column df category ;;
  hist_values <- floats_of hist_cells ;;
  hist_dates <- column df DATE_COL ;;
  let recent_avg :=
    if (30 <=? List.length hist_values)%nat then np_mean (last_n 30 hist_values)
    else np_mean hist_values in
  let forecast_values := repeat (fmul recent_avg (Num 0.9)) (Z.to_nat days) in
  future_dates <- date_range (max_timestamp hist_dates) (days + 1) DAY ;;
  Ok (mkBody hist_dates hist_values (tl future_dates) forecast_values
             (20, 25, 15)%Q "days" freq category true).

(** The branch [if freq == "H"] of [predict_csv]. *)
Definition lstm_forecast (df : DataFrame) (freq category : string) (days : Z)
  : result response :=
  let horizon := days in
  if (List.length (rows df) <? SEQ_LEN E)%nat then
    Ok (JsonError 400
          (String.append "Not enough history. Need at least "
             (String.append (show_nat (SEQ_LEN E))
                (String.append " rows, got " (show_nat (List.length (rows df)))))))
  else
    scaled <- scaler_transform E (rows (select PRODUCT_COLS df)) ;;
    let last_seq_scaled := slice_last (SEQ_LEN E) scaled in
    hist_cells <- column df category ;;
    preds <- _multi_step_forecast E last_seq_scaled horizon ;;
    category_idx <- match col_index category PRODUCT_COLS with
                    | Some i => Ok i
                    | None => Raise (ValueError "x not in list")
                    end ;;
    category_preds <- column_of category_idx preds ;;
    dates <- column df DATE_COL ;;
    future_index <- date_range (max_timestamp dates) (horizon + 1) HOUR ;;
    hist_values <- floats_of hist_cells ;;
    let forecast_values := category_preds in
    let clip_max := clip_max_of hist_values in
    let forecast_clipped := map (clip_value clip_max) forecast_values in
    Ok (Json (mkBody dates hist_values (tl future_index) forecast_clipped
                     (10, 15, 8)%Q "hours" freq category false)).

(** ** The route [predict_csv] *)

(** [if not category or category not in PRODUCT_COLS: category = PRODUCT_COLS[0]] *)

Definition default_category (category : option string) : string :=
  match category with
  | Some c =>
      if String.eqb c EmptyString || negb (mem c PRODUCT_COLS) then hd EmptyString PRODUCT_COLS else c
  | None => hd EmptyString PRODUCT_COLS
  end.

Definition predict_csv (req : request) : response :=
  match req_file req with
  | None => JsonError 400 "Upload a CSV file in 'file' field (form-data)."
  | Some file =>
      match (days <- parse_days (req_days req) ;;
             let category := req_category req in
             df <- file ;;
             df <- _prep_dataframe E df ;;
             freq <- _detect_frequency E df ;;
             let category := default_category category in
             if String.eqb freq "H" then lstm_forecast df freq category days
             else
               match prophet_forecast df freq category days with
               | Ok body => Ok (Json body)
               | Raise prophet_error =>
                   body <- trend_fallback df freq category days ;;
                   Ok (Json body)
               end) with
      | Ok r => r
      | Raise e => JsonError 500 (String.append "Prediction failed: " (exn_str e))
      end
  end.
End Additive.

(** ** The validator: [DataProcessor.validate_data_format] *)

(** How [float(v)] ends, as the validator and the cleaner tell it apart: with
    a number, with a ValueError or TypeError (text that is no number, a value
    of another type), which both handle next to the conversion, or with any
    other exception, known through [str(e)]: an OverflowError, on an integer
    beyond the range of a float. *)
Inductive conversion : Type :=
| Converted (value : pyfloat)
| Rejected
| Failed (msg : string).

(** A field value of a record is known through [str(v)], through whether
    [pd.to_datetime(v)] accepts it and through how [float(v)] ends. *)
Record field_value : Type := mkValue {
  value_str : string;
  date_ok : bool;
  to_float : conversion
}.

(** [float(v)] returns a number. *)
Definition float_ok (v : field_value) : bool :=
  match to_float v with
  | Converted _ => true
  | _ => false
  end.

Inductive record : Type :=
| RDict (fields : list (string * field_value))
| RNotDict.

(** The argument [data]: a list of records, or some other object, which is
    truthy or falsy. *)
Inductive dataset : Type :=
| DList (records : list record)
| DOther (truthy : bool).

Definition required_columns : list string := ["date"; "sales"; "product"; "region"].
Definition numeric_fields : list string :=
  ["sales"; "volume"; "price"; "units"; "revenue"].

Definition record_prefix (i : nat) : string :=
  String.append "Record " (show_nat i).

Definition msg_not_dict (i : nat) : string :=
  String.append (record_prefix i) " is not a dictionary".
Definition msg_missing (i : nat) (col : string) : string :=
  String.append (record_prefix i) (String.append " missing required column: " col).
Definition msg_date (i : nat) (v : field_value) : string :=
  String.append (record_prefix i)
    (String.append " has invalid date format: " (value_str v)).
Definition msg_numeric (i : nat) (field : string) (v : field_value) : string :=
  String.append (record_prefix i)
    (String.append " has non-numeric "
       (String.append field (String.append ": " (value_str v)))).

(** [for field in numeric_fields]: the handler next to [float(record[field])]
    catches ValueError and TypeError only, any other exception leaves the
    loop and the function. *)
Fixpoint check_numeric (i : nat) (fields : list (string * field_value))
         (numeric : list string) (errors : list string) : result (list string) :=
  match numeric with
  | [] => Ok errors
  | field :: rest =>
      match dict_get field fields with
      | Some v =>
          match to_float v with
          | Converted _ => check_numeric i fields rest errors
          | Rejected => check_numeric i fields rest (errors ++ [msg_numeric i field v])
          | Failed msg => Raise (OverflowError msg)
          end
      | None => check_numeric i fields rest errors
      end
  end.

(** The body of [for i, record in enumerate(data[:sample_size])], with the
    list [errors] as state. *)
Definition check_record (errors : list string) (i : nat) (r : record)
  : result (list string) :=
  match r with
  | RNotDict => Ok (errors ++ [msg_not_dict i])
  | RDict fields =>
      let errors :=
        fold_left (fun errors col =>
                     match dict_get col fields with
                     | None => errors ++ [msg_missing i col]
                     | Some _ => errors
                     end) required_columns errors in
      let errors :=
        match dict_get "date" fields with
        | Some v => if date_ok v then errors else errors ++ [msg_date i v]
        | None => errors
        end in
      check_numeric i fields numeric_fields errors
  end.

Fixpoint check_records (i : nat) (sample : list record) (errors : list string)
  : result (list string) :=
  match sample with
  | [] => Ok errors
  | r :: t => errors <- check_record errors i r ;; check_records (S i) t errors
  end.

Definition validate_data_format (data : dataset) : result (bool * list string) :=
  match data with
  | DList [] | DOther false => Ok (false, ["Data is empty"])
  | DOther true => Ok (false, ["Data must be a list of dictionaries"])
  | DList records =>
      let sample_size := Nat.min 5 (List.length records) in
      errors <- check_records 0 (firstn sample_size records) [] ;;
      Ok ((List.length errors =? 0)%nat, errors)
  end.

(** ** A concrete environment and sample data *)

(** A date parser that keeps parsed cells, reads a missing value as NaT and
    knows a few literal dates. *)
Definition demo_to_datetime (c : cell) : result cell :=
  match c with
  | CTime t => Ok (CTime t)
  | CNaT => Ok CNaT
  | CFloat NaN => Ok CNaT
  | CStr s =>
      if String.eqb s "1970-01-01 00:00:00" then Ok (CTime 0)
      else if String.eqb s "1970-01-01 01:00:00" then Ok (CTime HOUR)
      else if String.eqb s "1970-01-01 02:00:00" then Ok (CTime (2 * HOUR))
      else if String.eqb s "1970-01-02 00:00:00" then Ok (CTime DAY)
      else Raise (ValueError (String.append "Unknown datetime string format: " s))
  | CFloat (Num _) => Raise (ValueError "numeric dates are not read by this parser")
  end.

(** A fragment of pandas' rule: regular hourly and regular daily series. *)
Definition demo_infer_freq (dates : list cell) : option string :=
  if forallb is_time dates && forallb (Z.eqb HOUR) (diff_dropna dates) then Some "h"
  else if forallb is_time dates && forallb (Z.eqb DAY) (diff_dropna dates) then Some "D"
  else None.

(** A persistence model: the next step repeats the last row of the window. *)
Definition demo_model (window : list (list pyfloat)) : result (list pyfloat) :=
  Ok (last window []).

(** A flat Prophet model: the value 100 on [periods] days. *)
Definition demo_prophet : prophet :=
  mkProphet (fun periods _ =>
    Ok (map (fun k => ((Z.of_nat k + 1) * DAY, Num 100)%Z)
            (List.seq 0 (Z.to_nat periods)))).

(** Only a daily bundle is stored, with a model for one channel. *)
Definition demo_prophet_file (pkl_path : string) : option (result pickled) :=
  if String.eqb pkl_path "daily_prophet.pkl"
  then Some (Ok (PDict [("M01AE", PProphet demo_prophet)]))
  else None.

Definition demo_env : Env :=
  mkEnv 168 demo_to_datetime demo_infer_freq demo_model
        (mapM floats_of) (fun a => Ok a) demo_prophet_file.

(** Row [k] of a regular series: every channel holds [k + 1]. *)
Definition sample_row (step : Z) (k : nat) : list cell :=
  CTime (Z.of_nat k * step) :: repeat (CFloat (Num (inject_Z (Z.of_nat k + 1)))) 8.

Definition sample_frame (step : Z) (n : nat) : DataFrame :=
  mkDF (DATE_COL :: PRODUCT_COLS) (map (sample_row step) (List.seq 0 n)).

Definition hourly_request : request :=
  mkRequest (Some (Ok (sample_frame HOUR 168))) (Some (FormInt 1)) None.

Definition daily_request : request :=
  mkRequest (Some (Ok (sample_frame DAY 40))) (Some (FormInt 5)) (Some "M01AB").


(** ** Predicates used in the statements *)

Definition row_le (key : list cell -> cell) (r1 r2 : list cell) : Prop :=
  date_leb (key r1) (key r2) = true.

(** A rectangular frame: every row has one cell per column. *)
Definition wf_frame (df : DataFrame) : Prop :=
  Forall (fun r => List.length r = List.length (columns df)) (rows df).

(** What is assumed of [pd.to_datetime]: its result is a timestamp or NaT,
    and it leaves timestamps and NaT as they are. *)
Definition parser_contract (E : Env) : Prop :=
  (forall c d, to_datetime_cell E c = Ok d -> is_datetime d = true) /\
  (forall c, is_datetime c = true -> to_datetime_cell E c = Ok c).

(** Timestamps in ascending order, equal ones allowed, missing ones last. *)
Definition ascending (dates : list cell) : Prop :=
  StronglySorted (fun a b => date_leb a b = true) dates.

(** Timestamps strictly increasing: all present, no two equal. *)
Definition strictly_increasing (dates : list cell) : Prop :=
  StronglySorted (fun a b => exists x y, a = CTime x /\ b = CTime y /\ (x < y)%Z) dates.

(** A row of a cleaned frame: a timestamp or NaT, then eight channel values,
    none missing. *)
Definition clean_row (r : list cell) : Prop :=
  exists d ps, r = d :: ps /\ is_datetime d = true /\ List.length ps = 8 /\
               Forall (fun c => isna c = false) ps.

(** Two rows with the same timestamp. *)
Definition duplicate_frame : DataFrame :=
  mkDF (DATE_COL :: PRODUCT_COLS)
       [CStr "1970-01-01 00:00:00" :: repeat (CFloat (Num 1)) 8;
        CStr "1970-01-01 00:00:00" :: repeat (CFloat (Num 2)) 8].


(** A raw frame that needs every step of the cleaner: a header in another
    case, an extra column, rows out of order, a row without any channel
    value and missing values to fill. *)
Definition messy_frame : DataFrame :=
  mkDF (" Datum " :: "extra" :: PRODUCT_COLS)
       [CStr "1970-01-02 00:00:00" :: CStr "x" :: CFloat NaN
          :: repeat (CFloat (Num 3)) 7;
        CStr "1970-01-01 01:00:00" :: CStr "y" :: repeat (CFloat NaN) 8;
        CStr "1970-01-01 00:00:00" :: CStr "z" :: repeat (CFloat (Num 1)) 8;
        CFloat NaN :: CStr "w" :: repeat (CFloat (Num 2)) 8].


(** A regular weekly series of four records, cleaned. *)
Definition weekly_clean : DataFrame :=
  Eval vm_compute in
    match _prep_dataframe demo_env (sample_frame (7 * DAY) 4) with
    | Ok df => df
    | Raise _ => mkDF [] []
    end.



(** A series with gaps of six, seven and eight days, from 21 January to
    11 February 1970: pandas infers no frequency on it. *)
Definition irregular_frame : DataFrame :=
  mkDF (DATE_COL :: PRODUCT_COLS)
       (map (fun day => CTime (day * DAY) :: repeat (CFloat (Num 1)) 8)
            [20; 26; 33; 41]%Z).

Definition irregular_dates : list cell :=
  [CTime (20 * DAY); CTime (26 * DAY); CTime (33 * DAY); CTime (41 * DAY)].

(** The fragment of pandas' rule, with its name of a regular series of one
    minute steps. *)
Definition MINUTE : Z := 60 * 1000000000.

Definition minute_infer_freq (dates : list cell) : option string :=
  if forallb is_time dates && forallb (Z.eqb MINUTE) (diff_dropna dates)
  then Some "min"
  else demo_infer_freq dates.

Definition minute_env : Env :=
  mkEnv 168 demo_to_datetime minute_infer_freq demo_model
        (mapM floats_of) (fun a => Ok a) demo_prophet_file.





(** Twenty rows with the same timestamp, told apart by their values. *)
Definition tied_frame : DataFrame := sample_frame 0 20.

(** All rows of an array have the same given width. *)
Definition has_width (n : nat) (a : list (list pyfloat)) : Prop :=
  Forall (fun r => List.length r = n) a.

(** What is assumed of the sequence model: from a window of [SEQ_LEN] rows it
    returns one row of the same width. *)
Definition predictor_contract (E : Env) (n : nat) : Prop :=
  forall window, List.length window = SEQ_LEN E -> has_width n window ->
    exists yhat, model_predict E window = Ok yhat /\ List.length yhat = n.

(** What is assumed of the scaler: inverting keeps the shape. *)
Definition inverse_contract (E : Env) (n : nat) : Prop :=
  forall a, a <> [] -> has_width n a ->
    exists b, scaler_inverse_transform E a = Ok b /\
              List.length b = List.length a /\ has_width n b.

(** A scaled window of 168 rows over 8 channels. *)
Definition sample_window : list (list pyfloat) :=
  map (fun k => repeat (Num (inject_Z (Z.of_nat k))) 8) (List.seq 0 168).


(** ** The report of the validator, record by record *)

(** [enumerate(l)] *)
Definition enumerate {A : Type} (l : list A) : list (nat * A) :=
  combine (List.seq 0 (List.length l)) l.

Definition missing_errors (i : nat) (fields : list (string * field_value)) : list string :=
  flat_map (fun col => match dict_get col fields with
                       | None => [msg_missing i col]
                       | Some _ => []
                       end) required_columns.

Definition date_errors (i : nat) (fields : list (string * field_value)) : list string :=
  match dict_get "date" fields with
  | Some v => if date_ok v then [] else [msg_date i v]
  | None => []
  end.

Definition numeric_errors (i : nat) (fields : list (string * field_value)) : list string :=
  flat_map (fun field => match dict_get field fields with
                         | Some v => match to_float v with
                                     | Rejected => [msg_numeric i field v]
                                     | _ => []
                                     end
                         | None => []
                         end) numeric_fields.

(** [float(v)] of a numeric field of the record ends with an exception that
    the validator does not catch. *)
Definition float_fails (r : record) : bool :=
  match r with
  | RDict fields =>
      existsb (fun field => match dict_get field fields with
                            | Some v => match to_float v with
                                        | Failed _ => true
                                        | _ => false
                                        end
                            | None => false
                            end) numeric_fields
  | RNotDict => false
  end.

(** The errors of record [i] taken on its own. *)
Definition record_errors (i : nat) (r : record) : list string :=
  match r with
  | RNotDict => [msg_not_dict i]
  | RDict fields =>
      missing_errors i fields ++ date_errors i fields ++ numeric_errors i fields
  end.

(** Two records that both lack the column [region]; the second also has a
    non-numeric [sales]. *)
Definition two_records : list record :=
  [RDict [("date", mkValue "2014-01-31" true Rejected);
          ("sales", mkValue "127.69" true (Converted (Num 127.69)));
          ("product", mkValue "M01AB" false Rejected)];
   RDict [("date", mkValue "2014-02-28" true Rejected);
          ("sales", mkValue "n/a" false Rejected);
          ("product", mkValue "M01AB" false Rejected)]].

(** The integer [10 ** 400], beyond the range of a float, and two records
    the second of which has it as [sales]; both lack the column [region]. *)
Definition huge_int : field_value :=
  mkValue (String.append "1" (String.concat EmptyString (repeat "0" 400)))
          false (Failed "int too large to convert to float").

Definition overflow_records : list record :=
  [RDict [("date", mkValue "2014-01-31" true Rejected);
          ("sales", mkValue "127.69" true (Converted (Num 127.69)));
          ("product", mkValue "M01AB" false Rejected)];
   RDict [("date", mkValue "2014-02-28" true Rejected);
          ("sales", huge_int);
          ("product", mkValue "M01AB" false Rejected)]].



(** The timestamps [start + step], [start + 2 * step], ... ([n] of them). *)
Definition steps_after (start step : Z) (n : nat) : list Z :=
  map (fun k => (start + Z.of_nat (S k) * step)%Z) (List.seq 0 n).


(** A frame whose date column carries another name. *)
Definition undated_frame : DataFrame :=
  mkDF ("date" :: PRODUCT_COLS)
       [CStr "1970-01-01 00:00:00" :: repeat (CFloat (Num 1)) 8].

(** A frame that lacks two of the product columns. *)
Definition narrow_frame : DataFrame :=
  mkDF ["datum"; "M01AB"; "M01AE"; "N02BA"; "N02BE"; "N05B"; "R03"]
       [CStr "1970-01-01 00:00:00" :: repeat (CFloat (Num 1)) 6].

(** Every date cell of the frame is accepted by [pd.to_datetime]. *)
Definition dates_parse (E : Env) (df : DataFrame) : Prop :=
  forall r c, In r (rows df) -> In c (columns df) -> lower (strip c) = DATE_COL ->
              exists d, to_datetime_cell E (get (columns df) c r) = Ok d.

(** [s.isascii()]. On such a string [strip] and [lower] above are those of
    Python, which on other strings also remove the white space of Unicode
    (U+00A0, U+2003, ...) and lower its letters. *)
Definition isascii (s : string) : bool :=
  forallb (fun c => (nat_of_ascii c <? 128)%nat) (list_ascii_of_string s).

(** Some column is named [datum] up to case and surrounding white space. *)
Definition has_date_column (df : DataFrame) : Prop :=
  exists c, In c (columns df) /\ lower (strip c) = DATE_COL.


(** The header after the date column has been resolved: the first lines of
    [_prep_dataframe]. *)
Definition resolved_header (cols : list string) : result (list string) :=
  if mem DATE_COL cols then Ok cols
  else
    match filter (fun c => String.eqb (lower (strip c)) (lower DATE_COL)) cols with
    | [] => Raise (ValueError "CSV must contain a 'datum' column.")
    | c0 :: _ => Ok (rename c0 DATE_COL cols)
    end.

(** The product columns that a header lacks, in the order of [PRODUCT_COLS]. *)
Definition missing_products (cols : list string) : list string :=
  filter (fun c => negb (mem c cols)) PRODUCT_COLS.


(** The four frequency codes. *)
Definition FREQUENCIES : list string := ["H"; "D"; "W"; "M"].

(** Three records whose date cells are all empty. *)
Definition undated_rows_frame : DataFrame :=
  mkDF (DATE_COL :: PRODUCT_COLS)
       [CFloat NaN :: repeat (CFloat (Num 1)) 8;
        CFloat NaN :: repeat (CFloat (Num 2)) 8;
        CFloat NaN :: repeat (CFloat (Num 3)) 8].


(** What is assumed of the scaler when forecasts of different lengths are
    compared: it inverts an array row by row. *)
Definition row_wise_inverse (E : Env) : Prop :=
  exists f, forall a, a <> [] -> scaler_inverse_transform E a = Ok (map f a).

(** A window that is one row short of [SEQ_LEN] for the sample environment. *)
Definition short_window : list (list pyfloat) := tl sample_window.


(** A daily request for the channel that has a fitted model. *)
Definition fitted_request : request :=
  mkRequest (Some (Ok (sample_frame DAY 40))) (Some (FormInt 5)) (Some "M01AE").


(** The message of the hourly branch for a history that is too short. *)
Definition not_enough_history (need got : nat) : string :=
  String.append "Not enough history. Need at least "
    (String.append (show_nat need) (String.append " rows, got " (show_nat got))).

(** An hourly request with only five rows of history. *)
Definition short_hourly_request : request :=
  mkRequest (Some (Ok (sample_frame HOUR 5))) (Some (FormInt 1)) None.


(** A daily request for zero steps, for the channel that has a fitted model. *)
Definition zero_days_request : request :=
  mkRequest (Some (Ok (sample_frame DAY 40))) (Some (FormInt 0)) (Some "M01AE").

(** A request whose file has only two rows. *)
Definition two_rows_request : request :=
  mkRequest (Some (Ok (sample_frame DAY 2))) None None.


(** A record that raises no error: a dictionary with every required column,
    a date that parses when there is one, and numeric fields that convert. *)
Definition record_ok (r : record) : Prop :=
  exists fields,
    r = RDict fields /\
    (forall col, In col required_columns -> dict_get col fields <> None) /\
    (forall v, dict_get "date" fields = Some v -> date_ok v = true) /\
    (forall field v, In field numeric_fields -> dict_get field fields = Some v ->
                     float_ok v = true).

(** A complete, well-formed record and a record that is not a dictionary. *)
Definition good_record : record :=
  RDict [("date", mkValue "2014-01-31" true Rejected);
         ("sales", mkValue "127.69" true (Converted (Num 127.69)));
         ("product", mkValue "M01AB" false Rejected);
         ("region", mkValue "north" false Rejected)].

Definition six_records : list record :=
  repeat good_record 5 ++ [RNotDict].

(** ** The cleaner: [DataProcessor.clean_data] *)

(** A value of a raw record is known through [str(v)], through
    [pd.to_datetime(v).strftime('%Y-%m-%d')] ([None] when either call raises)
    and through [float(v)]. *)
Record raw_value : Type := mkRaw {
  as_str : string;
  as_date : option string;
  as_float : conversion
}.

(** The values the cleaner stores: numbers and text. *)
Inductive clean_value : Type :=
| CVNum (f : pyfloat)
| CVText (s : string).

(** Dictionaries keep their keys in insertion order. *)
Definition raw_record : Type := list (string * raw_value).
Definition cleaned_record : Type := list (string * clean_value).

(** [d[k] = v] *)
Fixpoint dict_set {V : Type} (k : string) (v : V) (d : list (string * V))
  : list (string * V) :=
  match d with
  | [] => [(k, v)]
  | (k', v') :: t =>
      if String.eqb k k' then (k', v) :: t else (k', v') :: dict_set k v t
  end.

Definition string_fields : list string := ["product"; "region"].

Definition msg_invalid_date (i : nat) : string :=
  String.append "Invalid date in record "
    (String.append (show_nat i) ", using current date").
Definition msg_negative (field : string) (i : nat) : string :=
  String.append "Negative "
    (String.append field
       (String.append " in record " (String.append (show_nat i) ", set to 0"))).
Definition msg_invalid (field : string) (i : nat) : string :=
  String.append "Invalid "
    (String.append field
       (String.append " in record " (String.append (show_nat i) ", set to 0"))).
Definition msg_error (i : nat) (msg : string) : string :=
  String.append "Error processing record "
    (String.append (show_nat i) (String.append ": " msg)).

(** The loop over the numeric fields, with [cleaned_record] and
    [warnings_list] as state. The third component is [str(e)] of the
    exception that left the loop, if any. *)
Fixpoint clean_numeric (i : nat) (record : raw_record) (fields : list string)
  (cleaned : cleaned_record) (warnings_list : list string)
  : cleaned_record * list string * option string :=
  match fields with
  | [] => (cleaned, warnings_list, None)
  | field :: rest =>
      match dict_get field record with
      | None => clean_numeric i record rest cleaned warnings_list
      | Some v =>
          match as_float v with
          | Converted value =>
              clean_numeric i record rest
                (dict_set field (CVNum (py_max2 (Num 0) value)) cleaned)
                (if flt value (Num 0)
                 then warnings_list ++ [msg_negative field i]
                 else warnings_list)
          | Rejected =>
              clean_numeric i record rest
                (dict_set field (CVNum (Num 0)) cleaned)
                (warnings_list ++ [msg_invalid field i])
          | Failed msg => (cleaned, warnings_list, Some msg)
          end
      end
  end.

(** The loop over the string fields. *)
Definition clean_string (record : raw_record) (cleaned : cleaned_record)
  (field : string) : cleaned_record :=
  match dict_get field record with
  | Some v => dict_set field (CVText (lower (strip (as_str v)))) cleaned
  | None => cleaned
  end.

(** The loop that makes sure the required fields exist. *)
Definition ensure_required (cleaned : cleaned_record) (field : string)
  : cleaned_record :=
  match dict_get field cleaned with
  | Some _ => cleaned
  | None =>
      if String.eqb field "sales"
      then dict_set field (CVNum (Num 0)) cleaned
      else dict_set field (CVText "unknown") cleaned
  end.

(** The body of [for i, record in enumerate(data)]: the cleaned record, or
    [None] when the record is given up, and the warnings so far. [now] is the
    date [datetime.now()] shows while record [i] is processed. *)
Definition clean_record (now : nat -> string) (i : nat) (record : raw_record)
  (warnings_list : list string) : option cleaned_record * list string :=
  let '(cleaned, warnings_list) :=
    match dict_get "date" record with
    | Some v =>
        match as_date v with
        | Some d => (dict_set "date" (CVText d) [], warnings_list)
        | None => (dict_set "date" (CVText (now i)) [],
                   warnings_list ++ [msg_invalid_date i])
        end
    | None => ([], warnings_list)
    end in
  match clean_numeric i record numeric_fields cleaned warnings_list with
  | (_, warnings_list, Some msg) => (None, warnings_list ++ [msg_error i msg])
  | (cleaned, warnings_list, None) =>
      let cleaned := fold_left (clean_string record) string_fields cleaned in
      let cleaned :=
        match dict_get "sales" cleaned, dict_get "revenue" cleaned with
        | None, Some revenue => dict_set "sales" revenue cleaned
        | _, _ => cleaned
        end in
      let cleaned := fold_left ensure_required required_columns cleaned in
      (Some cleaned, warnings_list)
  end.

Fixpoint clean_records (now : nat -> string) (i : nat) (data : list raw_record)
  (cleaned_data : list cleaned_record) (warnings_list : list string)
  : list cleaned_record * list string :=
  match data with
  | [] => (cleaned_data, warnings_list)
  | record :: rest =>
      match clean_record now i record warnings_list with
      | (Some cleaned, warnings_list) =>
          clean_records now (S i) rest (cleaned_data ++ [cleaned]) warnings_list
      | (None, warnings_list) =>
          clean_records now (S i) rest cleaned_data warnings_list
      end
  end.

Definition clean_data (now : nat -> string) (data : list raw_record)
  : list cleaned_record * list string :=
  clean_records now 0 data [] [].

(** ** Outlier detection: [DataProcessor.detect_outliers] *)

(** The finite values of an array, if all of them are. *)
Fixpoint finite_values (l : list pyfloat) : option (list Q) :=
  match l with
  | [] => Some []
  | Num q :: t =>
      match finite_values t with
      | Some qs => Some (q :: qs)
      | None => None
      end
  | NaN :: _ => None
  end.

(** The value at the fractional position [virtual] of a sorted array: linear
    interpolation between the neighbours, the upper neighbour clamped to the
    last position. *)
Definition interpolate (sorted : list Q) (virtual : Q) : Q :=
  let previous := Z.to_nat (Qfloor virtual) in
  let next := Nat.min (previous + 1) (List.length sorted - 1) in
  let gamma := (virtual - inject_Z (Qfloor virtual))%Q in
  (nth previous sorted 0 + (nth next sorted 0 - nth previous sorted 0) * gamma)%Q.

(** [np.percentile(values, q)] with the default (linear) method, for a
    percentage between 0 and 100: position [(n - 1) * q / 100] of the sorted
    values. NaN when a value is NaN or there is none. *)
Definition np_percentile (values : list pyfloat) (q : Q) : pyfloat :=
  match finite_values values with
  | Some (x :: t) =>
      let n := List.length (x :: t) in
      Num (interpolate (sort_Q (x :: t))
             (inject_Z (Z.of_nat (n - 1)) * (q / 100))%Q)
  | _ => NaN
  end.

(** [np.abs] *)
Definition np_abs (a : pyfloat) : pyfloat :=
  match a with
  | Num x => Num (Qabs x)
  | NaN => NaN
  end.

(** The dictionary [outlier_info]. *)
Inductive outlier_info : Type :=
| NoInfo
| IqrInfo (lower_bound upper_bound Q1 Q3 : pyfloat) (outlier_count : nat)
| ZScoreInfo (threshold : Q) (mean std : pyfloat) (outlier_count : nat).

(** [column in df.columns] for [df = pd.DataFrame(data)]: some record has the
    key. *)
Definition in_columns (column : string) (data : list cleaned_record) : bool :=
  existsb (fun record => match dict_get column record with
                         | Some _ => true
                         | None => false
                         end) data.

(** [df[column].values]: one entry per record, NaN where the record lacks the
    key. *)
Definition column_values (column : string) (data : list cleaned_record)
  : list clean_value :=
  map (fun record => match dict_get column record with
                     | Some v => v
                     | None => CVNum NaN
                     end) data.

(** The numeric reductions ([np.percentile], [np.mean], the subtraction of
    the mean) work on an array of numbers and raise on one that holds text. *)
Definition as_numbers (values : list clean_value) : result (list pyfloat) :=
  mapM (fun v => match v with
                 | CVNum f => Ok f
                 | CVText _ => Raise (TypeError "unsupported operand type")
                 end) values.

(** [[i for i, val in enumerate(values) if test(val)]] *)
Definition indices_where (test : pyfloat -> bool) (values : list pyfloat)
  : list nat :=
  map fst (filter (fun iv => test (snd iv)) (enumerate values)).

Definition detect_outliers (data : list cleaned_record) (column method : string)
  : list nat * outlier_info :=
  if negb (in_columns column data) then ([], NoInfo)
  else
    let values := column_values column data in
    if String.eqb method "iqr" then
      match as_numbers values with
      | Raise _ => ([], NoInfo)
      | Ok values =>
          let Q1 := np_percentile values 25 in
          let Q3 := np_percentile values 75 in
          let IQR := fsub Q3 Q1 in
          let lower_bound := fsub Q1 (fmul (Num (3 # 2)) IQR) in
          let upper_bound := fadd Q3 (fmul (Num (3 # 2)) IQR) in
          let outlier_indices :=
            indices_where (fun val => flt val lower_bound || fgt val upper_bound)
              values in
          (outlier_indices,
           IqrInfo lower_bound upper_bound Q1 Q3 (List.length outlier_indices))
      end
    else if String.eqb method "zscore" then
      match as_numbers values with
      | Raise _ => ([], NoInfo)
      | Ok values =>
          let mean_val := np_mean values in
          let std_val := np_std values in
          let threshold := 3%Q in
          let z_scores :=
            map (fun v => np_abs (fdiv (fsub v mean_val)
                                    (fadd std_val (Num (1 # 100000000)))))
              values in
          let outlier_indices :=
            indices_where (fun z => fgt z (Num threshold)) z_scores in
          (outlier_indices,
           ZScoreInfo threshold mean_val std_val (List.length outlier_indices))
      end
    else ([], NoInfo).

(** ** Statements about the cleaner *)

(** A record the cleaner gives up: the conversion of one of its numeric
    fields ends with an exception other than ValueError and TypeError. *)
Definition conversion_fails (record : raw_record) : bool :=
  existsb (fun field => match dict_get field record with
                        | Some v => match as_float v with
                                    | Failed _ => true
                                    | _ => false
                                    end
                        | None => false
                        end) numeric_fields.

Definition has_required (cleaned : cleaned_record) : Prop :=
  forall col, In col required_columns -> dict_get col cleaned <> None.

Definition nonneg_number (v : clean_value) : Prop :=
  exists q, v = CVNum (Num q) /\ (0 <= q)%Q.

(** Text in standard form: no white space around it, no capital letter. *)
Definition standard_text (v : clean_value) : Prop :=
  exists s, v = CVText s /\ strip s = s /\ lower s = s.

(** What each field of a cleaned record may hold. *)
Definition field_ok (k : string) (v : clean_value) : Prop :=
  (In k numeric_fields -> nonneg_number v) /\
  (In k string_fields -> standard_text v).

Definition well_typed (cleaned : cleaned_record) : Prop :=
  forall k v, dict_get k cleaned = Some v -> field_ok k v.

(** A numeric field that needs no repair: absent, or a number that is not
    negative. *)
Definition numeric_tidy (record : raw_record) (field : string) : Prop :=
  forall v, dict_get field record = Some v ->
            exists x, as_float v = Converted x /\ flt x (Num 0) = false.

(** A record that needs no repair: its date, if any, can be formatted and
    its numeric fields are tidy. *)
Definition tidy (record : raw_record) : Prop :=
  (forall v, dict_get "date" record = Some v -> as_date v <> None) /\
  (forall field, In field numeric_fields -> numeric_tidy record field).

(** Three raw records: a tidy one, one with a date that does not parse, a
    negative revenue and a volume that is no number, and one whose sales
    cannot be converted at all. *)
Definition tidy_raw : raw_record :=
  [("date", mkRaw "2024-01-05" (Some "2024-01-05") Rejected);
   ("sales", mkRaw "120.5" None (Converted (Num (241 # 2))));
   ("product", mkRaw "  Aspirin " None Rejected);
   ("region", mkRaw "North" None Rejected)].

Definition messy_raw : raw_record :=
  [("date", mkRaw "soon" None Rejected);
   ("revenue", mkRaw "-3" None (Converted (Num (-3))));
   ("volume", mkRaw "n/a" None Rejected)].

Definition failing_raw : raw_record :=
  [("sales", mkRaw "huge" None (Failed "int too large to convert to float"))].

Definition raw_data : list raw_record := [tidy_raw; messy_raw; failing_raw].

Definition today (i : nat) : string := "2024-06-01".

(** ** Statements about the outlier detection *)

(** The entry [outlier_count] of the report; an empty report counts none. *)
Definition reported_count (info : outlier_info) : nat :=
  match info with
  | NoInfo => 0
  | IqrInfo _ _ _ _ n | ZScoreInfo _ _ _ n => n
  end.

(** Five records with the sales 1, 2, 3, 4 and 100. *)
Definition five_sales : list cleaned_record :=
  map (fun q => [("sales", CVNum (Num q))])
    [1%Q; 2%Q; 3%Q; 4%Q; 100%Q].

(** Four records with the same sales. *)
Definition flat_sales : list cleaned_record :=
  repeat [("sales", CVNum (Num 7))] 4.

(** * Properties *)

(** ** Results *)

Lemma bind_Ok_inv {A B : Type} (c : result A) (k : A -> result B) (b : B) :
  bind c k = Ok b -> exists a, c = Ok a /\ k a = Ok b.
Proof.
  destruct c as [a | e]; simpl; intros H; [eauto | discriminate].
Qed.

Lemma mapM_Ok_inv {A B : Type} (f : A -> result B) (l : list A) (bs : list B) :
  mapM f l = Ok bs -> Forall2 (fun a b => f a = Ok b) l bs.
Proof.
  revert bs; induction l as [| a t IH]; simpl; intros bs H.
  - injection H as <-. constructor.
  - apply bind_Ok_inv in H as (b & Hb & H).
    apply bind_Ok_inv in H as (bs' & Hbs & H).
    injection H as <-. constructor; auto.
Qed.

Lemma mapM_Ok_intro {A B : Type} (f : A -> result B) (l : list A) (bs : list B) :
  Forall2 (fun a b => f a = Ok b) l bs -> mapM f l = Ok bs.
Proof.
  induction 1 as [| a b t bs Hab _ IH]; simpl; [reflexivity |].
  now rewrite Hab, IH.
Qed.

Lemma mapM_length {A B : Type} (f : A -> result B) (l : list A) (bs : list B) :
  mapM f l = Ok bs -> List.length bs = List.length l.
Proof.
  intros H. apply mapM_Ok_inv in H.
  induction H; simpl; congruence.
Qed.

(** ** Sorting rows by a date key *)

Lemma date_leb_total (a b : cell) : date_leb a b = false -> date_leb b a = true.
Proof.
  destruct a, b; simpl; try congruence; try reflexivity.
  intros H. apply Z.leb_gt in H. apply Z.leb_le. lia.
Qed.

Lemma date_leb_trans (a b c : cell) :
  date_leb a b = true -> date_leb b c = true -> date_leb a c = true.
Proof.
  destruct a, b, c; simpl; try congruence; try reflexivity.
  intros H1 H2. apply Z.leb_le in H1, H2. apply Z.leb_le. lia.
Qed.

Section SortRowsFacts.
Variable key : list cell -> cell.

Lemma insert_row_In (r x : list cell) (l : list (list cell)) :
  In x (insert_row key r l) <-> x = r \/ In x l.
Proof.
  induction l as [| h t IH]; simpl.
  - intuition congruence.
  - destruct (date_leb (key r) (key h)); simpl; rewrite ?IH; intuition congruence.
Qed.

Lemma insert_row_length (r : list cell) (l : list (list cell)) :
  List.length (insert_row key r l) = S (List.length l).
Proof.
  induction l as [| h t IH]; simpl; [reflexivity |].
  destruct (date_leb (key r) (key h)); simpl; congruence.
Qed.

Lemma sort_rows_length (l : list (list cell)) :
  List.length (sort_rows key l) = List.length l.
Proof.
  induction l as [| r t IH]; simpl; [reflexivity |].
  now rewrite insert_row_length, IH.
Qed.

Lemma sort_rows_In (x : list cell) (l : list (list cell)) :
  In x (sort_rows key l) <-> In x l.
Proof.
  induction l as [| r t IH]; simpl; [tauto |].
  rewrite insert_row_In, IH. intuition congruence.
Qed.

Lemma insert_row_sorted (r : list cell) (l : list (list cell)) :
  StronglySorted (row_le key) l -> StronglySorted (row_le key) (insert_row key r l).
Proof.
  induction 1 as [| h t Hs IH Hh]; simpl.
  - repeat constructor.
  - destruct (date_leb (key r) (key h)) eqn:Hrh.
    + constructor; [constructor; assumption |].
      constructor; [exact Hrh |].
      eapply Forall_impl; [| exact Hh].
      intros x Hx. unfold row_le in *. eapply date_leb_trans; eauto.
    + constructor; [assumption |].
      apply Forall_forall. intros x Hx.
      apply insert_row_In in Hx as [-> | Hx].
      * now apply date_leb_total.
      * rewrite Forall_forall in Hh. now apply Hh.
Qed.

Lemma sort_rows_sorted (l : list (list cell)) :
  StronglySorted (row_le key) (sort_rows key l).
Proof.
  induction l as [| r t IH]; simpl; [constructor | now apply insert_row_sorted].
Qed.

(** Sorting a sorted list of rows leaves it as it is. *)
Lemma sort_rows_fixed (l : list (list cell)) :
  StronglySorted (row_le key) l -> sort_rows key l = l.
Proof.
  induction 1 as [| h t Hs IH Hh]; simpl; [reflexivity |].
  rewrite IH. destruct t as [| h' t']; simpl; [reflexivity |].
  inversion Hh as [| ? ? Hhh' _]; subst. unfold row_le in Hhh'. now rewrite Hhh'.
Qed.
End SortRowsFacts.

Lemma StronglySorted_filter {A : Type} (R : A -> A -> Prop) (f : A -> bool) (l : list A) :
  StronglySorted R l -> StronglySorted R (filter f l).
Proof.
  induction 1 as [| h t Hs IH Hh]; simpl; [constructor |].
  destruct (f h); [| assumption].
  constructor; [assumption |].
  apply Forall_forall. intros x Hx. apply filter_In in Hx as [Hx _].
  rewrite Forall_forall in Hh. now apply Hh.
Qed.

Lemma StronglySorted_map {A B : Type} (R : A -> A -> Prop) (R' : B -> B -> Prop)
      (g : A -> B) (l : list A) :
  (forall a b, R a b -> R' (g a) (g b)) ->
  StronglySorted R l -> StronglySorted R' (map g l).
Proof.
  intros Hg. induction 1 as [| h t Hs IH Hh]; simpl; constructor; [assumption |].
  apply Forall_forall. intros y Hy. apply in_map_iff in Hy as (x & <- & Hx).
  rewrite Forall_forall in Hh. apply Hg. now apply Hh.
Qed.

(** ** The cleaner *)

Section CleanerFacts.
Variable E : Env.

(** The shape of a successful run of the cleaner. *)
Lemma prep_inv (raw df : DataFrame) :
  _prep_dataframe E raw = Ok df ->
  exists cols i rs,
    List.length cols = List.length (columns raw) /\
    col_index DATE_COL cols = Some i /\
    Forall2 (fun r r' => exists d, to_datetime_cell E (cell_at i r) = Ok d /\
                                   r' = set_at i d r) (rows raw) rs /\
    df = mkDF (DATE_COL :: PRODUCT_COLS)
           (map (fillna_row (DATE_COL :: PRODUCT_COLS))
              (filter (fun r => negb (all_products_missing (DATE_COL :: PRODUCT_COLS) r))
                 (map (fun r => map (fun c => get cols c r) (DATE_COL :: PRODUCT_COLS))
                    (sort_rows (cell_at i) rs)))).
Proof.
  unfold _prep_dataframe. intros H.
  apply bind_Ok_inv in H as (cols & Hcols & H).
  apply bind_Ok_inv in H as (df1 & Hparse & H).
  apply bind_Ok_inv in H as (df2 & Hsort & H).
  unfold parse_dates in Hparse. simpl in Hparse.
  destruct (col_index DATE_COL cols) as [i |] eqn:Hi; [| discriminate].
  apply bind_Ok_inv in Hparse as (rs & Hrs & Hdf1). injection Hdf1 as <-.
  unfold sort_values in Hsort. simpl in Hsort. rewrite Hi in Hsort.
  injection Hsort as <-. cbn [columns rows] in H.
  destruct (filter (fun c => negb (mem c cols)) PRODUCT_COLS); [| discriminate].
  injection H as <-.
  exists cols, i, rs. split; [| split; [assumption | split; [| reflexivity]]].
  - destruct (mem DATE_COL (columns raw)).
    + now injection Hcols as <-.
    + destruct (filter _ (columns raw)); [discriminate |].
      injection Hcols as <-. unfold rename. now rewrite length_map.
  - apply mapM_Ok_inv in Hrs. eapply Forall2_impl; [| exact Hrs].
    intros r r' Hr. apply bind_Ok_inv in Hr as (d & Hd & Hr).
    injection Hr as <-. eauto.
Qed.

Lemma col_index_lt (c : string) (cols : list string) (i : nat) :
  col_index c cols = Some i -> (i < List.length cols)%nat.
Proof.
  revert i; induction cols as [| h t IH]; simpl; intros i H; [discriminate |].
  destruct (String.eqb c h).
  - injection H as <-. lia.
  - destruct (col_index c t) as [j |]; [| discriminate].
    injection H as <-. specialize (IH j eq_refl). lia.
Qed.

Lemma cell_at_set_at (i : nat) (d : cell) (r : list cell) :
  (i < List.length r)%nat -> cell_at i (set_at i d r) = d.
Proof.
  unfold cell_at. revert i; induction r as [| h t IH]; simpl; intros i Hi; [lia |].
  destruct i; simpl; [reflexivity |]. apply IH. lia.
Qed.

Lemma column_get (df : DataFrame) (c : string) (j : nat) :
  col_index c (columns df) = Some j ->
  column df c = Ok (map (get (columns df) c) (rows df)).
Proof.
  intros H. unfold column, get. now rewrite H.
Qed.

Lemma fill_cell_product (c : string) (v : cell) :
  mem c PRODUCT_COLS = true -> isna (fill_cell c v) = false.
Proof.
  intros H. unfold fill_cell. rewrite H. simpl.
  destruct (isna v) eqn:Hv; [reflexivity | exact Hv].
Qed.

(** A row after column selection and filling. *)
Lemma filled_row_form (cols : list string) (r : list cell) :
  fillna_row (DATE_COL :: PRODUCT_COLS)
             (map (fun c => get cols c r) (DATE_COL :: PRODUCT_COLS)) =
  get cols DATE_COL r :: map (fun c => fill_cell c (get cols c r)) PRODUCT_COLS.
Proof. reflexivity. Qed.

Lemma filled_row_clean (cols : list string) (r : list cell) :
  is_datetime (get cols DATE_COL r) = true ->
  clean_row (fillna_row (DATE_COL :: PRODUCT_COLS)
                        (map (fun c => get cols c r) (DATE_COL :: PRODUCT_COLS))).
Proof.
  intros Hd. rewrite filled_row_form.
  exists (get cols DATE_COL r), (map (fun c => fill_cell c (get cols c r)) PRODUCT_COLS).
  repeat split; try assumption.
  apply Forall_map. apply Forall_forall. intros c Hc.
  apply fill_cell_product. unfold mem. apply existsb_exists.
  exists c. split; [assumption | apply String.eqb_refl].
Qed.

Lemma fillna_row_key (r : list cell) :
  cell_at 0 (fillna_row (DATE_COL :: PRODUCT_COLS) r) = cell_at 0 r.
Proof. destruct r; reflexivity. Qed.

(** The rows of a cleaned frame are in ascending order of their first cell. *)
Lemma prep_rows_sorted (raw df : DataFrame) :
  _prep_dataframe E raw = Ok df ->
  columns df = DATE_COL :: PRODUCT_COLS /\
  StronglySorted (row_le (cell_at 0)) (rows df).
Proof.
  intros H. apply prep_inv in H as (cols & i & rs & _ & Hi & _ & ->).
  split; [reflexivity |]. cbn [rows].
  apply StronglySorted_map with (R := row_le (cell_at 0)).
  { intros a b. unfold row_le. now rewrite !fillna_row_key. }
  apply StronglySorted_filter.
  apply StronglySorted_map with (R := row_le (cell_at i)); [| apply sort_rows_sorted].
  intros a b. unfold row_le.
  change (cell_at 0 (map (fun c => get cols c a) (DATE_COL :: PRODUCT_COLS)))
    with (get cols DATE_COL a).
  change (cell_at 0 (map (fun c => get cols c b) (DATE_COL :: PRODUCT_COLS)))
    with (get cols DATE_COL b).
  unfold get. now rewrite Hi.
Qed.

(** On a rectangular input every row of the cleaned frame is clean. *)
Lemma prep_rows_clean (raw df : DataFrame) :
  parser_contract E -> wf_frame raw ->
  _prep_dataframe E raw = Ok df ->
  Forall clean_row (rows df).
Proof.
  intros [Hparse _] Hwf H.
  apply prep_inv in H as (cols & i & rs & Hlen & Hi & Hrs & ->). cbn [rows].
  apply Forall_forall. intros r' Hr'.
  apply in_map_iff in Hr' as (r1 & <- & Hr1).
  apply filter_In in Hr1 as [Hr1 _].
  apply in_map_iff in Hr1 as (r & <- & Hr).
  apply filled_row_clean. unfold get. rewrite Hi.
  apply sort_rows_In in Hr.
  assert (Hall : Forall (fun r => is_datetime (cell_at i r) = true) rs).
  { clear Hr. unfold wf_frame in Hwf.
    induction Hrs as [| a b ta tb (d & Hd & ->) _ IH]; constructor.
    - inversion Hwf as [| ? ? Ha _]; subst.
      rewrite cell_at_set_at; [now apply Hparse in Hd |].
      rewrite Ha, <- Hlen. now apply col_index_lt with (c := DATE_COL).
    - apply IH. now inversion Hwf. }
  rewrite Forall_forall in Hall. now apply Hall.
Qed.
End CleanerFacts.

Lemma in_product_cols (P : string -> Prop) :
  P "M01AB" -> P "M01AE" -> P "N02BA" -> P "N02BE" ->
  P "N05B" -> P "N05C" -> P "R03" -> P "R06" ->
  forall c, In c PRODUCT_COLS -> P c.
Proof.
  intros H1 H2 H3 H4 H5 H6 H7 H8 c Hc. unfold PRODUCT_COLS in Hc. simpl in Hc.
  repeat (destruct Hc as [<- | Hc]; [assumption |]). contradiction.
Qed.

Lemma filled_row_get (cols : list string) (r : list cell) (c : string) :
  In c PRODUCT_COLS ->
  get (DATE_COL :: PRODUCT_COLS) c
      (fillna_row (DATE_COL :: PRODUCT_COLS)
                  (map (fun c => get cols c r) (DATE_COL :: PRODUCT_COLS))) =
  fill_cell c (get cols c r).
Proof.
  revert c. apply in_product_cols; reflexivity.
Qed.

Lemma product_col_index (c : string) :
  In c PRODUCT_COLS -> exists j, col_index c (DATE_COL :: PRODUCT_COLS) = Some j.
Proof.
  revert c. apply in_product_cols; eexists; reflexivity.
Qed.

Lemma mem_In (c : string) (l : list string) : In c l -> mem c l = true.
Proof.
  intros H. unfold mem. apply existsb_exists. exists c.
  split; [assumption | apply String.eqb_refl].
Qed.

(** C6 (amended). Whenever the cleaner accepts a raw frame, the timestamps of
    the cleaned frame are in ascending order (equal timestamps may remain,
    missing timestamps come last) and no channel value of it is missing:
    every NaN has been replaced. *)
Theorem prep_ascending_no_missing (E : Env) (raw df : DataFrame) :
  _prep_dataframe E raw = Ok df ->
  (exists dates, column df DATE_COL = Ok dates /\ ascending dates) /\
  (forall c, In c PRODUCT_COLS ->
     exists vals, column df c = Ok vals /\ Forall (fun v => isna v = false) vals).
Proof.
  intros H. split.
  - apply prep_rows_sorted in H as [Hcols Hsorted].
    exists (map (cell_at 0) (rows df)). split.
    + unfold column. rewrite Hcols. reflexivity.
    + unfold ascending. eapply StronglySorted_map; [| exact Hsorted].
      intros a b Hab. exact Hab.
  - intros c Hc. apply prep_inv in H as (cols & i & rs & _ & _ & _ & ->).
    destruct (product_col_index c Hc) as [j Hj].
    eexists. split; [eapply column_get; exact Hj |].
    cbn [rows columns]. rewrite !Forall_map. apply Forall_forall. intros r1 Hr1.
    apply filter_In in Hr1 as [Hr1 _].
    apply in_map_iff in Hr1 as (r & <- & _).
    rewrite filled_row_get by assumption.
    apply fill_cell_product. now apply mem_In.
Qed.

Lemma prep_ascending_no_missing_witness :
  exists df,
    _prep_dataframe demo_env duplicate_frame = Ok df /\
    (exists dates, column df DATE_COL = Ok dates /\ ascending dates) /\
    (forall c, In c PRODUCT_COLS ->
       exists vals, column df c = Ok vals /\ Forall (fun v => isna v = false) vals).
Proof.
  eexists. split; [vm_compute; reflexivity |].
  apply (prep_ascending_no_missing demo_env duplicate_frame). reflexivity.
Defined.

(** C6, as stated, fails: two rows carrying the same timestamp both survive
    cleaning, so the cleaned timestamps are not strictly increasing. *)
Lemma prep_keeps_duplicate_timestamps :
  exists df dates,
    _prep_dataframe demo_env duplicate_frame = Ok df /\
    column df DATE_COL = Ok dates /\
    dates = [CTime 0; CTime 0] /\
    ~ strictly_increasing dates.
Proof.
  eexists. eexists. split; [vm_compute; reflexivity |].
  split; [vm_compute; reflexivity |]. split; [reflexivity |].
  intros H. inversion H as [| ? ? _ Hall]; subst.
  inversion Hall as [| ? ? (x & y & Hx & Hy & Hlt) _]; subst.
  injection Hx as <-. injection Hy as <-. lia.
Qed.

(** ** Cleaning a clean frame *)

Ltac clean_row_cells H :=
  let d := fresh "d" in
  let ps := fresh "ps" in
  let Hd := fresh "Hd" in
  let Hlen := fresh "Hlen" in
  let Hps := fresh "Hps" in
  destruct H as (d & ps & -> & Hd & Hlen & Hps);
  do 8 (destruct ps as [| ? ps]; [discriminate Hlen |]);
  destruct ps; [| discriminate Hlen];
  repeat match goal with
         | Hf : Forall _ (_ :: _) |- _ =>
             let Hc := fresh "Hc" in
             apply Forall_cons_iff in Hf as [Hc Hf]
         end.

Lemma select_clean_row (r : list cell) :
  clean_row r ->
  map (fun c => get (DATE_COL :: PRODUCT_COLS) c r) (DATE_COL :: PRODUCT_COLS) = r.
Proof. intros H. clean_row_cells H. reflexivity. Qed.

Lemma keep_clean_row (r : list cell) :
  clean_row r -> all_products_missing (DATE_COL :: PRODUCT_COLS) r = false.
Proof.
  intros H. clean_row_cells H.
  change (all_products_missing (DATE_COL :: PRODUCT_COLS) [d; c; c0; c1; c2; c3; c4; c5; c6])
    with (forallb isna [c; c0; c1; c2; c3; c4; c5; c6]).
  simpl. now rewrite Hc.
Qed.

Lemma fill_cell_present (c : string) (v : cell) :
  isna v = false -> fill_cell c v = v.
Proof.
  intros H. unfold fill_cell. rewrite H. now rewrite andb_false_r.
Qed.

Lemma fillna_clean_row (r : list cell) :
  clean_row r -> fillna_row (DATE_COL :: PRODUCT_COLS) r = r.
Proof.
  intros H. clean_row_cells H.
  change (fillna_row (DATE_COL :: PRODUCT_COLS) [d; c; c0; c1; c2; c3; c4; c5; c6])
    with [d; fill_cell "M01AB" c; fill_cell "M01AE" c0; fill_cell "N02BA" c1;
          fill_cell "N02BE" c2; fill_cell "N05B" c3; fill_cell "N05C" c4;
          fill_cell "R03" c5; fill_cell "R06" c6].
  now rewrite !fill_cell_present by assumption.
Qed.

Lemma map_fixed {A : Type} (P : A -> Prop) (f : A -> A) (l : list A) :
  (forall a, P a -> f a = a) -> Forall P l -> map f l = l.
Proof.
  intros Hf. induction 1 as [| a t Ha _ IH]; simpl; [reflexivity |].
  now rewrite Hf, IH.
Qed.

Lemma filter_all {A : Type} (P : A -> Prop) (f : A -> bool) (l : list A) :
  (forall a, P a -> f a = true) -> Forall P l -> filter f l = l.
Proof.
  intros Hf. induction 1 as [| a t Ha _ IH]; simpl; [reflexivity |].
  now rewrite Hf, IH.
Qed.

Section CleanFrame.
Variable E : Env.
Hypothesis parser_keeps_dates :
  forall c, is_datetime c = true -> to_datetime_cell E c = Ok c.

Lemma parse_clean_rows (rs : list (list cell)) :
  Forall clean_row rs ->
  parse_dates E (mkDF (DATE_COL :: PRODUCT_COLS) rs) =
  Ok (mkDF (DATE_COL :: PRODUCT_COLS) rs).
Proof.
  intros Hrs. unfold parse_dates. cbn [columns rows].
  change (col_index DATE_COL (DATE_COL :: PRODUCT_COLS)) with (Some 0%nat).
  cbv beta iota.
  rewrite (mapM_Ok_intro _ rs rs); [reflexivity |].
  induction Hrs as [| r t Hr _ IH]; constructor; [| exact IH].
  destruct Hr as (d & ps & -> & Hd & _).
  change (cell_at 0 (d :: ps)) with d. now rewrite parser_keeps_dates.
Qed.

(** A frame of clean rows in ascending order is a fixed point of the
    cleaner. *)
Lemma prep_clean_frame (rs : list (list cell)) :
  Forall clean_row rs ->
  StronglySorted (row_le (cell_at 0)) rs ->
  _prep_dataframe E (mkDF (DATE_COL :: PRODUCT_COLS) rs) =
  Ok (mkDF (DATE_COL :: PRODUCT_COLS) rs).
Proof.
  intros Hclean Hsorted. unfold _prep_dataframe. cbn [columns rows].
  change (mem DATE_COL (DATE_COL :: PRODUCT_COLS)) with true. cbn [bind].
  rewrite parse_clean_rows by assumption. cbn [bind].
  unfold sort_values. cbn [columns rows].
  change (col_index DATE_COL (DATE_COL :: PRODUCT_COLS)) with (Some 0%nat).
  cbv beta iota.
  rewrite sort_rows_fixed by assumption. cbn [bind columns].
  change (filter (fun c => negb (mem c (DATE_COL :: PRODUCT_COLS))) PRODUCT_COLS)
    with (@nil string).
  unfold select. cbn [columns rows].
  rewrite (map_fixed clean_row _ rs select_clean_row Hclean).
  rewrite (filter_all clean_row) by
    (assumption || (intros a Ha; now rewrite keep_clean_row)).
  rewrite (map_fixed clean_row _ rs fillna_clean_row Hclean).
  reflexivity.
Qed.
End CleanFrame.

(** ** Sorting with any algorithm *)

Lemma take_seq {A : Type} (d : A) (l : list A) :
  take d l (List.seq 0 (List.length l)) = l.
Proof.
  unfold take. induction l as [| a t IH]; [reflexivity |].
  cbn [List.length List.seq map nth]. f_equal.
  rewrite <- seq_shift, map_map. exact IH.
Qed.

Lemma take_permutation {A : Type} (d : A) (l : list A) (indexer : list nat) :
  Permutation indexer (List.seq 0 (List.length l)) ->
  Permutation (take d l indexer) l.
Proof.
  intros H. rewrite <- (take_seq d l) at 2. unfold take. now apply Permutation_map.
Qed.

Lemma filter_split_permutation {A : Type} (f : A -> bool) (l : list A) :
  Permutation (filter f l ++ filter (fun a => negb (f a)) l) l.
Proof.
  induction l as [| a t IH]; [constructor |].
  cbn [filter]. destruct (f a); cbn [negb app].
  - now constructor.
  - apply Permutation_sym, Permutation_cons_app. now apply Permutation_sym.
Qed.

Lemma StronglySorted_app {A : Type} (R : A -> A -> Prop) (l1 l2 : list A) :
  StronglySorted R l1 -> StronglySorted R l2 ->
  (forall a b, In a l1 -> In b l2 -> R a b) ->
  StronglySorted R (l1 ++ l2).
Proof.
  intros H1 H2 H. induction H1 as [| a t Ht IH Ha]; [exact H2 |].
  cbn [app]. constructor.
  - apply IH. intros x y Hx Hy. apply H; [now right | exact Hy].
  - apply Forall_app. split; [exact Ha |].
    apply Forall_forall. intros y Hy. apply H; [now left | exact Hy].
Qed.

(** Sortedness read back through a map, on the elements of the list. *)
Lemma StronglySorted_map_inv {A B : Type} (R : A -> A -> Prop) (R' : B -> B -> Prop)
      (g : A -> B) (l : list A) :
  (forall a b, In a l -> In b l -> R' (g a) (g b) -> R a b) ->
  StronglySorted R' (map g l) -> StronglySorted R l.
Proof.
  induction l as [| a t IH]; intros Hg H; [constructor |].
  cbn [map] in H. apply StronglySorted_inv in H as [Ht Ha]. constructor.
  - apply IH; [| exact Ht]. intros x y Hx Hy. apply Hg; now right.
  - apply Forall_forall. intros y Hy. apply Hg; [now left | now right |].
    rewrite Forall_forall in Ha. apply Ha. now apply in_map.
Qed.

(** A list in strictly ascending order of a key is the only ascending
    arrangement of its elements. *)
Lemma sorted_unique {A : Type} (f : A -> Z) (l' l : list A) :
  Permutation l' l ->
  StronglySorted (fun a b => (f a <= f b)%Z) l' ->
  StronglySorted (fun a b => (f a < f b)%Z) l ->
  l' = l.
Proof.
  revert l'. induction l as [| a t IH]; intros l' Hp Hs' Hs.
  - now apply Permutation_nil.
  - apply StronglySorted_inv in Hs as [Hst Ha]. rewrite Forall_forall in Ha.
    destruct l' as [| h t']; [apply Permutation_nil in Hp; discriminate |].
    apply StronglySorted_inv in Hs' as [Hst' Hh]. rewrite Forall_forall in Hh.
    assert (Hha : h = a).
    { assert (Hin : In h (a :: t)) by (apply (Permutation_in _ Hp); now left).
      destruct Hin as [-> | Hin]; [reflexivity |].
      assert (Hin' : In a (h :: t'))
        by (apply (Permutation_in _ (Permutation_sym Hp)); now left).
      destruct Hin' as [-> | Hin']; [reflexivity |].
      specialize (Ha h Hin). specialize (Hh a Hin'). lia. }
    subst h. f_equal. apply IH; [| exact Hst' | exact Hst].
    now apply Permutation_cons_inv in Hp.
Qed.

Lemma sorted_strict {A : Type} (f : A -> Z) (l : list A) :
  StronglySorted (fun a b => (f a <= f b)%Z) l -> NoDup (map f l) ->
  StronglySorted (fun a b => (f a < f b)%Z) l.
Proof.
  induction 1 as [| a t Ht IH Ha]; intros Hn; [constructor |].
  cbn [map] in Hn. inversion Hn as [| ? ? Hnotin Hn']; subst.
  constructor; [now apply IH |].
  rewrite Forall_forall in *. intros x Hx. specialize (Ha x Hx).
  assert (f a <> f x) by (intros Heq; apply Hnotin; rewrite Heq; now apply in_map).
  lia.
Qed.

Lemma StronglySorted_impl_in {A : Type} (R R' : A -> A -> Prop) (l : list A) :
  (forall a b, In a l -> In b l -> R a b -> R' a b) ->
  StronglySorted R l -> StronglySorted R' l.
Proof.
  intros H Hs. induction Hs as [| a t Ht IH Ha]; [constructor |].
  constructor.
  - apply IH. intros x y Hx Hy. apply H; now right.
  - rewrite Forall_forall in *. intros x Hx. apply H; [now left | now right | now apply Ha].
Qed.

Lemma map_injective_on {A B : Type} (g : A -> B) (p q : list A) :
  (forall a b, In a p -> In b q -> g a = g b -> a = b) ->
  map g p = map g q -> p = q.
Proof.
  revert q. induction p as [| a t IH]; intros q Hg H.
  - destruct q; [reflexivity | discriminate].
  - destruct q as [| b u]; [discriminate |].
    cbn [map] in H. injection H as Hab Htu. f_equal.
    + apply Hg; [now left | now left | exact Hab].
    + apply IH; [| exact Htu]. intros x y Hx Hy. apply Hg; now right.
Qed.

(** On keys in strictly ascending order every algorithm returns the
    positions as they are. *)
Lemma argsort_fixed (argsort : list Z -> list nat) (keys : list Z) :
  argsort_contract argsort ->
  StronglySorted Z.lt keys ->
  argsort keys = List.seq 0 (List.length keys).
Proof.
  intros Hc Hkeys. destruct (Hc keys) as [Hp Hs].
  assert (Heq : take 0%Z keys (argsort keys) =
               take 0%Z keys (List.seq 0 (List.length keys))).
  { rewrite take_seq.
    apply (sorted_unique (fun k => k));
      [now apply take_permutation | exact Hs | exact Hkeys]. }
  unfold take in Heq.
  apply map_injective_on in Heq; [exact Heq |].
  intros a b Ha Hb Hab.
  apply (Permutation_in _ Hp) in Ha. apply in_seq in Ha, Hb.
  assert (Hnd : NoDup keys).
  { clear -Hkeys. induction Hkeys as [| k t Ht IH Hk]; constructor; [| exact IH].
    intros Hin. rewrite Forall_forall in Hk. specialize (Hk k Hin). lia. }
  rewrite NoDup_nth in Hnd. apply Hnd; [lia | lia | exact Hab].
Qed.

Section SortKindFacts.
Variable argsort : list Z -> list nat.
Hypothesis argsort_sorts : argsort_contract argsort.
Variable key : list cell -> cell.

Lemma nargsort_rows_permutation (l : list (list cell)) :
  Permutation (nargsort_rows argsort key l) l.
Proof.
  unfold nargsort_rows.
  apply Permutation_trans with (2 := filter_split_permutation (fun r => is_time (key r)) l).
  apply Permutation_app_tail. apply take_permutation.
  rewrite <- (length_map (fun r => key_time (key r))). apply argsort_sorts.
Qed.

Lemma nargsort_rows_In (x : list cell) (l : list (list cell)) :
  In x (nargsort_rows argsort key l) <-> In x l.
Proof.
  split; apply Permutation_in;
    [| apply Permutation_sym]; apply nargsort_rows_permutation.
Qed.

Lemma row_le_times (a b : list cell) :
  is_time (key a) = true -> is_time (key b) = true ->
  (key_time (key a) <= key_time (key b))%Z -> row_le key a b.
Proof.
  unfold row_le. destruct (key a), (key b); try discriminate.
  intros _ _ H. cbn in *. now apply Z.leb_le.
Qed.

Lemma row_le_missing (a b : list cell) :
  is_time (key b) = false -> row_le key a b.
Proof.
  unfold row_le. destruct (key a), (key b); try discriminate; reflexivity.
Qed.

Lemma take_map {A B : Type} (g : A -> B) (d : A) (d' : B) (l : list A)
      (indexer : list nat) :
  Forall (fun j => (j < List.length l)%nat) indexer ->
  take d' (map g l) indexer = map g (take d l indexer).
Proof.
  intros H. unfold take. rewrite map_map. apply map_ext_in.
  intros j Hj. rewrite Forall_forall in H. specialize (H j Hj).
  rewrite (nth_indep _ d' (g d)) by (now rewrite length_map). apply map_nth.
Qed.

Lemma nargsort_rows_sorted (l : list (list cell)) :
  StronglySorted (row_le key) (nargsort_rows argsort key l).
Proof.
  unfold nargsort_rows.
  set (non_nans := filter (fun r => is_time (key r)) l).
  set (nans := filter (fun r => negb (is_time (key r))) l).
  set (keys := map (fun r => key_time (key r)) non_nans).
  destruct (argsort_sorts keys) as [Hp Hs].
  assert (Hlen : List.length keys = List.length non_nans) by apply length_map.
  assert (Hin : forall r, In r (take [] non_nans (argsort keys)) ->
                          is_time (key r) = true).
  { intros r Hr.
    apply (Permutation_in r (take_permutation [] non_nans (argsort keys)
                               ltac:(now rewrite <- Hlen))) in Hr.
    now apply filter_In in Hr as [_ Hr]. }
  assert (Hnan : forall r, In r nans -> is_time (key r) = false).
  { intros r Hr. apply filter_In in Hr as [_ Hr]. now apply negb_true_iff in Hr. }
  apply StronglySorted_app.
  - apply StronglySorted_map_inv
      with (R' := Z.le) (g := fun r => key_time (key r)).
    + intros a b Ha Hb. apply row_le_times; now apply Hin.
    + assert (Hrange : Forall (fun j => (j < List.length non_nans)%nat) (argsort keys)).
      { apply Forall_forall. intros j Hj. apply (Permutation_in _ Hp) in Hj.
        apply in_seq in Hj. lia. }
      unfold keys in Hs. rewrite (take_map _ []) in Hs; [exact Hs | exact Hrange].
  - clear -Hnan. induction nans as [| r t IH]; constructor.
    + apply IH. intros x Hx. apply Hnan. now right.
    + apply Forall_forall. intros x Hx. apply row_le_missing, Hnan. now right.
  - intros a b _ Hb. now apply row_le_missing, Hnan.
Qed.

(** Rows in ascending order: those with a timestamp come first. *)
Lemma sorted_rows_split (l : list (list cell)) :
  StronglySorted (row_le key) l ->
  filter (fun r => is_time (key r)) l ++ filter (fun r => negb (is_time (key r))) l = l.
Proof.
  induction 1 as [| h t Ht IH Hh]; [reflexivity |].
  cbn [filter]. destruct (is_time (key h)) eqn:Eh; cbn [negb app].
  - now rewrite IH.
  - assert (Hall : Forall (fun r => is_time (key r) = false) t).
    { apply Forall_impl with (2 := Hh). intros r Hr. unfold row_le in Hr.
      destruct (key h), (key r); try discriminate; reflexivity. }
    assert (Hv : filter (fun r => is_time (key r)) t = []).
    { clear -Hall. induction Hall as [| r t Hr _ IHt]; [reflexivity |].
      cbn [filter]. now rewrite Hr. }
    assert (Hi : filter (fun r => negb (is_time (key r))) t = t).
    { clear -Hall. induction Hall as [| r t Hr _ IHt]; [reflexivity |].
      cbn [filter]. rewrite Hr. cbn [negb]. now f_equal. }
    now rewrite Hv, Hi.
Qed.

Lemma timestamps_keys (l : list (list cell)) :
  map (fun r => key_time (key r)) (filter (fun r => is_time (key r)) l) =
  timestamps (map key l).
Proof.
  induction l as [| r t IH]; [reflexivity |].
  cbn [filter map timestamps].
  destruct (key r) eqn:Er; cbn [is_time map]; rewrite ?Er; cbn [key_time];
    now rewrite ?IH.
Qed.

Lemma sorted_rows_keys (l : list (list cell)) :
  StronglySorted (row_le key) l ->
  StronglySorted Z.le (timestamps (map key l)).
Proof.
  induction 1 as [| h t Ht IH Hh]; [constructor |].
  cbn [map timestamps]. destruct (key h) as [f | s | x |] eqn:Eh; try exact IH.
  constructor; [exact IH |].
  apply Forall_forall. intros y Hy. rewrite <- timestamps_keys in Hy.
  apply in_map_iff in Hy as (r & <- & Hr). apply filter_In in Hr as [Hr Hrt].
  rewrite Forall_forall in Hh. specialize (Hh r Hr). unfold row_le in Hh.
  rewrite Eh in Hh. destruct (key r); try discriminate. cbn in *. now apply Z.leb_le.
Qed.

(** Rows in ascending order whose timestamps are all different are left as
    they are, whatever the algorithm. *)
Lemma nargsort_rows_fixed (l : list (list cell)) :
  StronglySorted (row_le key) l ->
  NoDup (timestamps (map key l)) ->
  nargsort_rows argsort key l = l.
Proof.
  intros Hs Hn. unfold nargsort_rows.
  rewrite argsort_fixed; [| exact argsort_sorts |].
  - rewrite length_map, take_seq. now apply sorted_rows_split.
  - rewrite timestamps_keys. apply (sorted_strict (fun k => k)).
    + now apply sorted_rows_keys.
    + now rewrite map_id.
Qed.
End SortKindFacts.

(** ** A stable algorithm *)

Section StableArgsort.
Variable keys : list Z.

Lemma insert_position_permutation (j : nat) (sorted : list nat) :
  Permutation (insert_position keys j sorted) (j :: sorted).
Proof.
  induction sorted as [| h t IH]; cbn [insert_position]; [constructor; constructor |].
  destruct (nth j keys 0 <=? nth h keys 0)%Z; [apply Permutation_refl |].
  apply Permutation_trans with (h :: j :: t); [now constructor | constructor].
Qed.

Lemma insert_position_sorted (j : nat) (sorted : list nat) :
  StronglySorted (fun a b => (nth a keys 0 <= nth b keys 0)%Z) sorted ->
  StronglySorted (fun a b => (nth a keys 0 <= nth b keys 0)%Z)
                 (insert_position keys j sorted).
Proof.
  induction 1 as [| h t Ht IH Hh]; cbn [insert_position].
  - repeat constructor.
  - destruct (Z.leb_spec (nth j keys 0%Z) (nth h keys 0%Z)) as [Hjh | Hjh].
    + constructor; [now constructor |].
      constructor; [exact Hjh |].
      apply Forall_impl with (2 := Hh). intros x Hx. lia.
    + constructor; [exact IH |].
      apply Forall_forall. intros x Hx.
      apply (Permutation_in _ (insert_position_permutation j t)) in Hx.
      destruct Hx as [<- | Hx]; [lia |].
      rewrite Forall_forall in Hh. now apply Hh.
Qed.
End StableArgsort.

Lemma stable_argsort_contract : argsort_contract stable_argsort.
Proof.
  intros keys. unfold stable_argsort.
  generalize (List.seq 0 (List.length keys)) as positions.
  intros positions. split.
  - induction positions as [| j t IH]; [constructor |].
    cbn [fold_right].
    apply Permutation_trans with (1 := insert_position_permutation keys j _).
    now constructor.
  - unfold take.
    apply StronglySorted_map
      with (R := fun a b => (nth a keys 0 <= nth b keys 0)%Z); [auto |].
    induction positions as [| j t IH]; [constructor |].
    cbn [fold_right]. now apply insert_position_sorted.
Qed.

(** ** The cleaner under any algorithm *)

Section CleanerKindFacts.
Variable argsort : list Z -> list nat.
Hypothesis argsort_sorts : argsort_contract argsort.
Variable E : Env.

(** The shape of a successful run. *)
Lemma prep_kind_inv (raw df : DataFrame) :
  _prep_dataframe_kind argsort E raw = Ok df ->
  exists cols i rs,
    List.length cols = List.length (columns raw) /\
    col_index DATE_COL cols = Some i /\
    Forall2 (fun r r' => exists d, to_datetime_cell E (cell_at i r) = Ok d /\
                                   r' = set_at i d r) (rows raw) rs /\
    df = mkDF (DATE_COL :: PRODUCT_COLS)
           (map (fillna_row (DATE_COL :: PRODUCT_COLS))
              (filter (fun r => negb (all_products_missing (DATE_COL :: PRODUCT_COLS) r))
                 (map (fun r => map (fun c => get cols c r) (DATE_COL :: PRODUCT_COLS))
                    (nargsort_rows argsort (cell_at i) rs)))).
Proof.
  unfold _prep_dataframe_kind. intros H.
  apply bind_Ok_inv in H as (cols & Hcols & H).
  apply bind_Ok_inv in H as (df1 & Hparse & H).
  apply bind_Ok_inv in H as (df2 & Hsort & H).
  unfold parse_dates in Hparse. simpl in Hparse.
  destruct (col_index DATE_COL cols) as [i |] eqn:Hi; [| discriminate].
  apply bind_Ok_inv in Hparse as (rs & Hrs & Hdf1). injection Hdf1 as <-.
  unfold sort_values_kind in Hsort. simpl in Hsort. rewrite Hi in Hsort.
  injection Hsort as <-. cbn [columns rows] in H.
  destruct (filter (fun c => negb (mem c cols)) PRODUCT_COLS); [| discriminate].
  injection H as <-.
  exists cols, i, rs. split; [| split; [assumption | split; [| reflexivity]]].
  - destruct (mem DATE_COL (columns raw)).
    + now injection Hcols as <-.
    + destruct (filter _ (columns raw)); [discriminate |].
      injection Hcols as <-. unfold rename. now rewrite length_map.
  - apply mapM_Ok_inv in Hrs. eapply Forall2_impl; [| exact Hrs].
    intros r r' Hr. apply bind_Ok_inv in Hr as (d & Hd & Hr).
    injection Hr as <-. eauto.
Qed.

(** Whatever the algorithm, the rows of a cleaned frame are in ascending
    order of their first cell. *)
Lemma prep_kind_rows_sorted (raw df : DataFrame) :
  _prep_dataframe_kind argsort E raw = Ok df ->
  columns df = DATE_COL :: PRODUCT_COLS /\
  StronglySorted (row_le (cell_at 0)) (rows df).
Proof.
  intros H. apply prep_kind_inv in H as (cols & i & rs & _ & Hi & _ & ->).
  split; [reflexivity |]. cbn [rows].
  apply StronglySorted_map with (R := row_le (cell_at 0)).
  { intros a b. unfold row_le. now rewrite !fillna_row_key. }
  apply StronglySorted_filter.
  apply StronglySorted_map with (R := row_le (cell_at i));
    [| now apply nargsort_rows_sorted].
  intros a b. unfold row_le.
  change (cell_at 0 (map (fun c => get cols c a) (DATE_COL :: PRODUCT_COLS)))
    with (get cols DATE_COL a).
  change (cell_at 0 (map (fun c => get cols c b) (DATE_COL :: PRODUCT_COLS)))
    with (get cols DATE_COL b).
  unfold get. now rewrite Hi.
Qed.

Lemma prep_kind_rows_clean (raw df : DataFrame) :
  parser_contract E -> wf_frame raw ->
  _prep_dataframe_kind argsort E raw = Ok df ->
  Forall clean_row (rows df).
Proof.
  intros [Hparse _] Hwf H.
  apply prep_kind_inv in H as (cols & i & rs & Hlen & Hi & Hrs & ->). cbn [rows].
  apply Forall_forall. intros r' Hr'.
  apply in_map_iff in Hr' as (r1 & <- & Hr1).
  apply filter_In in Hr1 as [Hr1 _].
  apply in_map_iff in Hr1 as (r & <- & Hr).
  apply filled_row_clean. unfold get. rewrite Hi.
  apply nargsort_rows_In in Hr; [| exact argsort_sorts].
  assert (Hall : Forall (fun r => is_datetime (cell_at i r) = true) rs).
  { clear Hr. unfold wf_frame in Hwf.
    induction Hrs as [| a b ta tb (d & Hd & ->) _ IH]; constructor.
    - inversion Hwf as [| ? ? Ha _]; subst.
      rewrite cell_at_set_at; [now apply Hparse in Hd |].
      rewrite Ha, <- Hlen. now apply col_index_lt with (c := DATE_COL).
    - apply IH. now inversion Hwf. }
  rewrite Forall_forall in Hall. now apply Hall.
Qed.

(** A frame of clean rows in ascending order, no two with the same
    timestamp, is a fixed point of the cleaner. *)
Lemma prep_kind_clean_frame (rs : list (list cell)) :
  (forall c, is_datetime c = true -> to_datetime_cell E c = Ok c) ->
  Forall clean_row rs ->
  StronglySorted (row_le (cell_at 0)) rs ->
  NoDup (timestamps (map (cell_at 0) rs)) ->
  _prep_dataframe_kind argsort E (mkDF (DATE_COL :: PRODUCT_COLS) rs) =
  Ok (mkDF (DATE_COL :: PRODUCT_COLS) rs).
Proof.
  intros Hparser Hclean Hsorted Hdistinct.
  unfold _prep_dataframe_kind. cbn [columns rows].
  change (mem DATE_COL (DATE_COL :: PRODUCT_COLS)) with true. cbn [bind].
  rewrite parse_clean_rows by assumption. cbn [bind].
  unfold sort_values_kind. cbn [columns rows].
  change (col_index DATE_COL (DATE_COL :: PRODUCT_COLS)) with (Some 0%nat).
  cbv beta iota.
  rewrite nargsort_rows_fixed by assumption. cbn [bind columns].
  change (filter (fun c => negb (mem c (DATE_COL :: PRODUCT_COLS))) PRODUCT_COLS)
    with (@nil string).
  unfold select. cbn [columns rows].
  rewrite (map_fixed clean_row _ rs select_clean_row Hclean).
  rewrite (filter_all clean_row) by
    (assumption || (intros a Ha; now rewrite keep_clean_row)).
  rewrite (map_fixed clean_row _ rs fillna_clean_row Hclean).
  reflexivity.
Qed.
End CleanerKindFacts.

(** C7 (amended). The cleaner is idempotent on the series without equal
    timestamps: whatever algorithm [sort_values] runs, as long as it returns
    a permutation that sorts the keys, when the cleaner accepts a raw
    (rectangular) frame and no two rows of the cleaned frame carry the same
    timestamp, cleaning that frame again returns it unchanged. Rows without
    a timestamp may be many: they keep their order. *)
Theorem prep_idempotent (argsort : list Z -> list nat) (E : Env) (raw df : DataFrame) :
  argsort_contract argsort ->
  parser_contract E -> wf_frame raw ->
  _prep_dataframe_kind argsort E raw = Ok df ->
  NoDup (timestamps (map (cell_at 0) (rows df))) ->
  _prep_dataframe_kind argsort E df = Ok df.
Proof.
  intros Hsort Hparser Hwf H Hdistinct.
  pose proof (prep_kind_rows_clean argsort Hsort E raw df Hparser Hwf H) as Hclean.
  destruct (prep_kind_rows_sorted argsort Hsort E raw df H) as [Hcols Hsorted].
  destruct df as [cols rs]. cbn [columns rows] in *. subst cols.
  apply prep_kind_clean_frame; [exact Hsort | apply Hparser | assumption ..].
Qed.

Lemma demo_parser_contract : parser_contract demo_env.
Proof.
  split.
  - intros c d. destruct c as [[| q] | s | t |]; cbn [demo_env to_datetime_cell];
      unfold demo_to_datetime; intros H;
      repeat match type of H with
             | (if ?b then _ else _) = _ => destruct b
             end;
      try discriminate; injection H as <-; reflexivity.
  - intros c Hc. destruct c as [f | s | t |]; try discriminate; reflexivity.
Qed.

Lemma prep_idempotent_witness :
  exists df,
    argsort_contract stable_argsort /\
    parser_contract demo_env /\ wf_frame messy_frame /\
    _prep_dataframe_kind stable_argsort demo_env messy_frame = Ok df /\
    List.length (rows df) = 3%nat /\
    NoDup (timestamps (map (cell_at 0) (rows df))) /\
    _prep_dataframe_kind stable_argsort demo_env df = Ok df.
Proof.
  assert (Hd : NoDup [0%Z; DAY]).
  { constructor; [intros [H | []]; discriminate H |].
    constructor; [intros [] | constructor]. }
  eexists. split; [exact stable_argsort_contract |].
  split; [exact demo_parser_contract |].
  split; [repeat constructor |].
  split; [vm_compute; reflexivity |].
  split; [reflexivity |].
  split; [exact Hd |].
  apply (prep_idempotent stable_argsort demo_env messy_frame).
  - exact stable_argsort_contract.
  - exact demo_parser_contract.
  - repeat constructor.
  - reflexivity.
  - exact Hd.
Defined.

(** C7, as stated, fails: [sort_values] runs quicksort, which is not stable,
    so rows with the same timestamp need not leave a second pass in the order
    in which the first pass left them. Twenty rows with the same timestamp,
    told apart by their values, under the quicksort of numpy: the first pass
    exchanges the rows at the positions 1 to 17 end for end, and the second
    pass does so again on its own input, so it does not return the frame it
    was given. (Both passes return a permutation that sorts the keys, which
    are all equal. Builds of numpy with vector instructions run other
    algorithms for quicksort, none of them stable.) *)
Lemma prep_reorders_ties :
  exists df1 df2,
    aquicksort (repeat 0%Z 20) =
    [0; 17; 16; 15; 14; 13; 12; 11; 10; 9; 8; 7; 6; 5; 4; 3; 2; 1; 18; 19]%nat /\
    _prep_dataframe_kind aquicksort demo_env tied_frame = Ok df1 /\
    rows df1 = take [] (rows tied_frame) (aquicksort (repeat 0%Z 20)) /\
    map (cell_at 0) (rows df1) = repeat (CTime 0) 20 /\
    _prep_dataframe_kind aquicksort demo_env df1 = Ok df2 /\
    rows df2 = take [] (rows df1) (aquicksort (repeat 0%Z 20)) /\
    df2 <> df1.
Proof.
  eexists. eexists.
  split; [vm_compute; reflexivity |].
  split; [vm_compute; reflexivity |].
  split; [vm_compute; reflexivity |].
  split; [vm_compute; reflexivity |].
  split; [vm_compute; reflexivity |].
  split; [vm_compute; reflexivity |].
  intros H. apply (f_equal (fun df => nth 1 (rows df) [])) in H.
  vm_compute in H. discriminate H.
Qed.

(** ** The order a stable algorithm gives *)

Section StableOrder.
Variable key : list cell -> cell.

Lemma insert_row_permutation (r : list cell) (l : list (list cell)) :
  Permutation (insert_row key r l) (r :: l).
Proof.
  induction l as [| h t IH]; cbn [insert_row]; [constructor; constructor |].
  destruct (date_leb (key r) (key h)); [apply Permutation_refl |].
  apply Permutation_trans with (h :: r :: t); [now constructor | constructor].
Qed.

Lemma sort_rows_permutation (l : list (list cell)) :
  Permutation (sort_rows key l) l.
Proof.
  induction l as [| r t IH]; [constructor |].
  cbn [sort_rows].
  apply Permutation_trans with (1 := insert_row_permutation r _). now constructor.
Qed.
Lemma insert_row_among_times (r : list cell) (times missing : list (list cell)) :
  is_time (key r) = true ->
  Forall (fun x => is_time (key x) = false) missing ->
  insert_row key r (times ++ missing) = insert_row key r times ++ missing.
Proof.
  intros Hr Hm. induction times as [| h t IH]; cbn [app insert_row].
  - destruct Hm as [| x m Hx _]; [reflexivity |].
    cbn [insert_row]. destruct (key r), (key x); try discriminate; reflexivity.
  - destruct (date_leb (key r) (key h)); [reflexivity |]. now rewrite IH.
Qed.

Lemma insert_row_after_times (r : list cell) (times missing : list (list cell)) :
  is_time (key r) = false ->
  Forall (fun x => is_time (key x) = true) times ->
  Forall (fun x => is_time (key x) = false) missing ->
  insert_row key r (times ++ missing) = times ++ r :: missing.
Proof.
  intros Hr Ht Hm. induction Ht as [| h t Hh _ IH]; cbn [app insert_row].
  - destruct Hm as [| x m Hx _]; [reflexivity |].
    cbn [insert_row]. destruct (key r), (key x); try discriminate; reflexivity.
  - destruct (key r), (key h); try discriminate; cbn [date_leb]; now rewrite IH.
Qed.

(** The stable order: the rows with a timestamp in ascending order, then the
    other rows as they were. *)
Lemma sort_rows_split (l : list (list cell)) :
  sort_rows key l =
  sort_rows key (filter (fun r => is_time (key r)) l) ++
  filter (fun r => negb (is_time (key r))) l.
Proof.
  induction l as [| r t IH]; [reflexivity |].
  assert (Hm : Forall (fun x => is_time (key x) = false)
                      (filter (fun r => negb (is_time (key r))) t)).
  { apply Forall_forall. intros x Hx. apply filter_In in Hx as [_ Hx].
    now apply negb_true_iff in Hx. }
  cbn [sort_rows filter]. rewrite IH.
  destruct (is_time (key r)) eqn:Hr; cbn [negb sort_rows].
  - now apply insert_row_among_times.
  - apply insert_row_after_times; [exact Hr | | exact Hm].
    apply Forall_forall. intros x Hx. apply sort_rows_In in Hx.
    now apply filter_In in Hx as [_ Hx].
Qed.
End StableOrder.

(** When no two timestamps are equal, every algorithm gives the order that
    [sort_values] above gives. *)
Lemma nargsort_rows_distinct (argsort : list Z -> list nat) (key : list cell -> cell)
      (l : list (list cell)) :
  argsort_contract argsort ->
  NoDup (timestamps (map key l)) ->
  nargsort_rows argsort key l = sort_rows key l.
Proof.
  intros Hc Hn. rewrite sort_rows_split. unfold nargsort_rows. f_equal.
  set (non_nans := filter (fun r => is_time (key r)) l).
  set (keys := map (fun r => key_time (key r)) non_nans).
  destruct (Hc keys) as [Hp Hs].
  assert (Hlen : List.length keys = List.length non_nans) by apply length_map.
  assert (Hperm : Permutation (take [] non_nans (argsort keys)) non_nans)
    by (apply take_permutation; now rewrite <- Hlen).
  assert (Hvalid : forall r, In r non_nans -> is_time (key r) = true)
    by (intros r Hr; now apply filter_In in Hr as [_ Hr]).
  apply (sorted_unique (fun r => key_time (key r))).
  - apply Permutation_trans with (1 := Hperm).
    apply Permutation_sym, sort_rows_permutation.
  - assert (Hrange : Forall (fun j => (j < List.length non_nans)%nat) (argsort keys)).
    { apply Forall_forall. intros j Hj. apply (Permutation_in _ Hp) in Hj.
      apply in_seq in Hj. lia. }
    unfold keys in Hs. rewrite (take_map _ []) in Hs by exact Hrange.
    apply StronglySorted_map_inv
      with (R' := Z.le) (g := fun r => key_time (key r)); [auto | exact Hs].
  - apply sorted_strict.
    + apply StronglySorted_impl_in with (R := row_le key); [| apply sort_rows_sorted].
      intros a b Ha Hb. apply sort_rows_In, Hvalid in Ha, Hb.
      unfold row_le. destruct (key a), (key b); try discriminate.
      cbn. apply Z.leb_le.
    + apply (Permutation_NoDup (l := keys)).
      * apply Permutation_map, Permutation_sym, sort_rows_permutation.
      * unfold keys, non_nans. now rewrite timestamps_keys.
Qed.

Lemma sort_values_kind_distinct (argsort : list Z -> list nat) (c : string)
      (df : DataFrame) (dates : list cell) :
  argsort_contract argsort ->
  column df c = Ok dates ->
  NoDup (timestamps dates) ->
  sort_values_kind argsort c df = sort_values c df.
Proof.
  unfold column, sort_values_kind, sort_values. intros Hc Hdates Hn.
  destruct (col_index c (columns df)) as [i |]; [| reflexivity].
  injection Hdates as <-. now rewrite nargsort_rows_distinct.
Qed.

(** On an upload whose parsed timestamps are all different the cleaner
    returns the same frame under every algorithm: the frame that
    [_prep_dataframe] computes with the stable order. *)
Lemma prep_kind_distinct (argsort : list Z -> list nat) (E : Env) (raw : DataFrame) :
  argsort_contract argsort ->
  (forall cols parsed dates,
     resolved_header (columns raw) = Ok cols ->
     parse_dates E (mkDF cols (rows raw)) = Ok parsed ->
     column parsed DATE_COL = Ok dates ->
     NoDup (timestamps dates)) ->
  _prep_dataframe_kind argsort E raw = _prep_dataframe E raw.
Proof.
  intros Hc Hn. unfold _prep_dataframe_kind, _prep_dataframe.
  fold (resolved_header (columns raw)).
  destruct (resolved_header (columns raw)) as [cols | e] eqn:Hcols; [| reflexivity].
  cbn [bind].
  destruct (parse_dates E (mkDF cols (rows raw))) as [parsed | e] eqn:Hparsed;
    [| reflexivity].
  cbn [bind].
  assert (Hsort : sort_values_kind argsort DATE_COL parsed = sort_values DATE_COL parsed).
  { destruct (column parsed DATE_COL) as [dates | e] eqn:Hdates.
    - apply (sort_values_kind_distinct argsort DATE_COL parsed dates Hc Hdates).
      now apply (Hn cols parsed dates).
    - unfold column in Hdates. unfold sort_values_kind, sort_values.
      destruct (col_index DATE_COL (columns parsed)); [discriminate | reflexivity]. }
  now rewrite Hsort.
Qed.

(** ** The frequency detector *)

Lemma Qle_bool_false (x y : Q) : Qle_bool x y = false -> (y < x)%Q.
Proof.
  intros H. apply Qnot_le_lt. intros Hle.
  apply Qle_bool_iff in Hle. congruence.
Qed.

(** The manual rule, read as a table of thresholds in hours. *)
Lemma classify_gap_table (m : Q) :
  ((m <= 1.5)%Q -> classify_gap (Num m) = "H") /\
  ((1.5 < m)%Q -> (m <= 25)%Q -> classify_gap (Num m) = "D") /\
  ((25 < m)%Q -> (m <= 200)%Q -> classify_gap (Num m) = "W") /\
  ((200 < m)%Q -> classify_gap (Num m) = "M").
Proof.
  unfold classify_gap, fle.
  destruct (Qle_bool m 1.5) eqn:H1; destruct (Qle_bool m 25) eqn:H2;
    destruct (Qle_bool m 200) eqn:H3;
    try apply Qle_bool_iff in H1; try apply Qle_bool_false in H1;
    try apply Qle_bool_iff in H2; try apply Qle_bool_false in H2;
    try apply Qle_bool_iff in H3; try apply Qle_bool_false in H3;
    repeat split; intros; try reflexivity; exfalso; lra.
Qed.

Lemma sort_values_sorted (df : DataFrame) :
  columns df = DATE_COL :: PRODUCT_COLS ->
  StronglySorted (row_le (cell_at 0)) (rows df) ->
  sort_values DATE_COL df = Ok df.
Proof.
  intros Hcols Hsorted. unfold sort_values. rewrite Hcols.
  change (col_index DATE_COL (DATE_COL :: PRODUCT_COLS)) with (Some 0%nat).
  cbv beta iota. rewrite sort_rows_fixed by assumption.
  rewrite <- Hcols. now destruct df.
Qed.

(** When pandas names an hourly, daily, weekly or monthly frequency, the
    detector returns that class without looking at the gaps. *)
Lemma detect_frequency_inferred (E : Env) (raw df : DataFrame) (dates : list cell)
      (s f : string) :
  _prep_dataframe E raw = Ok df ->
  column df DATE_COL = Ok dates ->
  (3 <= List.length dates)%nat ->
  infer_freq_rule E dates = Some s ->
  classify_inferred s = Some f ->
  _detect_frequency E df = Ok f.
Proof.
  intros Hprep Hdates Hlen Hs Hf.
  destruct (prep_rows_sorted E raw df Hprep) as [Hcols Hsorted].
  unfold _detect_frequency. rewrite sort_values_sorted by assumption.
  cbn [bind]. rewrite Hdates. cbn [bind]. unfold pd_infer_freq.
  destruct (Nat.ltb_spec (List.length dates) 3) as [Hlt | _]; [lia |].
  cbn [bind]. now rewrite Hs, Hf.
Qed.

(** C1 (amended). For every cleaned series with at least three records on
    which pandas' own inference returns nothing, or a name whose lower-case
    form starts with none of the letters h, d, w and m, the detector returns
    the class of the median gap between successive timestamps: at most 1.5
    hours is hourly, at most 25 hours daily, at most 200 hours weekly,
    anything longer monthly. A median gap of exactly 1 hour, 24 hours, 7 days
    and 35 days gives hourly, daily, weekly and monthly. The result is a
    function of the timestamps alone. (An inferred name that starts with one
    of the four letters is answered from the name, whatever the gaps:
    [detect_frequency_inferred] above and [detect_frequency_minutes] below.) *)
Theorem detect_frequency_median_rule (E : Env) (raw df : DataFrame) (dates : list cell) :
  _prep_dataframe E raw = Ok df ->
  column df DATE_COL = Ok dates ->
  (3 <= List.length dates)%nat ->
  (forall s, infer_freq_rule E dates = Some s -> classify_inferred s = None) ->
  _detect_frequency E df = Ok (classify_gap (median_gap_hours dates)) /\
  forall m, median_gap_hours dates = Num m ->
    ((m <= 1.5)%Q -> _detect_frequency E df = Ok "H") /\
    ((1.5 < m)%Q -> (m <= 25)%Q -> _detect_frequency E df = Ok "D") /\
    ((25 < m)%Q -> (m <= 200)%Q -> _detect_frequency E df = Ok "W") /\
    ((200 < m)%Q -> _detect_frequency E df = Ok "M") /\
    ((m == 1)%Q -> _detect_frequency E df = Ok "H") /\
    ((m == 24)%Q -> _detect_frequency E df = Ok "D") /\
    ((m == 7 * 24)%Q -> _detect_frequency E df = Ok "W") /\
    ((m == 35 * 24)%Q -> _detect_frequency E df = Ok "M").
Proof.
  intros Hprep Hdates Hlen Hrule.
  destruct (prep_rows_sorted E raw df Hprep) as [Hcols Hsorted].
  assert (Hdet : _detect_frequency E df = Ok (classify_gap (median_gap_hours dates))).
  { unfold _detect_frequency. rewrite sort_values_sorted by assumption.
    cbn [bind]. rewrite Hdates. cbn [bind]. unfold pd_infer_freq.
    destruct (Nat.ltb_spec (List.length dates) 3) as [Hlt | _]; [lia |].
    cbn [bind]. destruct (infer_freq_rule E dates) as [s |] eqn:Hs; [| reflexivity].
    now rewrite (Hrule s eq_refl). }
  split; [exact Hdet |].
  intros m Hm. rewrite Hdet, Hm.
  destruct (classify_gap_table m) as (HH & HD & HW & HM).
  repeat split; intros; f_equal;
    first [ apply HH; lra | apply HD; lra | apply HW; lra | apply HM; lra ].
Qed.

Lemma detect_frequency_median_rule_witness :
  _prep_dataframe demo_env irregular_frame = Ok irregular_frame /\
  column irregular_frame DATE_COL = Ok irregular_dates /\
  (3 <= List.length irregular_dates)%nat /\
  (forall s, infer_freq_rule demo_env irregular_dates = Some s ->
             classify_inferred s = None) /\
  median_gap_hours irregular_dates = Num (604800000000000 # 3600000000000) /\
  _detect_frequency demo_env irregular_frame = Ok "W".
Proof.
  assert (H1 : _prep_dataframe demo_env irregular_frame = Ok irregular_frame)
    by (vm_compute; reflexivity).
  assert (H2 : column irregular_frame DATE_COL = Ok irregular_dates)
    by (vm_compute; reflexivity).
  assert (H3 : (3 <= List.length irregular_dates)%nat) by (vm_compute; lia).
  assert (H4 : forall s, infer_freq_rule demo_env irregular_dates = Some s ->
                         classify_inferred s = None)
    by (intros s Hs; vm_compute in Hs; discriminate).
  assert (H5 : median_gap_hours irregular_dates =
               Num (604800000000000 # 3600000000000))
    by (vm_compute; reflexivity).
  split; [exact H1 |]. split; [exact H2 |]. split; [exact H3 |]. split; [exact H4 |].
  split; [exact H5 |].
  destruct (detect_frequency_median_rule demo_env _ _ _ H1 H2 H3 H4) as [_ Htable].
  destruct (Htable (604800000000000 # 3600000000000)%Q H5)
    as (_ & _ & _ & _ & _ & _ & HW & _).
  apply HW. vm_compute. reflexivity.
Defined.

(** A regular series of one minute steps, which pandas names [min]: the name
    starts with m, so the detector answers monthly although the median gap is
    a sixtieth of an hour. *)
Lemma detect_frequency_minutes :
  infer_freq_rule minute_env (map (cell_at 0) (rows (sample_frame MINUTE 5))) =
  Some "min" /\
  classify_inferred "min" = Some "M" /\
  (exists m,
     median_gap_hours (map (cell_at 0) (rows (sample_frame MINUTE 5))) = Num m /\
     (m == 1 # 60)%Q) /\
  _prep_dataframe minute_env (sample_frame MINUTE 5) = Ok (sample_frame MINUTE 5) /\
  _detect_frequency minute_env (sample_frame MINUTE 5) = Ok "M".
Proof.
  split; [vm_compute; reflexivity |]. split; [reflexivity |].
  split; [eexists; split; [vm_compute; reflexivity | reflexivity] |].
  split; vm_compute; reflexivity.
Qed.

(** C1, as stated, fails on a cleaned series of exactly two records: their
    median gap is exactly one hour, yet the detector raises, because pandas'
    inference is called first and refuses fewer than three timestamps. *)
Lemma detect_frequency_two_records_raises :
  exists df dates m,
    _prep_dataframe demo_env (sample_frame HOUR 2) = Ok df /\
    column df DATE_COL = Ok dates /\
    List.length dates = 2%nat /\
    median_gap_hours dates = Num m /\ (m == 1)%Q /\
    _detect_frequency demo_env df =
    Raise (ValueError "Need at least 3 dates to infer frequency").
Proof.
  eexists. eexists. eexists. split; [vm_compute; reflexivity |].
  split; [vm_compute; reflexivity |].
  split; [reflexivity |].
  split; [vm_compute; reflexivity |].
  split; [reflexivity |].
  vm_compute; reflexivity.
Qed.

(** C8. On a cleaned series with fewer than two records the detector fails:
    it raises the error of pandas' inference, which needs three timestamps,
    and returns no classification. *)
Theorem detect_frequency_too_few (E : Env) (raw df : DataFrame) :
  _prep_dataframe E raw = Ok df ->
  (List.length (rows df) < 2)%nat ->
  _detect_frequency E df =
  Raise (ValueError "Need at least 3 dates to infer frequency").
Proof.
  intros Hprep Hlen.
  destruct (prep_rows_sorted E raw df Hprep) as [Hcols Hsorted].
  unfold _detect_frequency. rewrite sort_values_sorted by assumption.
  cbn [bind]. unfold column. rewrite Hcols.
  change (col_index DATE_COL (DATE_COL :: PRODUCT_COLS)) with (Some 0%nat).
  cbv beta iota. cbn [bind]. unfold pd_infer_freq. rewrite length_map.
  destruct (Nat.ltb_spec (List.length (rows df)) 3) as [_ | Hge]; [reflexivity | lia].
Qed.

Lemma detect_frequency_too_few_witness :
  exists df,
    _prep_dataframe demo_env (sample_frame DAY 1) = Ok df /\
    (List.length (rows df) < 2)%nat /\
    _detect_frequency demo_env df =
    Raise (ValueError "Need at least 3 dates to infer frequency").
Proof.
  eexists. split; [vm_compute; reflexivity |].
  split; [vm_compute; lia |].
  apply (detect_frequency_too_few demo_env (sample_frame DAY 1)).
  - vm_compute; reflexivity.
  - vm_compute; lia.
Defined.

(** ** The recursive forecaster *)

Section ForecasterFacts.
Variable E : Env.
Variable n : nat.
Hypothesis seq_len_pos : (1 <= SEQ_LEN E)%nat.
Hypothesis predictor_ok : predictor_contract E n.
Hypothesis inverse_ok : inverse_contract E n.

Lemma reshape_window_ok (seq : list (list pyfloat)) :
  List.length seq = SEQ_LEN E -> has_width n seq ->
  exists window, reshape_window E n seq = Ok window /\
                 List.length window = SEQ_LEN E /\ has_width n window.
Proof.
  intros Hlen Hw. unfold reshape_window.
  destruct (Nat.eqb_spec n 0) as [-> | Hn].
  - assert (Hc : List.concat seq = []).
    { clear Hlen. induction Hw as [| r t Hr _ IH]; simpl; [reflexivity |].
      apply length_zero_iff_nil in Hr. now rewrite Hr, IH. }
    rewrite Hc. simpl. eexists. split; [reflexivity |].
    split; [apply repeat_length |].
    unfold has_width. apply Forall_forall. intros r Hr.
    apply repeat_spec in Hr. now subst.
  - rewrite Hlen, Nat.eqb_refl. eauto.
Qed.

(** The loop keeps a window of [SEQ_LEN] rows and adds one row per step. *)
Lemma forecast_steps_ok (steps : nat) :
  forall seq preds_scaled,
    List.length seq = SEQ_LEN E -> has_width n seq -> has_width n preds_scaled ->
    exists preds, forecast_steps E steps n seq preds_scaled = Ok preds /\
                  List.length preds = (List.length preds_scaled + steps)%nat /\
                  has_width n preds.
Proof.
  induction steps as [| k IH]; intros seq acc Hlen Hw Hacc; simpl.
  - exists acc. repeat split; [lia | assumption].
  - destruct (reshape_window_ok seq Hlen Hw) as (window & -> & Hwl & Hww).
    cbn [bind].
    destruct (predictor_ok window Hwl Hww) as (yhat & -> & Hy).
    cbn [bind]. unfold np_vstack. rewrite Hy, Nat.eqb_refl. cbn [bind].
    destruct (IH (tl seq ++ [yhat]) (acc ++ [yhat])) as (preds & Hp & Hpl & Hpw).
    + rewrite length_app. simpl. destruct seq; simpl in *; lia.
    + apply Forall_app. split; [| now repeat constructor].
      destruct seq; [constructor | now inversion Hw].
    + apply Forall_app. split; [assumption | now repeat constructor].
    + exists preds. split; [exact Hp |]. split; [| exact Hpw].
      rewrite Hpl, length_app. simpl. lia.
Qed.
(** The whole forecaster on a window of width [n]. *)
Lemma multi_step_forecast_ok (window : list (list pyfloat)) (horizon : Z) :
  n_features window = n ->
  List.length window = SEQ_LEN E ->
  has_width n window ->
  (1 <= horizon)%Z ->
  exists preds,
    _multi_step_forecast E window horizon = Ok preds /\
    Z.of_nat (List.length preds) = horizon /\
    has_width n preds.
Proof.
  intros Hn Hlen Hw Hh. unfold _multi_step_forecast. rewrite Hn.
  destruct (forecast_steps_ok (Z.to_nat horizon) window [] Hlen Hw (Forall_nil _))
    as (scaled & -> & Hsl & Hsw).
  cbn [bind]. simpl in Hsl.
  destruct scaled as [| r t] eqn:Hs; [simpl in Hsl; lia |]. rewrite <- Hs in *.
  destruct (inverse_ok scaled) as (preds & Hp & Hpl & Hpw);
    [now rewrite Hs | assumption |].
  exists preds. split; [exact Hp |]. split; [| exact Hpw].
  rewrite Hpl, Hsl. lia.
Qed.
End ForecasterFacts.

(** C4. For every horizon of at least one step and every window of exactly
    [SEQ_LEN] rows of one width, the recursive forecaster returns exactly
    [horizon] rows, each as wide as the window, as long as the predictor maps
    a window to one row of that width and the scaler keeps shapes. *)
Theorem multi_step_forecast_shape (E : Env) (window : list (list pyfloat)) (horizon : Z) :
  (1 <= SEQ_LEN E)%nat ->
  predictor_contract E (n_features window) ->
  inverse_contract E (n_features window) ->
  List.length window = SEQ_LEN E ->
  has_width (n_features window) window ->
  (1 <= horizon)%Z ->
  exists preds,
    _multi_step_forecast E window horizon = Ok preds /\
    Z.of_nat (List.length preds) = horizon /\
    has_width (n_features window) preds.
Proof.
  intros Hpos Hpred Hinv Hlen Hw Hh.
  now apply (multi_step_forecast_ok E (n_features window) Hpos Hpred Hinv).
Qed.

Lemma demo_predictor_contract : predictor_contract demo_env 8.
Proof.
  intros window Hlen Hw. exists (last window []). split; [reflexivity |].
  destruct window as [| r t]; [discriminate Hlen |].
  unfold has_width in Hw. rewrite Forall_forall in Hw. apply Hw.
  destruct (exists_last (l := r :: t)) as (l' & a & ->); [discriminate |].
  rewrite last_last. apply in_or_app. right. now left.
Qed.

Lemma demo_inverse_contract : inverse_contract demo_env 8.
Proof.
  intros a _ Hw. exists a. repeat split; assumption.
Qed.

Lemma multi_step_forecast_shape_witness :
  exists preds,
    _multi_step_forecast demo_env sample_window 3 = Ok preds /\
    Z.of_nat (List.length preds) = 3%Z /\
    has_width (n_features sample_window) preds.
Proof.
  apply (multi_step_forecast_shape demo_env sample_window 3).
  - vm_compute. lia.
  - exact demo_predictor_contract.
  - exact demo_inverse_contract.
  - reflexivity.
  - unfold sample_window, has_width. apply Forall_map, Forall_forall.
    intros k _. apply repeat_length.
  - lia.
Defined.

(** ** Output clipping *)

Lemma fold_py_max2_num (t : list Q) :
  forall h, exists m,
    fold_left py_max2 (map Num t) (Num h) = Num m /\
    In m (h :: t) /\ forall x, In x (h :: t) -> (x <= m)%Q.
Proof.
  induction t as [| a t IH]; intros h; simpl.
  - exists h. repeat split; [now left |].
    intros x [<- | []]. apply Qle_refl.
  - unfold py_max2 at 2, fgt, flt, Qlt_bool.
    destruct (Qle_bool a h) eqn:Hah; simpl.
    + apply Qle_bool_iff in Hah.
      destruct (IH h) as (m & -> & Hin & Hle). exists m. split; [reflexivity |].
      split; [destruct Hin; auto |].
      intros x [<- | [<- | Hx]]; [apply Hle; now left | | apply Hle; now right].
      eapply Qle_trans; [exact Hah | apply Hle; now left].
    + apply Qle_bool_false in Hah.
      destruct (IH a) as (m & -> & Hin & Hle). exists m. split; [reflexivity |].
      split; [now right |].
      intros x [<- | Hx]; [| now apply Hle].
      apply Qlt_le_weak. eapply Qlt_le_trans; [exact Hah | apply Hle; now left].
Qed.

(** The effective historical maximum: the maximum when it is positive,
    otherwise 1. *)
Lemma hist_max_of_num (hist : list Q) :
  exists hmax,
    hist_max_of (map Num hist) = Num hmax /\ (0 < hmax)%Q /\
    (forall x, In x hist -> (x <= hmax)%Q) /\
    (In hmax hist \/ (hmax = 1%Q /\ forall x, In x hist -> (x <= 0)%Q)).
Proof.
  destruct hist as [| h t]; simpl.
  - exists 1%Q. repeat split; try lra; [intros x [] |]. right. split; [reflexivity |].
    intros x [].
  - destruct (fold_py_max2_num t h) as (m & -> & Hin & Hle).
    unfold fgt, flt, Qlt_bool. destruct (Qle_bool m 0) eqn:Hm; simpl.
    + apply Qle_bool_iff in Hm. exists 1%Q. split; [reflexivity |].
      split; [lra |]. split.
      * intros x Hx. specialize (Hle x Hx). lra.
      * right. split; [reflexivity |]. intros x Hx. specialize (Hle x Hx). lra.
    + apply Qle_bool_false in Hm. exists m. repeat split; try assumption. now left.
Qed.

Lemma fold_fadd_num (l : list Q) :
  forall a, exists s, fold_left fadd (map Num l) (Num a) = Num s.
Proof.
  induction l as [| x t IH]; intros a; simpl; [now exists a | apply IH].
Qed.

Lemma np_mean_num (l : list Q) :
  l <> [] -> exists mu, np_mean (map Num l) = Num mu.
Proof.
  intros Hl. destruct l as [| x t]; [congruence |].
  unfold np_mean, fsum. cbn [map].
  destruct (fold_fadd_num (x :: t) 0) as (s & Hs). cbn [map] in Hs. rewrite Hs.
  unfold of_nat, fdiv.
  replace (Qeq_bool (inject_Z (Z.of_nat (List.length (Num x :: map Num t)))) 0)
    with false; [eauto |].
  symmetry. apply not_true_iff_false. intros H. apply Qeq_bool_iff in H.
  unfold Qeq in H. simpl in H. lia.
Qed.

Lemma Qsqrt_nonneg (q : Q) : (0 <= Qsqrt q)%Q.
Proof.
  unfold Qsqrt, Qle. simpl. rewrite Z.mul_1_r. apply Z.sqrt_nonneg.
Qed.

Lemma hist_std_of_num (hist : list Q) :
  exists hstd, hist_std_of (map Num hist) = Num hstd /\ (0 <= hstd)%Q.
Proof.
  destruct hist as [| h t].
  - exists 1%Q. split; [reflexivity | lra].
  - unfold hist_std_of. cbn [map]. unfold np_std.
    destruct (np_mean_num (h :: t)) as (mu & Hmu); [discriminate |].
    cbn [map] in Hmu. rewrite Hmu.
    change (Num h :: map Num t) with (map Num (h :: t)). rewrite map_map.
    change (fun x => fmul (fsub (Num x) (Num mu)) (fsub (Num x) (Num mu)))
      with (fun x => Num ((x - mu) * (x - mu))%Q).
    rewrite <- (map_map (fun x => ((x - mu) * (x - mu))%Q) Num).
    destruct (np_mean_num (map (fun x => ((x - mu) * (x - mu))%Q) (h :: t)))
      as (v & ->); [discriminate |].
    exists (Qsqrt v). split; [reflexivity | apply Qsqrt_nonneg].
Qed.

Lemma clip_value_bounds (c v : Q) :
  (0 <= c)%Q ->
  exists out, clip_value (Num c) (Num v) = Num out /\ (0 <= out)%Q /\ (out <= c)%Q.
Proof.
  intros Hc. unfold clip_value, py_max2, py_min2, fgt, flt, Qlt_bool.
  destruct (Qle_bool 0 v) eqn:Hv; simpl;
    [apply Qle_bool_iff in Hv | apply Qle_bool_false in Hv].
  - destruct (Qle_bool v c) eqn:Hvc; simpl;
      [apply Qle_bool_iff in Hvc | apply Qle_bool_false in Hvc].
    + exists v. repeat split; assumption.
    + exists c. repeat split; [assumption | apply Qle_refl].
  - destruct (Qle_bool 0 c) eqn:H0c; simpl.
    + exists 0%Q. repeat split; [apply Qle_refl | assumption].
    + apply Qle_bool_false in H0c. lra.
Qed.

Lemma scale_value_bounds (hmax v : Q) :
  (0 < hmax)%Q ->
  exists out, scale_value (Num hmax) (Num v) = Num out /\
              (0 <= out)%Q /\ (out <= 2 * hmax)%Q.
Proof.
  intros Hh. unfold scale_value, fgt, flt, fmul, Qlt_bool.
  destruct (Qle_bool 0 v) eqn:Hv; simpl;
    [apply Qle_bool_iff in Hv | apply Qle_bool_false in Hv].
  - destruct (Qle_bool v (hmax * 2)) eqn:Hvh; simpl;
      [apply Qle_bool_iff in Hvh | apply Qle_bool_false in Hvh].
    + exists v. repeat split; [assumption | lra].
    + exists (hmax * 1.5)%Q. repeat split; lra.
  - exists 0%Q. repeat split; lra.
Qed.

(** Every comparison with NaN is false, so a raw NaN passes both bounders. *)
Lemma clip_value_NaN (c : pyfloat) : clip_value c NaN = NaN.
Proof. unfold clip_value, py_max2, py_min2, fgt, flt. now destruct c. Qed.

Lemma scale_value_NaN (h : pyfloat) : scale_value h NaN = NaN.
Proof. unfold scale_value, fgt, flt, fmul. now destruct h. Qed.



(** ** The validator *)

Lemma fold_left_append {A : Type} (h : A -> list string) (l : list A) :
  forall acc, fold_left (fun errors x => errors ++ h x) l acc = acc ++ flat_map h l.
Proof.
  induction l as [| x t IH]; intros acc; simpl.
  - now rewrite app_nil_r.
  - now rewrite IH, app_assoc.
Qed.

Lemma fold_left_ext_eq {A B : Type} (f g : B -> A -> B) (l : list A) :
  (forall b a, f b a = g b a) -> forall b, fold_left f l b = fold_left g l b.
Proof.
  intros H. induction l as [| a t IH]; intros b; simpl; [reflexivity |].
  now rewrite H, IH.
Qed.

(** The loop over the numeric fields: it appends one error per field that
    float() rejects, unless float() fails outright on one of them. *)
Lemma check_numeric_appends (i : nat) (fields : list (string * field_value))
      (numeric : list string) :
  forall errors,
    existsb (fun field => match dict_get field fields with
                          | Some v => match to_float v with
                                      | Failed _ => true
                                      | _ => false
                                      end
                          | None => false
                          end) numeric = false ->
    check_numeric i fields numeric errors =
    Ok (errors ++ flat_map (fun field => match dict_get field fields with
                                         | Some v => match to_float v with
                                                     | Rejected => [msg_numeric i field v]
                                                     | _ => []
                                                     end
                                         | None => []
                                         end) numeric).
Proof.
  induction numeric as [| field rest IH]; intros errors H; cbn [check_numeric flat_map].
  - now rewrite app_nil_r.
  - cbn [existsb] in H. apply orb_false_iff in H as [Hf Hrest].
    destruct (dict_get field fields) as [v |]; [| now apply IH].
    destruct (to_float v) as [value | | msg]; [now apply IH | | discriminate].
    rewrite IH by exact Hrest. now rewrite <- app_assoc.
Qed.

Lemma check_numeric_raises (i : nat) (fields : list (string * field_value))
      (numeric : list string) :
  forall errors,
    existsb (fun field => match dict_get field fields with
                          | Some v => match to_float v with
                                      | Failed _ => true
                                      | _ => false
                                      end
                          | None => false
                          end) numeric = true ->
    exists msg, check_numeric i fields numeric errors = Raise (OverflowError msg).
Proof.
  induction numeric as [| field rest IH]; intros errors H; [discriminate |].
  cbn [existsb] in H. cbn [check_numeric].
  destruct (dict_get field fields) as [v |]; [| now apply IH].
  destruct (to_float v) as [value | | msg]; [now apply IH | now apply IH |].
  now exists msg.
Qed.

(** One pass of the loop body appends the errors of the record. *)
Lemma check_record_appends (errors : list string) (i : nat) (r : record) :
  float_fails r = false ->
  check_record errors i r = Ok (errors ++ record_errors i r).
Proof.
  destruct r as [fields |]; [| reflexivity].
  unfold float_fails. intros Hf.
  unfold check_record, record_errors, missing_errors, date_errors, numeric_errors.
  rewrite check_numeric_appends by exact Hf.
  rewrite (fold_left_ext_eq _
    (fun errors col => errors ++ match dict_get col fields with
                                 | None => [msg_missing i col]
                                 | Some _ => []
                                 end) required_columns)
    by (intros b a; destruct (dict_get a fields); now rewrite ?app_nil_r).
  rewrite fold_left_append.
  destruct (dict_get "date" fields) as [v |]; [destruct (date_ok v) |];
    now rewrite ?app_nil_r, <- ?app_assoc.
Qed.

Lemma check_record_raises (errors : list string) (i : nat) (r : record) :
  float_fails r = true ->
  exists msg, check_record errors i r = Raise (OverflowError msg).
Proof.
  destruct r as [fields |]; [| discriminate].
  unfold float_fails, check_record. apply check_numeric_raises.
Qed.

Lemma check_records_appends (sample : list record) :
  forall i errors,
    existsb float_fails sample = false ->
    check_records i sample errors =
    Ok (errors ++ flat_map (fun '(j, r) => record_errors j r)
                           (combine (List.seq i (List.length sample)) sample)).
Proof.
  induction sample as [| r t IH]; intros i errors H; simpl.
  - now rewrite app_nil_r.
  - cbn [existsb] in H. apply orb_false_iff in H as [Hr Ht].
    rewrite check_record_appends by exact Hr. cbn [bind].
    now rewrite IH, <- app_assoc.
Qed.

Lemma check_records_raises (sample : list record) :
  forall i errors,
    existsb float_fails sample = true ->
    exists msg, check_records i sample errors = Raise (OverflowError msg).
Proof.
  induction sample as [| r t IH]; intros i errors H; [discriminate |].
  cbn [existsb] in H. cbn [check_records].
  destruct (float_fails r) eqn:Hr.
  - destruct (check_record_raises errors i r Hr) as [msg ->]. now exists msg.
  - rewrite check_record_appends by exact Hr. cbn [bind]. now apply IH.
Qed.

Lemma in_combine_seq {A : Type} (l : list A) :
  forall s i a, nth_error l i = Some a ->
                In ((s + i)%nat, a) (combine (List.seq s (List.length l)) l).
Proof.
  induction l as [| x t IH]; intros s i a H; [destruct i; discriminate |].
  destruct i as [| i]; simpl in *.
  - injection H as <-. left. now rewrite Nat.add_0_r.
  - right. replace (s + S i)%nat with (S s + i)%nat by lia. now apply IH.
Qed.

Lemma in_enumerate {A : Type} (l : list A) (i : nat) (a : A) :
  nth_error l i = Some a -> In (i, a) (enumerate l).
Proof.
  intros H. apply (in_combine_seq l 0 i a H).
Qed.

Lemma firstn_min_length {A : Type} (k : nat) (l : list A) :
  firstn (Nat.min k (List.length l)) l = firstn k l.
Proof.
  destruct (Nat.le_ge_cases k (List.length l)) as [H | H].
  - now rewrite Nat.min_l.
  - rewrite Nat.min_r by assumption. now rewrite firstn_all, firstn_all2.
Qed.

(** C9 (amended). On a non-empty list the validator examines each of the
    first five records on its own and appends what it finds: unless float()
    fails outright on a numeric field of a sampled record, the report is the
    concatenation, record by record and in order, of the errors of the
    sampled records, nothing is dropped, and the data are valid exactly when
    that list is empty. A required column missing from a sampled record is
    reported for that record, so a column that no record has is reported once
    per sampled record. When float() of a sampled numeric field ends with an
    exception other than ValueError and TypeError (OverflowError, on an
    integer beyond the range of a float), that exception leaves the
    validator and there is no report. *)
Theorem validate_accumulates (records : list record) :
  records <> [] ->
  let errs := flat_map (fun '(i, r) => record_errors i r)
                       (enumerate (firstn 5 records)) in
  (existsb float_fails (firstn 5 records) = false ->
   validate_data_format (DList records) = Ok ((List.length errs =? 0)%nat, errs)) /\
  (existsb float_fails (firstn 5 records) = true ->
   exists msg, validate_data_format (DList records) = Raise (OverflowError msg)) /\
  (forall i r e, nth_error (firstn 5 records) i = Some r ->
                 In e (record_errors i r) -> In e errs) /\
  (forall i fields col,
     nth_error (firstn 5 records) i = Some (RDict fields) ->
     In col required_columns -> dict_get col fields = None ->
     In (msg_missing i col) errs).
Proof.
  intros Hne errs.
  assert (Hall : forall i r e, nth_error (firstn 5 records) i = Some r ->
                               In e (record_errors i r) -> In e errs).
  { intros i r e Hi He. unfold errs. apply in_flat_map.
    exists (i, r). split; [now apply in_enumerate | exact He]. }
  split; [| split; [| split; [exact Hall |]]].
  - intros Hok. destruct records as [| r t]; [congruence |].
    unfold validate_data_format. rewrite firstn_min_length.
    rewrite check_records_appends by exact Hok. reflexivity.
  - intros Hfail. destruct records as [| r t]; [congruence |].
    unfold validate_data_format. rewrite firstn_min_length.
    destruct (check_records_raises _ 0 [] Hfail) as [msg ->]. now exists msg.
  - intros i fields col Hi Hcol Hget. apply (Hall i (RDict fields)); [exact Hi |].
    unfold record_errors, missing_errors. apply in_or_app. left.
    apply in_flat_map. exists col. split; [exact Hcol |].
    rewrite Hget. now left.
Qed.

Lemma validate_accumulates_witness :
  two_records <> [] /\
  validate_data_format (DList two_records) =
  Ok (false, ["Record 0 missing required column: region";
              "Record 1 missing required column: region";
              "Record 1 has non-numeric sales: n/a"]).
Proof.
  split; [discriminate |].
  exact (proj1 (validate_accumulates two_records ltac:(discriminate)) eq_refl).
Defined.

(** C9, as stated, fails: a column that is missing from the whole data set
    is reported once for every sampled record, here twice for two records.
    And not every problem is reported in one pass: when the sales of the
    second record are an integer beyond the range of a float, the conversion
    raises OverflowError, which the validator does not catch, so the missing
    column of the two records is not reported at all. *)
Lemma validate_repeats_missing_column :
  (forall r, In r two_records ->
             exists fields, r = RDict fields /\ dict_get "region" fields = None) /\
  validate_data_format (DList two_records) =
  Ok (false, ["Record 0 missing required column: region";
              "Record 1 missing required column: region";
              "Record 1 has non-numeric sales: n/a"]) /\
  List.length (filter (fun e => String.prefix "Record" e &&
                                (String.eqb e (msg_missing 0 "region") ||
                                 String.eqb e (msg_missing 1 "region")))
                      ["Record 0 missing required column: region";
                       "Record 1 missing required column: region";
                       "Record 1 has non-numeric sales: n/a"]) = 2%nat /\
  (forall r, In r overflow_records ->
             exists fields, r = RDict fields /\ dict_get "region" fields = None) /\
  validate_data_format (DList overflow_records) =
  Raise (OverflowError "int too large to convert to float").
Proof.
  split; [| split; [reflexivity | split; [reflexivity | split; [| reflexivity]]]].
  - intros r [<- | [<- | []]]; eexists; split; reflexivity.
  - intros r [<- | [<- | []]]; eexists; split; reflexivity.
Qed.

(** ** The route *)

Ltac inv_bind H :=
  repeat match type of H with
         | bind _ _ = Ok _ =>
             let x := fresh "x" in
             let Hx := fresh "Hx" in
             apply bind_Ok_inv in H as (x & Hx & H); cbv beta in H
         end.


Lemma default_category_in (c : option string) : In (default_category c) PRODUCT_COLS.
Proof.
  unfold default_category. destruct c as [c |]; [| now left].
  destruct (String.eqb c EmptyString); cbn [orb]; [now left |].
  destruct (mem c PRODUCT_COLS) eqn:Hc; cbn [negb]; [| now left].
  unfold mem in Hc. apply existsb_exists in Hc as (x & Hx & Heq).
  apply String.eqb_eq in Heq. now subst.
Qed.


Section RouteFacts.
Variable E : Env.

Lemma prophet_forecast_category (df : DataFrame) (freq cat : string) (days : Z)
      (body : forecast_body) :
  prophet_forecast E df freq cat days = Ok body -> category body = cat.
Proof.
  unfold prophet_forecast. intros H. inv_bind H. now injection H as <-.
Qed.

Lemma trend_fallback_category (df : DataFrame) (freq cat : string) (days : Z)
      (body : forecast_body) :
  trend_fallback df freq cat days = Ok body -> category body = cat.
Proof.
  unfold trend_fallback. intros H. inv_bind H. now injection H as <-.
Qed.

Lemma lstm_forecast_category (df : DataFrame) (freq cat : string) (days : Z)
      (body : forecast_body) :
  lstm_forecast E df freq cat days = Ok (Json body) -> category body = cat.
Proof.
  unfold lstm_forecast. intros H.
  destruct (_ <? _)%nat; [discriminate |].
  inv_bind H. now injection H as <-.
Qed.

(** Every forecast returned by the route names the defaulted category. *)
Lemma predict_csv_category (req : request) (body : forecast_body) :
  predict_csv E req = Json body ->
  category body = default_category (req_category req).
Proof.
  unfold predict_csv. intros H.
  destruct (req_file req) as [file |]; [| discriminate].
  match type of H with
  | match ?c with _ => _ end = _ => destruct c as [r | e] eqn:Hc; [| discriminate]
  end.
  subst r. inv_bind Hc.
  destruct (String.eqb x2 "H").
  - now apply lstm_forecast_category in Hc.
  - destruct (prophet_forecast E x1 x2 _ x) as [b | e] eqn:Hp.
    + injection Hc as <-. now apply prophet_forecast_category in Hp.
    + inv_bind Hc. injection Hc as <-. now apply trend_fallback_category in Hx3.
Qed.
End RouteFacts.



(** ** Dates of a forecast *)

Lemma date_range_tl (start periods step : Z) :
  (0 <= periods)%Z ->
  exists l, date_range (Some start) (periods + 1) step = Ok l /\
            tl l = steps_after start step (Z.to_nat periods).
Proof.
  intros Hp. unfold date_range.
  destruct (Z.ltb_spec (periods + 1) 0) as [Hlt | _]; [lia |].
  eexists. split; [reflexivity |].
  replace (Z.to_nat (periods + 1)) with (S (Z.to_nat periods)) by lia.
  unfold steps_after. cbn [List.seq map tl].
  rewrite <- seq_shift, map_map. reflexivity.
Qed.

Lemma steps_after_length (start step : Z) (n : nat) :
  List.length (steps_after start step n) = n.
Proof. unfold steps_after. now rewrite length_map, length_seq. Qed.

Lemma steps_after_nth (start step : Z) (n k : nat) (t : Z) :
  nth_error (steps_after start step n) k = Some t ->
  t = (start + Z.of_nat (S k) * step)%Z.
Proof.
  unfold steps_after. rewrite nth_error_map.
  destruct (nth_error (List.seq 0 n) k) as [j |] eqn:Hj; [| discriminate].
  intros H. injection H as <-.
  assert (Hk : (k < n)%nat).
  { rewrite <- (length_seq n 0). apply nth_error_Some. congruence. }
  pose proof (nth_error_nth _ _ 0%nat Hj) as Hn.
  rewrite seq_nth in Hn by exact Hk. simpl in Hn. now subst.
Qed.

(** ** The hourly path *)

Lemma slice_last_length {A : Type} (n : nat) (l : list A) :
  (1 <= n <= List.length l)%nat -> List.length (slice_last n l) = n.
Proof.
  intros H. unfold slice_last, last_n. destruct n; [lia |].
  rewrite length_skipn. lia.
Qed.

Lemma slice_last_Forall {A : Type} (P : A -> Prop) (n : nat) (l : list A) :
  Forall P l -> Forall P (slice_last n l).
Proof.
  intros H. unfold slice_last, last_n. destruct n; [assumption |].
  rewrite <- (firstn_skipn (List.length l - S n) l) in H.
  now apply Forall_app in H.
Qed.

Lemma n_features_has_width (n : nat) (a : list (list pyfloat)) :
  a <> [] -> has_width n a -> n_features a = n.
Proof.
  intros Ha Hw. destruct a as [| r t]; [congruence |]. now inversion Hw.
Qed.

Lemma column_of_ok (j n : nat) (a : list (list pyfloat)) :
  (j < n)%nat -> has_width n a ->
  exists l, column_of j a = Ok l /\ List.length l = List.length a.
Proof.
  intros Hj Hw. unfold column_of.
  induction Hw as [| r t Hr _ (l & IH & Hl)]; simpl.
  - now exists [].
  - destruct (nth_error r j) as [v |] eqn:Hv.
    + cbn [bind]. rewrite IH. cbn [bind]. exists (v :: l). simpl. now rewrite Hl.
    + apply nth_error_None in Hv. lia.
Qed.

Lemma product_index (c : string) :
  In c PRODUCT_COLS -> exists i, col_index c PRODUCT_COLS = Some i.
Proof.
  revert c. apply in_product_cols; eexists; reflexivity.
Qed.

Section HourlyPath.
Variable E : Env.
Hypothesis seq_len_pos : (1 <= SEQ_LEN E)%nat.
Hypothesis predictor_ok : predictor_contract E 8.
Hypothesis inverse_ok : inverse_contract E 8.

Lemma lstm_forecast_ok (df : DataFrame) (cat : string) (days : Z)
      (scaled : list (list pyfloat)) (dates cells : list cell)
      (hist : list pyfloat) (t_last : Z) :
  (1 <= days)%Z ->
  In cat PRODUCT_COLS ->
  (SEQ_LEN E <= List.length (rows df))%nat ->
  scaler_transform E (rows (select PRODUCT_COLS df)) = Ok scaled ->
  List.length scaled = List.length (rows df) ->
  has_width 8 scaled ->
  column df DATE_COL = Ok dates ->
  max_timestamp dates = Some t_last ->
  column df cat = Ok cells ->
  floats_of cells = Ok hist ->
  exists values,
    List.length values = Z.to_nat days /\
    lstm_forecast E df "H" cat days =
    Ok (Json (mkBody dates hist (steps_after t_last HOUR (Z.to_nat days))
                     (map (clip_value (clip_max_of hist)) values)
                     (10, 15, 8)%Q "hours" "H" cat false)).
Proof.
  intros Hdays Hcat Hrows Hscaled Hsl Hsw Hdates Hlast Hcells Hhist.
  unfold lstm_forecast.
  destruct (Nat.ltb_spec (List.length (rows df)) (SEQ_LEN E)) as [Hlt | _]; [lia |].
  rewrite Hscaled. cbn [bind]. rewrite Hcells. cbn [bind].
  set (window := slice_last (SEQ_LEN E) scaled).
  assert (Hwl : List.length window = SEQ_LEN E)
    by (apply slice_last_length; lia).
  assert (Hww : has_width 8 window) by now apply slice_last_Forall.
  assert (Hn : n_features window = 8%nat).
  { apply n_features_has_width; [| assumption].
    intros Hnil. rewrite Hnil in Hwl. simpl in Hwl. lia. }
  destruct (multi_step_forecast_ok E 8 seq_len_pos predictor_ok inverse_ok
              window days Hn Hwl Hww Hdays) as (preds & -> & Hpl & Hpw).
  cbn [bind].
  destruct (product_index cat Hcat) as (idx & Hidx). rewrite Hidx.
  cbn [bind].
  destruct (column_of_ok idx 8 preds) as (values & -> & Hvl);
    [now apply col_index_lt in Hidx | assumption |].
  cbn [bind]. rewrite Hdates. cbn [bind]. rewrite Hlast.
  destruct (date_range_tl t_last days HOUR) as (l & -> & Htl); [lia |].
  cbn [bind]. rewrite Hhist. cbn [bind]. rewrite Htl.
  exists values. split; [lia | reflexivity].
Qed.
End HourlyPath.

Lemma max_timestamp_fold (dates : list cell) :
  forall acc m,
    fold_left (fun acc c => match c, acc with
                            | CTime t, Some m => Some (Z.max m t)
                            | CTime t, None => Some t
                            | _, _ => acc
                            end) dates acc = Some m ->
    (forall a, acc = Some a -> (a <= m)%Z) /\
    (forall t, In (CTime t) dates -> (t <= m)%Z).
Proof.
  induction dates as [| c rest IH]; intros acc m H; simpl in *.
  - subst acc. split; [intros a Ha; injection Ha as <-; lia | intros t []].
  - apply IH in H as [Hacc Hrest]. split.
    + intros a Ha. subst acc.
      destruct c; try (apply Hacc; reflexivity).
      specialize (Hacc _ eq_refl). lia.
    + intros t' [Ht' | Ht']; [| now apply Hrest].
      subst c. destruct acc; specialize (Hacc _ eq_refl); lia.
Qed.

(** The latest timestamp is not earlier than any timestamp of the column. *)
Lemma max_timestamp_ge (dates : list cell) (m t : Z) :
  max_timestamp dates = Some m -> In (CTime t) dates -> (t <= m)%Z.
Proof.
  unfold max_timestamp. intros H Hin.
  apply max_timestamp_fold in H as [_ H]. now apply H.
Qed.

Lemma steps_after_later (start step : Z) (n : nat) :
  (0 < step)%Z -> Forall (fun t => (start < t)%Z) (steps_after start step n).
Proof.
  intros Hs. unfold steps_after. apply Forall_map, Forall_forall.
  intros k _. nia.
Qed.

Lemma steps_after_gap (start step : Z) (n k : nat) (t1 t2 : Z) :
  nth_error (steps_after start step n) k = Some t1 ->
  nth_error (steps_after start step n) (S k) = Some t2 ->
  (t2 - t1 = step)%Z.
Proof.
  intros H1 H2. apply steps_after_nth in H1, H2. subst. lia.
Qed.

(** C2 (amended). On the hourly path the number of days requested is the
    number of hourly steps forecast: for a request with [days >= 1] whose
    cleaned series has at least [SEQ_LEN] rows, the forecast block has exactly
    [days] entries (one entry for 168 hourly rows and [days = 1]), dated one
    hour apart from one hour after the last historical timestamp on, hence all
    strictly after every historical timestamp. *)
Theorem predict_csv_hourly (E : Env) (req : request) (raw df : DataFrame) (days : Z)
        (scaled : list (list pyfloat)) (dates : list cell) (hist : list pyfloat)
        (t_last : Z) :
  req_file req = Some (Ok raw) ->
  parse_days (req_days req) = Ok days ->
  (1 <= days)%Z ->
  _prep_dataframe E raw = Ok df ->
  _detect_frequency E df = Ok "H" ->
  (1 <= SEQ_LEN E <= List.length (rows df))%nat ->
  predictor_contract E 8 ->
  inverse_contract E 8 ->
  scaler_transform E (rows (select PRODUCT_COLS df)) = Ok scaled ->
  List.length scaled = List.length (rows df) ->
  has_width 8 scaled ->
  column df DATE_COL = Ok dates ->
  max_timestamp dates = Some t_last ->
  (cells <- column df (default_category (req_category req)) ;; floats_of cells) = Ok hist ->
  exists body,
    predict_csv E req = Json body /\
    Z.of_nat (List.length (forecast_dates body)) = days /\
    Z.of_nat (List.length (forecast_values body)) = days /\
    forecast_dates body = steps_after t_last HOUR (Z.to_nat days) /\
    (forall k t1 t2, nth_error (forecast_dates body) k = Some t1 ->
                     nth_error (forecast_dates body) (S k) = Some t2 ->
                     (t2 - t1 = HOUR)%Z) /\
    historical_dates body = dates /\
    Forall (fun t => forall h, In (CTime h) dates -> (h < t)%Z) (forecast_dates body).
Proof.
  intros Hfile Hdays Hpos Hprep Hfreq [Hseq Hrows] Hpred Hinv Hscaled Hsl Hsw
         Hdates Hlast Hhist.
  apply bind_Ok_inv in Hhist as (cells & Hcells & Hhist).
  destruct (lstm_forecast_ok E Hseq Hpred Hinv df
              (default_category (req_category req)) days scaled dates cells hist
              t_last Hpos (default_category_in _) Hrows Hscaled Hsl Hsw Hdates
              Hlast Hcells Hhist) as (values & Hvl & Hlstm).
  eexists. split.
  - unfold predict_csv. rewrite Hfile, Hdays. cbn [bind].
    rewrite Hprep. cbn [bind]. rewrite Hfreq. cbn [bind].
    change (String.eqb "H" "H") with true. cbv iota.
    rewrite Hlstm. reflexivity.
  - cbn [forecast_dates forecast_values historical_dates].
    rewrite steps_after_length, length_map, Hvl.
    repeat split; try lia.
    + intros k t1 t2. apply steps_after_gap.
    + apply Forall_impl with (P := fun t => (t_last < t)%Z);
        [| apply steps_after_later; reflexivity].
      intros t Ht h Hh. pose proof (max_timestamp_ge _ _ _ Hlast Hh). lia.
Qed.

Lemma predict_csv_hourly_witness :
  exists body,
    predict_csv demo_env hourly_request = Json body /\
    Z.of_nat (List.length (forecast_dates body)) = 1%Z /\
    Z.of_nat (List.length (forecast_values body)) = 1%Z /\
    forecast_dates body = steps_after (167 * HOUR) HOUR (Z.to_nat 1) /\
    (forall k t1 t2, nth_error (forecast_dates body) k = Some t1 ->
                     nth_error (forecast_dates body) (S k) = Some t2 ->
                     (t2 - t1 = HOUR)%Z) /\
    historical_dates body = map (cell_at 0) (rows (sample_frame HOUR 168)) /\
    Forall (fun t => forall h,
              In (CTime h) (map (cell_at 0) (rows (sample_frame HOUR 168))) ->
              (h < t)%Z) (forecast_dates body).
Proof.
  eapply (predict_csv_hourly demo_env hourly_request (sample_frame HOUR 168)
            (sample_frame HOUR 168) 1).
  - reflexivity.
  - reflexivity.
  - lia.
  - vm_compute. reflexivity.
  - vm_compute. reflexivity.
  - vm_compute. lia.
  - exact demo_predictor_contract.
  - exact demo_inverse_contract.
  - vm_compute. reflexivity.
  - vm_compute. reflexivity.
  - apply Forall_forall. intros r Hr. vm_compute in Hr.
    repeat (destruct Hr as [<- | Hr]; [reflexivity |]). contradiction.
  - reflexivity.
  - vm_compute. reflexivity.
  - vm_compute. reflexivity.
Defined.

(** C2, as stated, fails: for 168 hourly rows over 8 channels and [days = 1]
    the route takes the hourly path and returns one forecast entry, not 24. *)
Lemma predict_csv_hourly_one_entry :
  List.length (rows (sample_frame HOUR 168)) = 168%nat /\
  columns (sample_frame HOUR 168) = DATE_COL :: PRODUCT_COLS /\
  req_days hourly_request = Some (FormInt 1) /\
  exists body,
    predict_csv demo_env hourly_request = Json body /\
    frequency body = "H" /\
    forecast_dates body = [(168 * HOUR)%Z] /\
    List.length (forecast_values body) = 1%nat /\
    List.length (forecast_dates body) <> 24%nat.
Proof.
  split; [reflexivity |]. split; [reflexivity |]. split; [reflexivity |].
  eexists. split; [vm_compute; reflexivity |].
  split; [reflexivity |]. split; [reflexivity |]. split; [reflexivity |].
  discriminate.
Qed.

(** ** The additive path and its fallback *)



(** A channel without a fitted model makes the Prophet attempt fail. *)
Lemma prophet_forecast_no_model (E : Env) (df : DataFrame) (freq cat : string)
      (days : Z) (e : exn) :
  _get_prophet_model E freq cat = Raise e ->
  prophet_forecast E df freq cat days = Raise e.
Proof.
  intros H. unfold prophet_forecast. now rewrite H.
Qed.




(** * Further properties of the service *)

(** ** The cleaner: errors *)

Lemma mem_true_In (c : string) (l : list string) : mem c l = true -> In c l.
Proof.
  unfold mem. intros H. apply existsb_exists in H as (x & Hx & Heq).
  apply String.eqb_eq in Heq. now subst.
Qed.

(** Without a column named [datum], exactly or up to case and surrounding
    white space, the cleaner raises its first schema error, whatever else the
    frame holds. The column names are taken to be ASCII: on other names
    Python strips more than [strip] does. *)
Theorem prep_no_date_column (E : Env) (raw : DataFrame) :
  Forall (fun c => isascii c = true) (columns raw) ->
  (forall c, In c (columns raw) -> lower (strip c) <> DATE_COL) ->
  _prep_dataframe E raw = Raise (ValueError "CSV must contain a 'datum' column.").
Proof.
  intros _ H. unfold _prep_dataframe.
  destruct (mem DATE_COL (columns raw)) eqn:Hm.
  - apply mem_true_In in Hm. exfalso. now apply (H DATE_COL Hm).
  - replace (filter (fun c => String.eqb (lower (strip c)) (lower DATE_COL))
                    (columns raw)) with (@nil string); [reflexivity |].
    symmetry. clear Hm. change (lower DATE_COL) with DATE_COL.
    induction (columns raw) as [| c t IH]; [reflexivity |].
    cbn [filter]. destruct (String.eqb_spec (lower (strip c)) DATE_COL) as [Heq | _].
    + exfalso. apply (H c); [now left | exact Heq].
    + apply IH. intros x Hx. apply H. now right.
Qed.

Lemma prep_no_date_column_witness :
  _prep_dataframe demo_env undated_frame =
  Raise (ValueError "CSV must contain a 'datum' column.").
Proof.
  apply prep_no_date_column.
  - repeat constructor.
  - intros c Hc. vm_compute in Hc.
    repeat (destruct Hc as [<- | Hc]; [vm_compute; discriminate |]). contradiction.
Defined.

Lemma col_index_mem_iff (c : string) (cols : list string) :
  mem c cols = match col_index c cols with Some _ => true | None => false end.
Proof.
  induction cols as [| h t IH]; [reflexivity |].
  cbn [col_index]. unfold mem in *. cbn [existsb].
  destruct (String.eqb c h); [reflexivity |]. cbn [orb]. rewrite IH.
  now destruct (col_index c t).
Qed.

Lemma col_index_of_mem (c : string) (cols : list string) :
  mem c cols = true -> exists i, col_index c cols = Some i.
Proof.
  rewrite col_index_mem_iff. destruct (col_index c cols); [eauto | discriminate].
Qed.

Lemma col_index_rename_other (p old new : string) (cols : list string) :
  p <> old -> p <> new ->
  col_index p (rename old new cols) = col_index p cols.
Proof.
  intros Ho Hn. induction cols as [| h t IH]; [reflexivity |].
  cbn [rename map col_index]. fold (rename old new t). rewrite IH.
  destruct (String.eqb_spec h old) as [-> | Hh].
  - destruct (String.eqb_spec p new); [congruence |].
    destruct (String.eqb_spec p old); [congruence | reflexivity].
  - reflexivity.
Qed.

Lemma product_not_date (p : string) :
  In p PRODUCT_COLS -> p <> DATE_COL /\ lower (strip p) <> DATE_COL.
Proof.
  revert p. apply in_product_cols; split; vm_compute; discriminate.
Qed.

Lemma col_index_rename_new (old new : string) (cols : list string) :
  mem new cols = false ->
  col_index new (rename old new cols) = col_index old cols.
Proof.
  induction cols as [| h t IH]; [reflexivity |].
  unfold mem. cbn [existsb rename map col_index]. fold (rename old new t).
  intros H. apply orb_false_iff in H as [Hh Ht].
  rewrite (String.eqb_sym old h).
  destruct (String.eqb_spec h old) as [-> | Hho].
  - now rewrite String.eqb_refl.
  - rewrite Hh. now rewrite (IH Ht).
Qed.

(** Resolving the date column gives a header with a column [datum], which is
    the first column so named up to case and white space, and leaves the
    product columns where they are. *)
Lemma resolved_header_ok (cols : list string) :
  (exists c, In c cols /\ lower (strip c) = DATE_COL) ->
  exists cols' i c0,
    resolved_header cols = Ok cols' /\
    col_index DATE_COL cols' = Some i /\
    In c0 cols /\ lower (strip c0) = DATE_COL /\ col_index c0 cols = Some i /\
    forall p, In p PRODUCT_COLS -> col_index p cols' = col_index p cols.
Proof.
  intros (c & Hc & Hcand). unfold resolved_header.
  destruct (mem DATE_COL cols) eqn:Hm.
  - destruct (col_index_of_mem _ _ Hm) as [i Hi]. exists cols, i, DATE_COL.
    repeat split; auto. now apply mem_true_In.
  - change (lower DATE_COL) with DATE_COL.
    destruct (filter (fun c => String.eqb (lower (strip c)) DATE_COL) cols)
      as [| c0 rest] eqn:Hf.
    + exfalso. assert (Hin : In c (@nil string)); [| exact Hin].
      rewrite <- Hf. apply filter_In. split; [exact Hc |].
      now apply String.eqb_eq.
    + assert (Hc0 : In c0 cols /\ lower (strip c0) = DATE_COL).
      { assert (Hin : In c0 (c0 :: rest)) by now left.
        rewrite <- Hf in Hin. apply filter_In in Hin as [Hin Heq].
        split; [exact Hin | now apply String.eqb_eq]. }
      destruct Hc0 as [Hin0 Hcand0].
      destruct (col_index_of_mem c0 cols (mem_In _ _ Hin0)) as [i Hi].
      exists (rename c0 DATE_COL cols), i, c0.
      rewrite (col_index_rename_new _ _ _ Hm).
      repeat split; try assumption.
      intros p Hp. destruct (product_not_date p Hp) as [Hpd Hps].
      apply col_index_rename_other; [| exact Hpd].
      intros ->. contradiction.
Qed.

Lemma prep_unfold (E : Env) (raw : DataFrame) :
  _prep_dataframe E raw =
  (cols <- resolved_header (columns raw) ;;
   df <- parse_dates E (mkDF cols (rows raw)) ;;
   df <- sort_values DATE_COL df ;;
   match missing_products (columns df) with
   | _ :: _ =>
       Raise (ValueError (String.append "CSV is missing required product columns: "
                            (String.concat ", " (missing_products (columns df)))))
   | [] =>
       Ok (mkDF (DATE_COL :: PRODUCT_COLS)
             (map (fillna_row (DATE_COL :: PRODUCT_COLS))
                (filter (fun r => negb (all_products_missing (DATE_COL :: PRODUCT_COLS) r))
                   (rows (select (DATE_COL :: PRODUCT_COLS) df)))))
   end).
Proof. reflexivity. Qed.

Lemma parse_dates_ok (E : Env) (cols : list string) (rs : list (list cell)) (i : nat) :
  col_index DATE_COL cols = Some i ->
  (forall r, In r rs -> exists d, to_datetime_cell E (cell_at i r) = Ok d) ->
  exists rs', parse_dates E (mkDF cols rs) = Ok (mkDF cols rs') /\
              Forall2 (fun r r' => exists d, to_datetime_cell E (cell_at i r) = Ok d /\
                                             r' = set_at i d r) rs rs'.
Proof.
  intros Hi Hparse. unfold parse_dates. cbn [columns rows]. rewrite Hi.
  induction rs as [| r t IH]; cbn [mapM bind].
  - exists []. split; [reflexivity | constructor].
  - destruct (Hparse r (or_introl eq_refl)) as [d Hd]. rewrite Hd. cbn [bind].
    destruct IH as (rs' & Hrs' & Hall); [intros x Hx; apply Hparse; now right |].
    apply bind_Ok_inv in Hrs' as (l & Hl & Heq). rewrite Hl. cbn [bind].
    injection Heq as <-.
    exists (set_at i d r :: l). split; [reflexivity |].
    constructor; [eauto | exact Hall].
Qed.

Lemma missing_products_ext (cols cols' : list string) :
  (forall p, In p PRODUCT_COLS -> col_index p cols' = col_index p cols) ->
  missing_products cols' = missing_products cols.
Proof.
  intros H. unfold missing_products. apply filter_ext_in.
  intros p Hp. now rewrite !col_index_mem_iff, (H p Hp).
Qed.

(** When the date column is there and the dates parse, a frame that lacks
    product columns is refused with an error that names every missing
    column, in the order of [PRODUCT_COLS]. *)
Theorem prep_missing_products (E : Env) (raw : DataFrame) :
  has_date_column raw ->
  dates_parse E raw ->
  missing_products (columns raw) <> [] ->
  _prep_dataframe E raw =
  Raise (ValueError (String.append "CSV is missing required product columns: "
                       (String.concat ", " (missing_products (columns raw))))).
Proof.
  intros Hdate Hparse Hmiss. rewrite prep_unfold.
  destruct (resolved_header_ok (columns raw) Hdate)
    as (cols & i & c0 & -> & Hi & Hin0 & Hcand0 & Hi0 & Hprod).
  cbn [bind].
  destruct (parse_dates_ok E cols (rows raw) i Hi) as (rs & -> & _).
  { intros r Hr. destruct (Hparse r c0 Hr Hin0 Hcand0) as [d Hd].
    unfold get in Hd. rewrite Hi0 in Hd. eauto. }
  cbn [bind]. unfold sort_values. cbn [columns rows]. rewrite Hi. cbn [bind columns].
  rewrite (missing_products_ext (columns raw) cols Hprod).
  destruct (missing_products (columns raw)); [congruence | reflexivity].
Qed.

Lemma prep_missing_products_witness :
  _prep_dataframe demo_env narrow_frame =
  Raise (ValueError "CSV is missing required product columns: N05C, R06").
Proof.
  apply (prep_missing_products demo_env narrow_frame).
  - exists "datum". split; [now left | reflexivity].
  - intros r c Hr Hc Hcand. destruct Hr as [<- | []].
    vm_compute in Hc.
    repeat (destruct Hc as [<- | Hc]; [try (vm_compute in Hcand; discriminate) |]);
      [| contradiction].
    eexists. reflexivity.
  - discriminate.
Defined.

(** ** The cleaner: what a cleaned frame holds *)

Lemma resolved_header_inv (cols cols' : list string) :
  resolved_header cols = Ok cols' ->
  exists c, In c cols /\ lower (strip c) = DATE_COL.
Proof.
  unfold resolved_header. destruct (mem DATE_COL cols) eqn:Hm.
  - intros _. exists DATE_COL. split; [now apply mem_true_In | reflexivity].
  - change (lower DATE_COL) with DATE_COL.
    destruct (filter (fun c => String.eqb (lower (strip c)) DATE_COL) cols)
      as [| c0 rest] eqn:Hf; [discriminate |].
    intros _. exists c0.
    assert (Hin : In c0 (c0 :: rest)) by now left.
    rewrite <- Hf in Hin. apply filter_In in Hin as [Hin Heq].
    split; [exact Hin | now apply String.eqb_eq].
Qed.

Lemma col_index_nth_error (c : string) (cols : list string) (i : nat) :
  col_index c cols = Some i -> nth_error cols i = Some c.
Proof.
  revert i. induction cols as [| h t IH]; intros i; cbn [col_index]; [discriminate |].
  destruct (String.eqb_spec c h) as [-> | _].
  - intros H. now injection H as <-.
  - destruct (col_index c t) as [j |]; [| discriminate].
    intros H. injection H as <-. now apply IH.
Qed.

Lemma cell_at_set_at_other (i j : nat) (d : cell) (r : list cell) :
  i <> j -> cell_at j (set_at i d r) = cell_at j r.
Proof.
  unfold cell_at. revert i j. induction r as [| h t IH]; intros i j Hij.
  - now destruct i.
  - destruct i as [| i], j as [| j]; cbn [set_at nth]; try reflexivity; try congruence.
    apply IH. congruence.
Qed.

(** The full shape of a successful run of the cleaner. *)
Lemma prep_inv_header (E : Env) (raw df : DataFrame) :
  _prep_dataframe E raw = Ok df ->
  exists cols i c0 rs,
    col_index DATE_COL cols = Some i /\
    In c0 (columns raw) /\ lower (strip c0) = DATE_COL /\
    col_index c0 (columns raw) = Some i /\
    (forall p, In p PRODUCT_COLS -> col_index p cols = col_index p (columns raw)) /\
    Forall2 (fun r r' => exists d, to_datetime_cell E (cell_at i r) = Ok d /\
                                   r' = set_at i d r) (rows raw) rs /\
    df = mkDF (DATE_COL :: PRODUCT_COLS)
           (map (fillna_row (DATE_COL :: PRODUCT_COLS))
              (filter (fun r => negb (all_products_missing (DATE_COL :: PRODUCT_COLS) r))
                 (map (fun r => map (fun c => get cols c r) (DATE_COL :: PRODUCT_COLS))
                    (sort_rows (cell_at i) rs)))).
Proof.
  rewrite prep_unfold. intros H.
  apply bind_Ok_inv in H as (cols & Hcols & H).
  destruct (resolved_header_ok (columns raw) (resolved_header_inv _ _ Hcols))
    as (cols' & i & c0 & Hcols' & Hi & Hin0 & Hcand0 & Hi0 & Hprod).
  rewrite Hcols in Hcols'. injection Hcols' as <-.
  apply bind_Ok_inv in H as (df1 & Hparse & H).
  apply bind_Ok_inv in H as (df2 & Hsort & H).
  unfold parse_dates in Hparse. cbn [columns rows] in Hparse. rewrite Hi in Hparse.
  apply bind_Ok_inv in Hparse as (rs & Hrs & Hdf1). injection Hdf1 as <-.
  unfold sort_values in Hsort. cbn [columns rows] in Hsort. rewrite Hi in Hsort.
  injection Hsort as <-. cbn [columns rows] in H.
  destruct (missing_products cols); [| discriminate].
  injection H as <-.
  exists cols, i, c0, rs. repeat split; try assumption.
  apply mapM_Ok_inv in Hrs. eapply Forall2_impl; [| exact Hrs].
  intros r r' Hr. apply bind_Ok_inv in Hr as (d & Hd & Hr).
  injection Hr as <-. eauto.
Qed.

Lemma filter_length_insert_row (key : list cell -> cell) (f : list cell -> bool)
      (r : list cell) (l : list (list cell)) :
  List.length (filter f (insert_row key r l)) = List.length (filter f (r :: l)).
Proof.
  induction l as [| h t IH]; [reflexivity |].
  cbn [insert_row]. destruct (date_leb (key r) (key h)); [reflexivity |].
  cbn [filter] in *. destruct (f h), (f r); cbn [List.length] in *; lia.
Qed.

Lemma filter_length_sort_rows (key : list cell -> cell) (f : list cell -> bool)
      (l : list (list cell)) :
  List.length (filter f (sort_rows key l)) = List.length (filter f l).
Proof.
  induction l as [| r t IH]; [reflexivity |].
  cbn [sort_rows]. rewrite filter_length_insert_row. cbn [filter].
  destruct (f r); cbn [List.length]; now rewrite IH.
Qed.

Lemma filter_length_Forall2 {A B : Type} (R : A -> B -> Prop) (f : A -> bool)
      (g : B -> bool) (l : list A) (l' : list B) :
  (forall a b, R a b -> f a = g b) ->
  Forall2 R l l' -> List.length (filter f l) = List.length (filter g l').
Proof.
  intros Hfg. induction 1 as [| a b t t' Hab _ IH]; [reflexivity |].
  cbn [filter]. rewrite (Hfg a b Hab). destruct (g b); cbn [List.length]; now rewrite IH.
Qed.

Lemma filter_map_swap {A B : Type} (f : B -> bool) (g : A -> B) (l : list A) :
  filter f (map g l) = map g (filter (fun a => f (g a)) l).
Proof.
  induction l as [| a t IH]; [reflexivity |].
  cbn [map filter]. destruct (f (g a)); cbn [map]; now rewrite IH.
Qed.

Lemma forallb_ext_in {A : Type} (f g : A -> bool) (l : list A) :
  (forall a, In a l -> f a = g a) -> forallb f l = forallb g l.
Proof.
  induction l as [| a t IH]; intros H; [reflexivity |].
  cbn [forallb]. rewrite (H a (or_introl eq_refl)), IH; [reflexivity |].
  intros x Hx. apply H. now right.
Qed.

Lemma selected_row_get (cols : list string) (r : list cell) (c : string) :
  In c PRODUCT_COLS ->
  get (DATE_COL :: PRODUCT_COLS) c
      (map (fun c => get cols c r) (DATE_COL :: PRODUCT_COLS)) = get cols c r.
Proof. revert c. apply in_product_cols; reflexivity. Qed.

(** Parsing the date leaves the channel cells of a row as they are. *)
Lemma parsed_row_get (cols cols0 : list string) (i : nat) (d : cell) (r : list cell)
      (c : string) :
  col_index DATE_COL cols = Some i ->
  col_index c cols = col_index c cols0 ->
  In c PRODUCT_COLS ->
  get cols c (set_at i d r) = get cols0 c r.
Proof.
  intros Hi Hc Hp. unfold get. rewrite <- Hc.
  destruct (col_index c cols) as [j |] eqn:Hj; [| reflexivity].
  apply cell_at_set_at_other. intros ->.
  apply col_index_nth_error in Hi, Hj. rewrite Hi in Hj. injection Hj as <-.
  now destruct (product_not_date DATE_COL Hp).
Qed.

(** The cleaned frame always has the header [datum] followed by the eight
    product columns, each of its rows has nine cells, and it keeps exactly
    the raw rows that carry at least one channel value: no row is added and
    only rows without any channel value are dropped. *)
Theorem prep_shape (E : Env) (raw df : DataFrame) :
  _prep_dataframe E raw = Ok df ->
  columns df = DATE_COL :: PRODUCT_COLS /\
  Forall (fun r => List.length r = 9%nat) (rows df) /\
  List.length (rows df) =
  List.length (filter (fun r => negb (all_products_missing (columns raw) r)) (rows raw)).
Proof.
  intros H.
  apply prep_inv_header in H
    as (cols & i & c0 & rs & Hi & _ & _ & _ & Hprod & Hrs & ->).
  cbn [columns rows]. split; [reflexivity |]. split.
  - apply Forall_map, Forall_forall. intros r1 Hr1.
    apply filter_In in Hr1 as [Hr1 _].
    apply in_map_iff in Hr1 as (r & <- & _). reflexivity.
  - rewrite length_map, filter_map_swap, length_map, filter_length_sort_rows.
    symmetry. apply filter_length_Forall2 with (2 := Hrs).
    intros r r' (d & _ & ->). f_equal. unfold all_products_missing.
    apply forallb_ext_in. intros c Hc. f_equal.
    rewrite selected_row_get by assumption.
    symmetry. apply (parsed_row_get cols (columns raw) i d r c Hi (Hprod c Hc) Hc).
Qed.

Lemma prep_shape_witness :
  exists df,
    _prep_dataframe demo_env messy_frame = Ok df /\
    columns df = DATE_COL :: PRODUCT_COLS /\
    Forall (fun r => List.length r = 9%nat) (rows df) /\
    List.length (rows df) = 3%nat.
Proof.
  eexists. split; [vm_compute; reflexivity |].
  exact (prep_shape demo_env messy_frame _ eq_refl).
Defined.

Lemma fill_cell_product_eq (c : string) (v : cell) :
  In c PRODUCT_COLS ->
  fill_cell c v = if isna v then CFloat (Num 0) else v.
Proof.
  intros Hc. unfold fill_cell. now rewrite (mem_In _ _ Hc).
Qed.

(** Every row of the cleaned frame stems from a raw row: its first cell is
    the parsed date of that row, and its channel cells are the channel
    values of that row, with 0 wherever the value was missing. No present
    value is altered. *)
Theorem prep_rows_from_raw (E : Env) (raw df : DataFrame) :
  wf_frame raw ->
  _prep_dataframe E raw = Ok df ->
  exists c0,
    In c0 (columns raw) /\ lower (strip c0) = DATE_COL /\
    Forall (fun r' =>
              exists r d,
                In r (rows raw) /\
                to_datetime_cell E (get (columns raw) c0 r) = Ok d /\
                r' = d :: map (fun c => let v := get (columns raw) c r in
                                        if isna v then CFloat (Num 0) else v)
                              PRODUCT_COLS) (rows df).
Proof.
  intros Hwf H.
  apply prep_inv_header in H
    as (cols & i & c0 & rs & Hi & Hin0 & Hcand0 & Hi0 & Hprod & Hrs & ->).
  exists c0. split; [exact Hin0 |]. split; [exact Hcand0 |]. cbn [rows].
  apply Forall_forall. intros r1 Hr1.
  apply in_map_iff in Hr1 as (r2 & <- & Hr2).
  apply filter_In in Hr2 as [Hr2 _].
  apply in_map_iff in Hr2 as (r' & <- & Hr').
  apply sort_rows_In in Hr'.
  assert (Hsrc : exists r d, In r (rows raw) /\
                             to_datetime_cell E (cell_at i r) = Ok d /\
                             r' = set_at i d r).
  { clear - Hrs Hr'. induction Hrs as [| a b ta tb (d & Hd & Hb) _ IH];
      [contradiction |].
    destruct Hr' as [<- | Hr'].
    - exists a, d. split; [now left | auto].
    - destruct (IH Hr') as (r & d' & Hr & Hrest). exists r, d'.
      split; [now right | exact Hrest]. }
  destruct Hsrc as (r & d & Hr & Hd & ->).
  exists r, d. split; [exact Hr |]. split.
  - unfold get. now rewrite Hi0.
  - rewrite filled_row_form. f_equal.
    + unfold get. rewrite Hi. apply cell_at_set_at.
      unfold wf_frame in Hwf. rewrite Forall_forall in Hwf. rewrite (Hwf r Hr).
      now apply col_index_lt with (c := c0).
    + apply map_ext_in. intros c Hc. cbv zeta.
      rewrite (parsed_row_get cols (columns raw) i d r c Hi (Hprod c Hc) Hc).
      now apply fill_cell_product_eq.
Qed.

Lemma prep_rows_from_raw_witness :
  exists df c0,
    wf_frame messy_frame /\
    _prep_dataframe demo_env messy_frame = Ok df /\
    In c0 (columns messy_frame) /\ lower (strip c0) = DATE_COL /\
    Forall (fun r' =>
              exists r d,
                In r (rows messy_frame) /\
                to_datetime_cell demo_env (get (columns messy_frame) c0 r) = Ok d /\
                r' = d :: map (fun c => let v := get (columns messy_frame) c r in
                                        if isna v then CFloat (Num 0) else v)
                              PRODUCT_COLS) (rows df).
Proof.
  assert (Hwf : wf_frame messy_frame) by repeat constructor.
  destruct (prep_rows_from_raw demo_env messy_frame _ Hwf eq_refl)
    as (c0 & H1 & H2 & H3).
  eexists. exists c0. split; [exact Hwf |]. split; [reflexivity |].
  split; [exact H1 |]. split; [exact H2 | exact H3].
Defined.

(** ** The frequency detector: range and edge cases *)

Lemma classify_gap_range (m : pyfloat) : In (classify_gap m) FREQUENCIES.
Proof.
  unfold classify_gap, FREQUENCIES.
  destruct (fle m (Num 1.5)); [now left |].
  destruct (fle m (Num 25)); [right; now left |].
  destruct (fle m (Num 200)); [right; right; now left |].
  right; right; right; now left.
Qed.

Lemma classify_inferred_range (s f : string) :
  classify_inferred s = Some f -> In f FREQUENCIES.
Proof.
  unfold classify_inferred, FREQUENCIES.
  destruct (startswith "h" (lower s)); [intros H; injection H as <-; now left |].
  destruct (startswith "d" (lower s));
    [intros H; injection H as <-; right; now left |].
  destruct (startswith "w" (lower s));
    [intros H; injection H as <-; right; right; now left |].
  destruct (startswith "m" (lower s)); [| discriminate].
  intros H; injection H as <-. right; right; right; now left.
Qed.

(** Whatever pandas infers and whatever the gaps are, a frequency returned by
    the detector is one of H, D, W and M. *)
Theorem detect_frequency_range (E : Env) (df : DataFrame) (f : string) :
  _detect_frequency E df = Ok f -> In f FREQUENCIES.
Proof.
  unfold _detect_frequency. intros H. inv_bind H.
  destruct x1 as [s |].
  - destruct (classify_inferred s) as [f' |] eqn:Hs.
    + injection H as <-. now apply classify_inferred_range in Hs.
    + injection H as <-. apply classify_gap_range.
  - injection H as <-. apply classify_gap_range.
Qed.

Lemma detect_frequency_range_witness :
  _detect_frequency demo_env weekly_clean = Ok "W" /\ In "W" FREQUENCIES.
Proof.
  split; [vm_compute; reflexivity |].
  apply (detect_frequency_range demo_env weekly_clean). vm_compute. reflexivity.
Defined.

(** A series without two successive valid timestamps has no gap to measure:
    when pandas names no frequency either, the detector answers monthly. *)
Theorem detect_frequency_no_gap (E : Env) (raw df : DataFrame) (dates : list cell) :
  _prep_dataframe E raw = Ok df ->
  column df DATE_COL = Ok dates ->
  (3 <= List.length dates)%nat ->
  (forall s, infer_freq_rule E dates = Some s -> classify_inferred s = None) ->
  diff_dropna dates = [] ->
  _detect_frequency E df = Ok "M".
Proof.
  intros Hprep Hdates Hlen Hrule Hgap.
  destruct (prep_rows_sorted E raw df Hprep) as [Hcols Hsorted].
  unfold _detect_frequency. rewrite sort_values_sorted by assumption.
  cbn [bind]. rewrite Hdates. cbn [bind]. unfold pd_infer_freq.
  destruct (Nat.ltb_spec (List.length dates) 3) as [Hlt | _]; [lia |].
  cbn [bind].
  assert (Hnone : match infer_freq_rule E dates with
                  | Some s => classify_inferred s
                  | None => None
                  end = None).
  { destruct (infer_freq_rule E dates) as [s |]; [now apply Hrule | reflexivity]. }
  rewrite Hnone. unfold median_gap_hours. rewrite Hgap. reflexivity.
Qed.

Lemma detect_frequency_no_gap_witness :
  exists df,
    _prep_dataframe demo_env undated_rows_frame = Ok df /\
    column df DATE_COL = Ok [CNaT; CNaT; CNaT] /\
    _detect_frequency demo_env df = Ok "M".
Proof.
  eexists. split; [vm_compute; reflexivity |]. split; [reflexivity |].
  apply (detect_frequency_no_gap demo_env undated_rows_frame _ [CNaT; CNaT; CNaT]).
  - reflexivity.
  - reflexivity.
  - vm_compute. lia.
  - intros s Hs. vm_compute in Hs. discriminate.
  - reflexivity.
Defined.

(** ** The recursive forecaster: horizons and bad windows *)

Section ForecastSteps.
Variable E : Env.

Lemma forecast_steps_length (steps n : nat) :
  forall seq acc preds,
    forecast_steps E steps n seq acc = Ok preds ->
    List.length preds = (List.length acc + steps)%nat.
Proof.
  induction steps as [| k IH]; intros seq acc preds H; cbn [forecast_steps] in H.
  - injection H as <-. lia.
  - inv_bind H. apply IH in H. rewrite length_app in H. cbn [List.length] in H. lia.
Qed.

(** One more step only appends a row. *)
Lemma forecast_steps_snoc (steps n : nat) :
  forall seq acc preds',
    forecast_steps E (S steps) n seq acc = Ok preds' ->
    exists preds yhat,
      forecast_steps E steps n seq acc = Ok preds /\ preds' = preds ++ [yhat].
Proof.
  induction steps as [| k IH]; intros seq acc preds' H.
  - cbn [forecast_steps] in H. inv_bind H. injection H as <-.
    exists acc, x0. split; reflexivity.
  - remember (S k) as k1 eqn:Hk1. cbn [forecast_steps] in H. subst k1.
    apply bind_Ok_inv in H as (window & Hw & H).
    apply bind_Ok_inv in H as (yhat & Hy & H).
    apply bind_Ok_inv in H as (seq' & Hs & H).
    destruct (IH _ _ _ H) as (preds & y & Hp & ->).
    exists preds, y. split; [| reflexivity].
    cbn [forecast_steps]. rewrite Hw. cbn [bind]. rewrite Hy. cbn [bind].
    rewrite Hs. cbn [bind]. exact Hp.
Qed.

(** The rows of a shorter run are the first rows of a longer run. *)
Lemma forecast_steps_prefix (n : nat) (seq : list (list pyfloat)) (extra : nat) :
  forall steps preds',
    forecast_steps E (steps + extra) n seq [] = Ok preds' ->
    forecast_steps E steps n seq [] = Ok (firstn steps preds').
Proof.
  induction extra as [| e IH]; intros steps preds' H.
  - rewrite Nat.add_0_r in H. rewrite H. f_equal.
    apply forecast_steps_length in H. cbn [List.length] in H.
    symmetry. apply firstn_all2. lia.
  - replace (steps + S e)%nat with (S (steps + e)) in H by lia.
    apply forecast_steps_snoc in H as (preds & yhat & Hp & ->).
    pose proof (forecast_steps_length _ _ _ _ _ Hp) as Hl. cbn [List.length] in Hl.
    rewrite (IH _ _ Hp). f_equal.
    rewrite firstn_app. replace (steps - List.length preds)%nat with 0%nat by lia.
    cbn [firstn]. now rewrite app_nil_r.
Qed.
End ForecastSteps.

Lemma match_nonempty {A B : Type} (a : list A) (x y : B) :
  a <> [] -> match a with [] => x | _ :: _ => y end = y.
Proof. destruct a; [congruence | reflexivity]. Qed.

(** A longer horizon only extends a forecast: with a scaler that inverts row
    by row, the forecast for [h1] steps is made of the first [h1] rows of the
    forecast for any [h2 >= h1] steps from the same window. *)
Theorem multi_step_forecast_prefix (E : Env) (window : list (list pyfloat))
        (h1 h2 : Z) (preds2 : list (list pyfloat)) :
  row_wise_inverse E ->
  (1 <= h1 <= h2)%Z ->
  _multi_step_forecast E window h2 = Ok preds2 ->
  _multi_step_forecast E window h1 = Ok (firstn (Z.to_nat h1) preds2).
Proof.
  intros [f Hf] Hh. unfold _multi_step_forecast. intros H.
  apply bind_Ok_inv in H as (scaled2 & Hs2 & H).
  replace (Z.to_nat h2) with (Z.to_nat h1 + (Z.to_nat h2 - Z.to_nat h1))%nat in Hs2
    by lia.
  pose proof (forecast_steps_length _ _ _ _ _ _ Hs2) as Hl2. cbn [List.length] in Hl2.
  apply forecast_steps_prefix in Hs2 as Hs1. rewrite Hs1. cbn [bind].
  assert (Hne2 : scaled2 <> []) by (destruct scaled2; [simpl in Hl2; lia | discriminate]).
  assert (Hne1 : firstn (Z.to_nat h1) scaled2 <> []).
  { destruct scaled2 as [| r t]; [congruence |].
    destruct (Z.to_nat h1) eqn:Hn; [lia | discriminate]. }
  rewrite (match_nonempty _ _ _ Hne2), (Hf scaled2 Hne2) in H. injection H as <-.
  rewrite (match_nonempty _ _ _ Hne1), (Hf _ Hne1). now rewrite firstn_map.
Qed.

Lemma demo_row_wise_inverse : row_wise_inverse demo_env.
Proof.
  exists (fun r => r). intros a _. cbn. now rewrite map_id.
Qed.

Lemma multi_step_forecast_prefix_witness :
  exists preds2,
    _multi_step_forecast demo_env sample_window 5 = Ok preds2 /\
    List.length preds2 = 5%nat /\
    _multi_step_forecast demo_env sample_window 2 = Ok (firstn 2 preds2).
Proof.
  eexists. split; [vm_compute; reflexivity |]. split; [reflexivity |].
  apply (multi_step_forecast_prefix demo_env sample_window 2 5).
  - exact demo_row_wise_inverse.
  - lia.
  - vm_compute. reflexivity.
Defined.

(** A window that has columns but not exactly [SEQ_LEN] rows is refused when
    it is first reshaped, for every horizon of at least one step and whatever
    the model is: no prediction is made from it. *)
Theorem multi_step_forecast_bad_window (E : Env) (window : list (list pyfloat))
        (horizon : Z) :
  n_features window <> 0%nat ->
  List.length window <> SEQ_LEN E ->
  (1 <= horizon)%Z ->
  _multi_step_forecast E window horizon = Raise (ValueError "cannot reshape array").
Proof.
  intros Hn Hlen Hh. unfold _multi_step_forecast.
  destruct (Z.to_nat horizon) as [| k] eqn:Hk; [lia |].
  cbn [forecast_steps]. unfold reshape_window.
  destruct (Nat.eqb_spec (n_features window) 0) as [H0 | _]; [contradiction |].
  destruct (Nat.eqb_spec (List.length window) (SEQ_LEN E)) as [Heq | _];
    [contradiction | reflexivity].
Qed.

Lemma multi_step_forecast_bad_window_witness :
  List.length short_window = 167%nat /\
  _multi_step_forecast demo_env short_window 3 =
  Raise (ValueError "cannot reshape array").
Proof.
  split; [reflexivity |].
  apply multi_step_forecast_bad_window; [vm_compute; lia | vm_compute; lia | lia].
Defined.

(** ** The route: where a response comes from *)

Section RouteInversion.
Variable E : Env.

(** A forecast is returned only after reading, cleaning and detection have
    succeeded, and it comes from one of the three branches. *)
Lemma predict_csv_Json_inv (req : request) (body : forecast_body) :
  predict_csv E req = Json body ->
  exists raw days df freq,
    req_file req = Some (Ok raw) /\
    parse_days (req_days req) = Ok days /\
    _prep_dataframe E raw = Ok df /\
    _detect_frequency E df = Ok freq /\
    ((freq = "H" /\
      lstm_forecast E df freq (default_category (req_category req)) days =
      Ok (Json body)) \/
     (freq <> "H" /\
      prophet_forecast E df freq (default_category (req_category req)) days =
      Ok body) \/
     (freq <> "H" /\
      (exists e, prophet_forecast E df freq (default_category (req_category req)) days
                 = Raise e) /\
      trend_fallback df freq (default_category (req_category req)) days = Ok body)).
Proof.
  unfold predict_csv. intros H.
  destruct (req_file req) as [file |]; [| discriminate].
  match type of H with
  | match ?c with _ => _ end = _ => destruct c as [r | e] eqn:Hc; [| discriminate]
  end.
  subst r.
  apply bind_Ok_inv in Hc as (days & Hdays & Hc).
  apply bind_Ok_inv in Hc as (raw & Hraw & Hc).
  apply bind_Ok_inv in Hc as (df & Hdf & Hc).
  apply bind_Ok_inv in Hc as (freq & Hfreq & Hc).
  subst file. exists raw, days, df, freq.
  split; [reflexivity |]. split; [exact Hdays |]. split; [exact Hdf |].
  split; [exact Hfreq |].
  destruct (String.eqb_spec freq "H") as [-> | Hne].
  - left. split; [reflexivity | exact Hc].
  - right.
    destruct (prophet_forecast E df freq (default_category (req_category req)) days)
      as [b | e] eqn:Hp.
    + left. injection Hc as <-. split; [exact Hne | reflexivity].
    + right. apply bind_Ok_inv in Hc as (b & Hb & Hc). injection Hc as <-.
      split; [exact Hne |]. split; [eauto | exact Hb].
Qed.

Lemma lstm_forecast_inv (df : DataFrame) (freq cat : string) (days : Z)
      (body : forecast_body) :
  lstm_forecast E df freq cat days = Ok (Json body) ->
  exists cells hist dates values future,
    column df cat = Ok cells /\ floats_of cells = Ok hist /\
    column df DATE_COL = Ok dates /\
    date_range (max_timestamp dates) (days + 1) HOUR = Ok future /\
    body = mkBody dates hist (tl future)
                  (map (clip_value (clip_max_of hist)) values)
                  (10, 15, 8)%Q "hours" freq cat false.
Proof.
  unfold lstm_forecast. intros H.
  destruct (_ <? _)%nat; [discriminate |].
  apply bind_Ok_inv in H as (scaled & _ & H).
  apply bind_Ok_inv in H as (cells & Hcells & H).
  apply bind_Ok_inv in H as (preds & _ & H).
  apply bind_Ok_inv in H as (idx & _ & H).
  apply bind_Ok_inv in H as (values & _ & H).
  apply bind_Ok_inv in H as (dates & Hdates & H).
  apply bind_Ok_inv in H as (future & Hfuture & H).
  apply bind_Ok_inv in H as (hist & Hhist & H).
  injection H as <-. exists cells, hist, dates, values, future. auto.
Qed.

Lemma prophet_forecast_inv (df : DataFrame) (freq cat : string) (days : Z)
      (body : forecast_body) :
  prophet_forecast E df freq cat days = Ok body ->
  exists m cells hist dates future,
    _get_prophet_model E freq cat = Ok m /\
    column df cat = Ok cells /\ floats_of cells = Ok hist /\
    column df DATE_COL = Ok dates /\
    future <> [] /\
    body = mkBody dates hist (map fst future)
                  (map (scale_value (hist_max_of hist)) (map snd future))
                  (15, 20, 12)%Q (granularity_map freq) freq cat false.
Proof.
  unfold prophet_forecast. intros H.
  apply bind_Ok_inv in H as (m & Hm & H).
  apply bind_Ok_inv in H as (cells & Hcells & H).
  apply bind_Ok_inv in H as (hist & Hhist & H).
  apply bind_Ok_inv in H as (dates & Hdates & H).
  apply bind_Ok_inv in H as (? & _ & H).
  apply bind_Ok_inv in H as (? & _ & H).
  apply bind_Ok_inv in H as (freq_arg & _ & H).
  apply bind_Ok_inv in H as (forecast & _ & H).
  apply bind_Ok_inv in H as (? & Hmin & H).
  apply bind_Ok_inv in H as (? & _ & H).
  apply bind_Ok_inv in H as (? & _ & H).
  apply bind_Ok_inv in H as (? & _ & H).
  injection H as <-.
  exists m, cells, hist, dates, (tail days forecast). repeat split; try assumption.
  intros Hnil. rewrite Hnil in Hmin. discriminate.
Qed.

Lemma trend_fallback_inv (df : DataFrame) (freq cat : string) (days : Z)
      (body : forecast_body) :
  trend_fallback df freq cat days = Ok body ->
  exists cells hist dates future,
    column df cat = Ok cells /\ floats_of cells = Ok hist /\
    column df DATE_COL = Ok dates /\
    date_range (max_timestamp dates) (days + 1) DAY = Ok future /\
    body = mkBody dates hist (tl future)
                  (repeat (fmul (if (30 <=? List.length hist)%nat
                                 then np_mean (last_n 30 hist)
                                 else np_mean hist) (Num 0.9)) (Z.to_nat days))
                  (20, 25, 15)%Q "days" freq cat true.
Proof.
  unfold trend_fallback. intros H.
  apply bind_Ok_inv in H as (cells & Hcells & H).
  apply bind_Ok_inv in H as (hist & Hhist & H).
  apply bind_Ok_inv in H as (dates & Hdates & H).
  apply bind_Ok_inv in H as (future & Hfuture & H).
  injection H as <-. exists cells, hist, dates, future. auto.
Qed.
End RouteInversion.

(** ** The route: what every forecast response satisfies *)

Lemma column_length (df : DataFrame) (c : string) (cells : list cell) :
  column df c = Ok cells -> List.length cells = List.length (rows df).
Proof.
  unfold column. destruct (col_index c (columns df)); [| discriminate].
  intros H. injection H as <-. apply length_map.
Qed.

Lemma floats_of_length (cells : list cell) (hist : list pyfloat) :
  floats_of cells = Ok hist -> List.length hist = List.length cells.
Proof. apply mapM_length. Qed.

(** Every forecast response reports the whole cleaned history: its historical
    dates are the date column of the cleaned frame, its historical values are
    the column of the category it names, and both have one entry per cleaned
    row. *)
Theorem predict_csv_history (E : Env) (req : request) (body : forecast_body) :
  predict_csv E req = Json body ->
  exists raw df cells,
    req_file req = Some (Ok raw) /\
    _prep_dataframe E raw = Ok df /\
    column df DATE_COL = Ok (historical_dates body) /\
    column df (category body) = Ok cells /\
    floats_of cells = Ok (historical_values body) /\
    List.length (historical_dates body) = List.length (rows df) /\
    List.length (historical_values body) = List.length (rows df).
Proof.
  intros H.
  apply predict_csv_Json_inv in H
    as (raw & days & df & freq & Hfile & _ & Hprep & _ & Hbranch).
  assert (Hb : exists cells,
             column df DATE_COL = Ok (historical_dates body) /\
             column df (category body) = Ok cells /\
             floats_of cells = Ok (historical_values body)).
  { destruct Hbranch as [[_ Hl] | [[_ Hp] | [_ [_ Hf]]]].
    - apply lstm_forecast_inv in Hl
        as (cells & hist & dates & values & future & Hc & Hh & Hd & _ & ->).
      exists cells. auto.
    - apply prophet_forecast_inv in Hp
        as (m & cells & hist & dates & future & _ & Hc & Hh & Hd & _ & ->).
      exists cells. auto.
    - apply trend_fallback_inv in Hf
        as (cells & hist & dates & future & Hc & Hh & Hd & _ & ->).
      exists cells. auto. }
  destruct Hb as (cells & Hd & Hc & Hh).
  exists raw, df, cells. repeat split; try assumption.
  - now apply column_length in Hd.
  - apply floats_of_length in Hh. apply column_length in Hc. congruence.
Qed.

Lemma predict_csv_history_witness :
  exists body raw df cells,
    predict_csv demo_env daily_request = Json body /\
    req_file daily_request = Some (Ok raw) /\
    _prep_dataframe demo_env raw = Ok df /\
    column df DATE_COL = Ok (historical_dates body) /\
    column df (category body) = Ok cells /\
    floats_of cells = Ok (historical_values body) /\
    List.length (historical_dates body) = List.length (rows df) /\
    List.length (historical_values body) = List.length (rows df).
Proof.
  eexists.
  destruct (predict_csv_history demo_env daily_request _ eq_refl)
    as (raw & df & cells & H).
  exists raw, df, cells. split; [reflexivity | exact H].
Defined.

(** On the hourly path no forecast value leaves the clipping range: with a
    history of finite values, every value of the response is a number between
    0 and the effective maximum plus two deviations, unless the model itself
    produced NaN, which is passed on. *)
Theorem predict_csv_hourly_bounds (E : Env) (req : request) (body : forecast_body)
        (hist : list Q) :
  predict_csv E req = Json body ->
  frequency body = "H" ->
  historical_values body = map Num hist ->
  exists hmax hstd,
    hist_max_of (map Num hist) = Num hmax /\
    hist_std_of (map Num hist) = Num hstd /\
    Forall (fun v => v = NaN \/
                     exists q, v = Num q /\ (0 <= q)%Q /\ (q <= hmax + 2 * hstd)%Q)
           (forecast_values body).
Proof.
  intros H Hfreq Hhist.
  destruct (hist_max_of_num hist) as (hmax & Hmax & Hpos & _).
  destruct (hist_std_of_num hist) as (hstd & Hstd & Hnonneg).
  exists hmax, hstd. split; [exact Hmax |]. split; [exact Hstd |].
  apply predict_csv_Json_inv in H
    as (raw & days & df & freq & _ & _ & _ & _ & Hbranch).
  destruct Hbranch as [[_ Hl] | [[Hne Hp] | [Hne [_ Hf]]]].
  - apply lstm_forecast_inv in Hl
      as (cells & h & dates & values & future & _ & _ & _ & _ & ->).
    cbn [historical_values forecast_values] in *. subst h.
    apply Forall_map, Forall_forall. intros v _.
    unfold clip_max_of. rewrite Hmax, Hstd. cbn [fadd fmul].
    destruct v as [| q]; [left; apply clip_value_NaN |].
    right. destruct (clip_value_bounds (hmax + 2 * hstd) q) as (out & -> & H0 & H1);
      [lra |].
    exists out. auto.
  - apply prophet_forecast_inv in Hp
      as (m & cells & h & dates & future & _ & _ & _ & _ & _ & ->).
    cbn [frequency] in Hfreq. congruence.
  - apply trend_fallback_inv in Hf
      as (cells & h & dates & future & _ & _ & _ & _ & ->).
    cbn [frequency] in Hfreq. congruence.
Qed.

Lemma predict_csv_hourly_bounds_witness :
  exists body hmax hstd,
    predict_csv demo_env hourly_request = Json body /\
    hist_max_of (historical_values body) = Num hmax /\
    hist_std_of (historical_values body) = Num hstd /\
    Forall (fun v => v = NaN \/
                     exists q, v = Num q /\ (0 <= q)%Q /\ (q <= hmax + 2 * hstd)%Q)
           (forecast_values body).
Proof.
  eexists.
  destruct (predict_csv_hourly_bounds demo_env hourly_request _
              (map (fun k => inject_Z (Z.of_nat k + 1)) (List.seq 0 168)) eq_refl)
    as (hmax & hstd & H1 & H2 & H3).
  - reflexivity.
  - vm_compute. reflexivity.
  - exists hmax, hstd. split; [reflexivity |].
    split; [exact H1 |]. split; [exact H2 | exact H3].
Defined.

(** On the Prophet path (a response that is neither hourly nor a fallback)
    every forecast value is a number between 0 and twice the effective
    historical maximum, unless Prophet itself produced NaN. *)
Theorem predict_csv_prophet_bounds (E : Env) (req : request) (body : forecast_body)
        (hist : list Q) :
  predict_csv E req = Json body ->
  frequency body <> "H" ->
  fallback body = false ->
  historical_values body = map Num hist ->
  exists hmax,
    hist_max_of (map Num hist) = Num hmax /\
    Forall (fun v => v = NaN \/
                     exists q, v = Num q /\ (0 <= q)%Q /\ (q <= 2 * hmax)%Q)
           (forecast_values body).
Proof.
  intros H Hfreq Hfb Hhist.
  destruct (hist_max_of_num hist) as (hmax & Hmax & Hpos & _).
  exists hmax. split; [exact Hmax |].
  apply predict_csv_Json_inv in H
    as (raw & days & df & freq & _ & _ & _ & _ & Hbranch).
  destruct Hbranch as [[-> Hl] | [[Hne Hp] | [Hne [_ Hf]]]].
  - apply lstm_forecast_inv in Hl
      as (cells & h & dates & values & future & _ & _ & _ & _ & ->).
    cbn [frequency] in Hfreq. congruence.
  - apply prophet_forecast_inv in Hp
      as (m & cells & h & dates & future & _ & _ & _ & _ & _ & ->).
    cbn [historical_values forecast_values] in *. subst h.
    apply Forall_map, Forall_forall. intros v _. rewrite Hmax.
    destruct v as [| q]; [left; apply scale_value_NaN |].
    right. destruct (scale_value_bounds hmax q Hpos) as (out & -> & H0 & H1).
    exists out. auto.
  - apply trend_fallback_inv in Hf
      as (cells & h & dates & future & _ & _ & _ & _ & ->).
    cbn [fallback] in Hfb. discriminate.
Qed.

Lemma predict_csv_prophet_bounds_witness :
  exists body,
    predict_csv demo_env fitted_request = Json body /\
    frequency body = "D" /\ fallback body = false /\
    forecast_values body = repeat (Num (40 * 1.5)) 5 /\
    exists hmax,
      hist_max_of (historical_values body) = Num hmax /\
      Forall (fun v => v = NaN \/
                       exists q, v = Num q /\ (0 <= q)%Q /\ (q <= 2 * hmax)%Q)
             (forecast_values body).
Proof.
  eexists. split; [vm_compute; reflexivity |].
  split; [reflexivity |]. split; [reflexivity |]. split; [reflexivity |].
  apply (predict_csv_prophet_bounds demo_env fitted_request _
           (map (fun k => inject_Z (Z.of_nat k + 1)) (List.seq 0 40))).
  - vm_compute. reflexivity.
  - discriminate.
  - reflexivity.
  - vm_compute. reflexivity.
Defined.

Lemma date_range_length (start : option Z) (periods step : Z) (l : list Z) :
  date_range start periods step = Ok l ->
  (0 <= periods)%Z /\ List.length l = Z.to_nat periods.
Proof.
  unfold date_range. destruct start as [s |]; [| discriminate].
  destruct (Z.ltb_spec periods 0) as [| Hp]; [discriminate |].
  intros H. injection H as <-. split; [exact Hp |].
  now rewrite length_map, length_seq.
Qed.

(** On the additive path, Prophet or fallback, the forecast block has as many
    dates as values. *)
Theorem predict_csv_additive_aligned (E : Env) (req : request) (body : forecast_body) :
  predict_csv E req = Json body ->
  frequency body <> "H" ->
  List.length (forecast_dates body) = List.length (forecast_values body).
Proof.
  intros H Hfreq.
  apply predict_csv_Json_inv in H
    as (raw & days & df & freq & _ & _ & _ & _ & Hbranch).
  destruct Hbranch as [[-> Hl] | [[Hne Hp] | [Hne [_ Hf]]]].
  - apply lstm_forecast_inv in Hl
      as (cells & h & dates & values & future & _ & _ & _ & _ & ->).
    cbn [frequency] in Hfreq. congruence.
  - apply prophet_forecast_inv in Hp
      as (m & cells & h & dates & future & _ & _ & _ & _ & _ & ->).
    cbn [forecast_dates forecast_values]. now rewrite !length_map.
  - apply trend_fallback_inv in Hf
      as (cells & h & dates & future & _ & _ & _ & Hrange & ->).
    cbn [forecast_dates forecast_values]. rewrite repeat_length.
    apply date_range_length in Hrange as [Hp Hl].
    destruct future as [| t rest]; cbn [tl List.length] in *; lia.
Qed.

Lemma predict_csv_additive_aligned_witness :
  exists body,
    predict_csv demo_env daily_request = Json body /\
    frequency body = "D" /\
    List.length (forecast_dates body) = List.length (forecast_values body).
Proof.
  eexists. split; [vm_compute; reflexivity |]. split; [reflexivity |].
  apply (predict_csv_additive_aligned demo_env daily_request).
  - vm_compute. reflexivity.
  - discriminate.
Defined.

(** ** The route: error responses *)

Lemma lstm_forecast_error_inv (E : Env) (df : DataFrame) (freq cat : string)
      (days status : Z) (msg : string) :
  lstm_forecast E df freq cat days = Ok (JsonError status msg) ->
  status = 400%Z /\
  (List.length (rows df) < SEQ_LEN E)%nat /\
  msg = not_enough_history (SEQ_LEN E) (List.length (rows df)).
Proof.
  unfold lstm_forecast.
  destruct (Nat.ltb_spec (List.length (rows df)) (SEQ_LEN E)) as [Hlt | _].
  - intros H. injection H as <- <-. split; [reflexivity |].
    split; [exact Hlt | reflexivity].
  - intros H. inv_bind H. discriminate.
Qed.

(** On the hourly path a cleaned history shorter than [SEQ_LEN] rows is
    answered with status 400 and a message that states the required and the
    actual number of rows; neither the scaler nor the model is consulted. *)
Theorem predict_csv_not_enough_history (E : Env) (req : request) (raw df : DataFrame)
        (days : Z) :
  req_file req = Some (Ok raw) ->
  parse_days (req_days req) = Ok days ->
  _prep_dataframe E raw = Ok df ->
  _detect_frequency E df = Ok "H" ->
  (List.length (rows df) < SEQ_LEN E)%nat ->
  predict_csv E req =
  JsonError 400 (not_enough_history (SEQ_LEN E) (List.length (rows df))).
Proof.
  intros Hfile Hdays Hprep Hfreq Hlen.
  unfold predict_csv. rewrite Hfile, Hdays. cbn [bind].
  rewrite Hprep. cbn [bind]. rewrite Hfreq. cbn [bind].
  change (String.eqb "H" "H") with true. cbv iota.
  unfold lstm_forecast.
  destruct (Nat.ltb_spec (List.length (rows df)) (SEQ_LEN E)) as [_ | Hge];
    [reflexivity | lia].
Qed.

Lemma predict_csv_not_enough_history_witness :
  predict_csv demo_env short_hourly_request =
  JsonError 400 "Not enough history. Need at least 168 rows, got 5".
Proof.
  apply (predict_csv_not_enough_history demo_env short_hourly_request
           (sample_frame HOUR 5) (sample_frame HOUR 5) 1).
  - reflexivity.
  - reflexivity.
  - vm_compute. reflexivity.
  - vm_compute. reflexivity.
  - vm_compute. lia.
Defined.

(** The route has three kinds of error response and no other: 400 for a
    request without a file, 400 for an hourly history shorter than [SEQ_LEN],
    and 500 with the message of the exception for everything else. *)
Theorem predict_csv_error_kinds (E : Env) (req : request) (status : Z) (msg : string) :
  predict_csv E req = JsonError status msg ->
  (status = 400%Z /\ req_file req = None /\
   msg = "Upload a CSV file in 'file' field (form-data).") \/
  (status = 400%Z /\
   exists raw df,
     req_file req = Some (Ok raw) /\ _prep_dataframe E raw = Ok df /\
     _detect_frequency E df = Ok "H" /\
     (List.length (rows df) < SEQ_LEN E)%nat /\
     msg = not_enough_history (SEQ_LEN E) (List.length (rows df))) \/
  (status = 500%Z /\ exists e, msg = String.append "Prediction failed: " (exn_str e)).
Proof.
  unfold predict_csv. intros H.
  destruct (req_file req) as [file |].
  2: { injection H as <- <-. left. repeat split. }
  match type of H with
  | match ?c with _ => _ end = _ => destruct c as [r | e] eqn:Hc
  end.
  2: { injection H as <- <-. right. right. split; [reflexivity |].
       exists e. reflexivity. }
  subst r. right. left.
  apply bind_Ok_inv in Hc as (days & Hdays & Hc).
  apply bind_Ok_inv in Hc as (raw & Hraw & Hc).
  apply bind_Ok_inv in Hc as (df & Hdf & Hc).
  apply bind_Ok_inv in Hc as (freq & Hfreq & Hc).
  subst file.
  destruct (String.eqb_spec freq "H") as [-> | Hne].
  - apply lstm_forecast_error_inv in Hc as (-> & Hlen & ->).
    split; [reflexivity |]. exists raw, df. auto.
  - destruct (prophet_forecast E df freq (default_category (req_category req)) days);
      [discriminate |].
    apply bind_Ok_inv in Hc as (b & _ & Hc). discriminate.
Qed.

Lemma predict_csv_error_kinds_witness :
  predict_csv demo_env (mkRequest (Some (Ok undated_frame)) None None) =
  JsonError 500 "Prediction failed: CSV must contain a 'datum' column." /\
  exists e, "Prediction failed: CSV must contain a 'datum' column." =
            String.append "Prediction failed: " (exn_str e).
Proof.
  split; [reflexivity |].
  destruct (predict_csv_error_kinds demo_env
              (mkRequest (Some (Ok undated_frame)) None None) 500
              "Prediction failed: CSV must contain a 'datum' column." eq_refl)
    as [(H & _) | [(H & _) | (_ & He)]]; [discriminate H | discriminate H | exact He].
Defined.

Lemma tail_zero {A : Type} (l : list A) : tail 0 l = [].
Proof.
  unfold tail, last_n. cbn. rewrite Nat.sub_0_r. apply skipn_all.
Qed.

(** With zero periods the Prophet attempt always ends in an exception: at the
    latest, the minimum of an empty forecast is taken. *)
Lemma prophet_forecast_zero (E : Env) (df : DataFrame) (freq cat : string) :
  exists e, prophet_forecast E df freq cat 0 = Raise e.
Proof.
  unfold prophet_forecast.
  repeat match goal with
         | |- context [tail 0 ?l] => rewrite (tail_zero l); cbn [map py_min bind]
         | |- exists e, Raise _ = Raise e => eexists; reflexivity
         | |- exists e, bind ?c _ = Raise e =>
             destruct c; cbn [bind]; [| eexists; reflexivity]
         end.
Qed.

(** With zero periods the handler of the fallback, when it returns, returns an
    empty forecast. *)
Lemma trend_fallback_zero (df : DataFrame) (freq cat : string)
      (body : forecast_body) :
  trend_fallback df freq cat 0 = Ok body ->
  fallback body = true /\ forecast_dates body = [] /\ forecast_values body = [].
Proof.
  unfold trend_fallback. intros H.
  apply bind_Ok_inv in H as (hist_cells & _ & H).
  apply bind_Ok_inv in H as (hist_values & _ & H).
  apply bind_Ok_inv in H as (hist_dates & _ & H).
  apply bind_Ok_inv in H as (future_dates & Hrange & H).
  injection H as <-. cbn [fallback forecast_dates forecast_values].
  unfold date_range in Hrange.
  destruct (max_timestamp hist_dates) as [s |]; [| discriminate].
  cbn in Hrange. injection Hrange as <-. repeat split.
Qed.

(** A request for zero steps on the additive path never gets a forecast of
    Prophet, even when a fitted model exists: the Prophet branch fails on its
    own empty forecast and the handler takes over. So every forecast the
    route answers with is flagged as fallback and is empty; the route answers
    with one whenever the channel holds numbers and some timestamp is valid,
    and with an error 500 whenever it does not answer with a forecast. *)
Theorem predict_csv_zero_days (E : Env) (req : request) (raw df : DataFrame)
        (freq : string) :
  req_file req = Some (Ok raw) ->
  parse_days (req_days req) = Ok 0%Z ->
  _prep_dataframe E raw = Ok df ->
  _detect_frequency E df = Ok freq ->
  freq <> "H" ->
  (forall body,
     predict_csv E req = Json body ->
     fallback body = true /\ forecast_dates body = [] /\ forecast_values body = []) /\
  (forall dates hist t_last,
     column df DATE_COL = Ok dates ->
     max_timestamp dates = Some t_last ->
     (cells <- column df (default_category (req_category req)) ;; floats_of cells)
     = Ok hist ->
     exists body, predict_csv E req = Json body) /\
  ((exists body, predict_csv E req = Json body) \/
   (exists message, predict_csv E req = JsonError 500 message)).
Proof.
  intros Hfile Hdays Hprep Hfreq HnotH.
  destruct (prophet_forecast_zero E df freq (default_category (req_category req)))
    as [e He].
  assert (Hroute :
    predict_csv E req =
    match trend_fallback df freq (default_category (req_category req)) 0 with
    | Ok body => Json body
    | Raise e => JsonError 500 (String.append "Prediction failed: " (exn_str e))
    end).
  { unfold predict_csv. rewrite Hfile, Hdays. cbn [bind].
    rewrite Hprep. cbn [bind]. rewrite Hfreq. cbn [bind].
    destruct (String.eqb_spec freq "H") as [-> | _]; [congruence |].
    rewrite He.
    now destruct (trend_fallback df freq (default_category (req_category req)) 0). }
  rewrite Hroute. split; [| split].
  - intros body H.
    destruct (trend_fallback df freq (default_category (req_category req)) 0)
      as [body' | e'] eqn:Hf; [| discriminate].
    injection H as <-. now apply trend_fallback_zero in Hf.
  - intros dates hist t_last Hdates Hlast Hhist.
    apply bind_Ok_inv in Hhist as (cells & Hcells & Hhist).
    unfold trend_fallback.
    rewrite Hcells. cbn [bind]. rewrite Hhist. cbn [bind].
    rewrite Hdates. cbn [bind]. rewrite Hlast. eexists. reflexivity.
  - destruct (trend_fallback df freq (default_category (req_category req)) 0);
      [left | right]; eexists; reflexivity.
Qed.

Lemma predict_csv_zero_days_witness :
  exists body,
    predict_csv demo_env zero_days_request = Json body /\
    fallback body = true /\ forecast_dates body = [] /\ forecast_values body = [].
Proof.
  destruct (predict_csv_zero_days demo_env zero_days_request (sample_frame DAY 40)
              (sample_frame DAY 40) "D") as (Hempty & Hanswer & _).
  - reflexivity.
  - reflexivity.
  - vm_compute. reflexivity.
  - vm_compute. reflexivity.
  - discriminate.
  - destruct (Hanswer (map (cell_at 0) (rows (sample_frame DAY 40)))
                (map (fun k => Num (inject_Z (Z.of_nat k + 1))) (List.seq 0 40))
                (39 * DAY)%Z) as [body Hbody].
    + reflexivity.
    + vm_compute. reflexivity.
    + vm_compute. reflexivity.
    + exists body. split; [exact Hbody | exact (Hempty body Hbody)].
Defined.

(** The category field of a forecast is always one of the product channels,
    and it is the requested category whenever that is a product channel. *)
Theorem predict_csv_category_echo (E : Env) (req : request) (body : forecast_body) :
  predict_csv E req = Json body ->
  In (category body) PRODUCT_COLS /\
  forall c, req_category req = Some c -> In c PRODUCT_COLS -> category body = c.
Proof.
  intros H. apply predict_csv_category in H. rewrite H. split.
  - apply default_category_in.
  - intros c Hc Hin. rewrite Hc. unfold default_category.
    rewrite (mem_In _ _ Hin). cbn [negb]. rewrite orb_false_r.
    replace (String.eqb c EmptyString) with false; [reflexivity |].
    symmetry. clear Hc. revert c Hin. apply in_product_cols; reflexivity.
Qed.

Lemma predict_csv_category_echo_witness :
  exists body,
    predict_csv demo_env fitted_request = Json body /\
    In (category body) PRODUCT_COLS /\ category body = "M01AE".
Proof.
  eexists. split; [vm_compute; reflexivity |].
  destruct (predict_csv_category_echo demo_env fitted_request _ eq_refl) as [H1 H2].
  split; [exact H1 |]. apply H2; [reflexivity |]. right. now left.
Defined.

Lemma detect_frequency_under_three (E : Env) (raw df : DataFrame) :
  _prep_dataframe E raw = Ok df ->
  (List.length (rows df) < 3)%nat ->
  _detect_frequency E df =
  Raise (ValueError "Need at least 3 dates to infer frequency").
Proof.
  intros Hprep Hlen.
  destruct (prep_rows_sorted E raw df Hprep) as [Hcols Hsorted].
  unfold _detect_frequency. rewrite sort_values_sorted by assumption.
  cbn [bind]. unfold column. rewrite Hcols.
  change (col_index DATE_COL (DATE_COL :: PRODUCT_COLS)) with (Some 0%nat).
  cbv beta iota. cbn [bind]. unfold pd_infer_freq. rewrite length_map.
  destruct (Nat.ltb_spec (List.length (rows df)) 3) as [_ | Hge]; [reflexivity | lia].
Qed.

(** A file that leaves fewer than three rows after cleaning is never
    forecast: whatever the category and the number of days, the route answers
    with status 500 and the message of pandas' frequency inference. *)
Theorem predict_csv_too_few_rows (E : Env) (req : request) (raw df : DataFrame)
        (days : Z) :
  req_file req = Some (Ok raw) ->
  parse_days (req_days req) = Ok days ->
  _prep_dataframe E raw = Ok df ->
  (List.length (rows df) < 3)%nat ->
  predict_csv E req =
  JsonError 500 "Prediction failed: Need at least 3 dates to infer frequency".
Proof.
  intros Hfile Hdays Hprep Hlen.
  unfold predict_csv. rewrite Hfile, Hdays. cbn [bind]. rewrite Hprep. cbn [bind].
  now rewrite (detect_frequency_under_three E raw df Hprep Hlen).
Qed.

Lemma predict_csv_too_few_rows_witness :
  predict_csv demo_env two_rows_request =
  JsonError 500 "Prediction failed: Need at least 3 dates to infer frequency".
Proof.
  apply (predict_csv_too_few_rows demo_env two_rows_request (sample_frame DAY 2)
           (sample_frame DAY 2) 7).
  - reflexivity.
  - reflexivity.
  - vm_compute. reflexivity.
  - vm_compute. lia.
Defined.

(** ** The Prophet bundles *)

Lemma check_bundle_inv (entries : list (string * pickled_model))
      (models : list (string * prophet)) :
  check_bundle (PDict entries) = Ok models ->
  Forall (fun e => snd e <> PNotProphet) entries /\
  forall cat m, dict_get cat models = Some m ->
                dict_get cat entries = Some (PProphet m).
Proof.
  cbn [check_bundle]. intros H. apply mapM_Ok_inv in H.
  induction H as [| [k pm] [k' p] t t' Hh _ [IHf IHg]].
  - split; [constructor | discriminate].
  - destruct pm as [p0 |]; [| discriminate]. injection Hh as <- <-.
    split; [constructor; [discriminate | exact IHf] |].
    intros cat m. cbn [dict_get]. destruct (String.eqb cat k).
    + intros Hm. now injection Hm as <-.
    + apply IHg.
Qed.

(** A Prophet model is served only for a daily, weekly or monthly frequency,
    from a bundle file that exists, loads as a dictionary, holds nothing but
    Prophet models, and has an entry for the category: one invalid entry
    spoils the whole bundle. *)
Theorem get_prophet_model_inv (E : Env) (freq cat : string) (m : prophet) :
  _get_prophet_model E freq cat = Ok m ->
  exists pkl_path entries,
    model_map freq = Some pkl_path /\
    In freq ["D"; "W"; "M"] /\
    prophet_file E pkl_path = Some (Ok (PDict entries)) /\
    Forall (fun e => snd e <> PNotProphet) entries /\
    dict_get cat entries = Some (PProphet m).
Proof.
  unfold _get_prophet_model, _load_prophet_models_dict. intros H.
  apply bind_Ok_inv in H as (models & Hload & H).
  destruct (model_map freq) as [pkl_path |] eqn:Hmap; [| discriminate].
  destruct (prophet_file E pkl_path) as [loaded |] eqn:Hfile; [| discriminate].
  destruct loaded as [obj | e]; cbn [bind] in Hload; [| discriminate].
  destruct (check_bundle obj) as [models' | e] eqn:Hcheck; [| discriminate].
  injection Hload as ->.
  destruct obj as [entries | ty]; [| discriminate].
  apply check_bundle_inv in Hcheck as [Hall Hget].
  destruct (dict_get cat models) as [m' |] eqn:Hm; [| discriminate].
  injection H as ->.
  exists pkl_path, entries. repeat split; auto.
  unfold model_map in Hmap.
  destruct (String.eqb_spec freq "D") as [-> | _]; [now left |].
  destruct (String.eqb_spec freq "W") as [-> | _]; [right; now left |].
  destruct (String.eqb_spec freq "M") as [-> | _]; [right; right; now left |].
  discriminate.
Qed.

Lemma get_prophet_model_inv_witness :
  exists pkl_path entries,
    _get_prophet_model demo_env "D" "M01AE" = Ok demo_prophet /\
    model_map "D" = Some pkl_path /\
    In "D" ["D"; "W"; "M"] /\
    prophet_file demo_env pkl_path = Some (Ok (PDict entries)) /\
    Forall (fun e => snd e <> PNotProphet) entries /\
    dict_get "M01AE" entries = Some (PProphet demo_prophet).
Proof.
  destruct (get_prophet_model_inv demo_env "D" "M01AE" demo_prophet eq_refl)
    as (pkl_path & entries & H).
  exists pkl_path, entries. split; [reflexivity | exact H].
Defined.

(** The loader has two kinds of failure: [FileNotFoundError] exactly when the
    frequency has a bundle name and that file does not exist, and
    [ValueError] for everything else (no bundle for the frequency, a bundle
    that does not load or is not a dictionary of Prophet models, no entry
    for the category). *)
Theorem get_prophet_model_errors (E : Env) (freq cat : string) (e : exn) :
  _get_prophet_model E freq cat = Raise e ->
  (exists pkl_path,
     model_map freq = Some pkl_path /\ prophet_file E pkl_path = None /\
     e = FileNotFoundError (String.append "Prophet model file not found: " pkl_path)) \/
  ((forall pkl_path, model_map freq = Some pkl_path ->
                     prophet_file E pkl_path <> None) /\
   exists msg, e = ValueError msg).
Proof.
  unfold _get_prophet_model, _load_prophet_models_dict.
  destruct (model_map freq) as [pkl_path |] eqn:Hmap.
  - destruct (prophet_file E pkl_path) as [loaded |] eqn:Hfile.
    + intros H. right. split.
      { intros p Hp. injection Hp as <-. congruence. }
      destruct (bind loaded check_bundle) as [models | e'].
      * cbn [bind] in H. destruct (dict_get cat models); [discriminate |].
        injection H as <-. eauto.
      * cbn [bind] in H. injection H as <-. eauto.
    + cbn [bind]. intros H. injection H as <-. left. exists pkl_path. auto.
  - cbn [bind]. intros H. injection H as <-. right. split; [discriminate | eauto].
Qed.

Lemma get_prophet_model_errors_witness :
  exists pkl_path,
    _get_prophet_model demo_env "W" "M01AE" =
    Raise (FileNotFoundError "Prophet model file not found: weekly_prophet.pkl") /\
    model_map "W" = Some pkl_path /\ prophet_file demo_env pkl_path = None.
Proof.
  destruct (get_prophet_model_errors demo_env "W" "M01AE"
              (FileNotFoundError "Prophet model file not found: weekly_prophet.pkl")
              eq_refl)
    as [(p & H1 & H2 & _) | (_ & msg & Hmsg)]; [| discriminate Hmsg].
  exists p. split; [reflexivity |]. split; assumption.
Defined.

(** ** The validator: sampling and validity *)

(** Only the first five records are examined: whatever follows them, valid
    or not, changes neither the verdict nor the report. *)
Theorem validate_first_five (records extra : list record) :
  (5 <= List.length records)%nat ->
  validate_data_format (DList (records ++ extra)) =
  validate_data_format (DList records).
Proof.
  intros Hlen.
  assert (Hf : firstn 5 (records ++ extra) = firstn 5 records).
  { rewrite firstn_app. replace (5 - List.length records)%nat with 0%nat by lia.
    cbn [firstn]. apply app_nil_r. }
  destruct records as [| r t]; [cbn in Hlen; lia |].
  change ((r :: t) ++ extra) with (r :: (t ++ extra)).
  unfold validate_data_format. rewrite !firstn_min_length.
  change (r :: (t ++ extra)) with ((r :: t) ++ extra). now rewrite Hf.
Qed.

Lemma validate_first_five_witness :
  validate_data_format (DList six_records) = Ok (true, []).
Proof.
  change six_records with (repeat good_record 5 ++ [RNotDict]).
  rewrite validate_first_five; [reflexivity | cbn; lia].
Defined.

Lemma flat_map_nil {A B : Type} (f : A -> list B) (l : list A) :
  flat_map f l = [] <-> Forall (fun a => f a = []) l.
Proof.
  induction l as [| a t IH]; cbn [flat_map].
  - split; [constructor | reflexivity].
  - split.
    + intros H. apply app_eq_nil in H as [Ha Ht]. constructor; [exact Ha |].
      now apply IH.
    + intros H. inversion H as [| ? ? Ha Ht]; subst. rewrite Ha. now apply IH.
Qed.

Lemma record_errors_nil (i : nat) (r : record) :
  float_fails r = false /\ record_errors i r = [] <-> record_ok r.
Proof.
  destruct r as [fields |].
  2: { split; [intros [_ H]; discriminate | intros (f & Hf & _); discriminate]. }
  unfold float_fails, record_errors, record_ok, missing_errors, date_errors,
    numeric_errors, float_ok.
  split.
  - intros [Hfail H]. apply app_eq_nil in H as [Hm H]. apply app_eq_nil in H as [Hd Hn].
    exists fields. split; [reflexivity |].
    rewrite flat_map_nil, Forall_forall in Hm, Hn. split; [| split].
    + intros col Hcol Hnone. specialize (Hm col Hcol). rewrite Hnone in Hm.
      discriminate.
    + intros v Hv. rewrite Hv in Hd. destruct (date_ok v); [reflexivity | discriminate].
    + intros field v Hf Hv. specialize (Hn field Hf). rewrite Hv in Hn.
      destruct (to_float v) as [value | | msg] eqn:Ev; [reflexivity | discriminate |].
      exfalso. apply not_true_iff_false in Hfail. apply Hfail.
      apply existsb_exists. exists field. split; [exact Hf |]. now rewrite Hv, Ev.
  - intros (f & Hf & Hreq & Hdate & Hnum). injection Hf as <-.
    assert (Hm : flat_map (fun col => match dict_get col fields with
                                      | None => [msg_missing i col]
                                      | Some _ => []
                                      end) required_columns = []).
    { apply flat_map_nil, Forall_forall. intros col Hcol.
      specialize (Hreq col Hcol). now destruct (dict_get col fields). }
    assert (Hn : flat_map (fun field => match dict_get field fields with
                                        | Some v => match to_float v with
                                                    | Rejected => [msg_numeric i field v]
                                                    | _ => []
                                                    end
                                        | None => []
                                        end) numeric_fields = []).
    { apply flat_map_nil, Forall_forall. intros field Hfield.
      destruct (dict_get field fields) as [v |] eqn:Hv; [| reflexivity].
      specialize (Hnum field v Hfield Hv).
      destruct (to_float v); [reflexivity | discriminate | reflexivity]. }
    split.
    + apply not_true_iff_false. intros H. apply existsb_exists in H as (field & Hfield & H).
      destruct (dict_get field fields) as [v |] eqn:Hv; [| discriminate].
      specialize (Hnum field v Hfield Hv).
      destruct (to_float v); discriminate.
    + rewrite Hm, Hn. cbn [app].
      destruct (dict_get "date" fields) as [v |]; [| reflexivity].
      now rewrite (Hdate v eq_refl).
Qed.

Lemma enumerated_errors_nil (sample : list record) :
  forall i,
    existsb float_fails sample = false /\
    flat_map (fun '(j, r) => record_errors j r)
             (combine (List.seq i (List.length sample)) sample) = [] <->
    Forall record_ok sample.
Proof.
  induction sample as [| r t IH]; intros i;
    cbn [List.length List.seq combine flat_map existsb].
  - split; [constructor | now split].
  - split.
    + intros [Hf H]. apply orb_false_iff in Hf as [Hfr Hft].
      apply app_eq_nil in H as [Hr Ht]. constructor.
      * now apply (record_errors_nil i).
      * now apply (IH (S i)).
    + intros H. inversion H as [| ? ? Hr Ht]; subst.
      apply (record_errors_nil i) in Hr as [Hfr Hr].
      apply (IH (S i)) in Ht as [Hft Ht].
      rewrite Hfr, Hft, Hr, Ht. now split.
Qed.

(** A non-empty list of records is declared valid exactly when each of its
    first five records is a dictionary that has every required column, a
    date that parses and numeric fields that convert; whenever a verdict is
    returned, it is true exactly when the report is empty; and no verdict is
    returned, but an exception raised, exactly when float() of a numeric
    field of a sampled record ends with an exception other than ValueError
    and TypeError. *)
Theorem validate_valid_iff (records : list record) :
  records <> [] ->
  ((exists errors, validate_data_format (DList records) = Ok (true, errors)) <->
   Forall record_ok (firstn 5 records)) /\
  (forall valid errors,
     validate_data_format (DList records) = Ok (valid, errors) ->
     (valid = true <-> errors = [])) /\
  ((exists e, validate_data_format (DList records) = Raise e) <->
   existsb float_fails (firstn 5 records) = true).
Proof.
  intros Hne. destruct records as [| r t]; [congruence |].
  assert (Hlen : forall errs : list string,
             (List.length errs =? 0)%nat = true <-> errs = []).
  { intros errs. rewrite Nat.eqb_eq. apply length_zero_iff_nil. }
  unfold validate_data_format. rewrite firstn_min_length.
  destruct (existsb float_fails (firstn 5 (r :: t))) eqn:Hf.
  - destruct (check_records_raises _ 0 [] Hf) as [msg ->]. cbn [bind].
    split; [| split].
    + split; [intros [errors H]; discriminate |].
      intros H. apply (enumerated_errors_nil _ 0) in H as [H _]. congruence.
    + discriminate.
    + split; [reflexivity | eauto].
  - rewrite check_records_appends by exact Hf. cbn [bind app].
    split; [| split].
    + split.
      * intros [errors H]. injection H as H _. apply Hlen in H.
        apply (enumerated_errors_nil _ 0). now split.
      * intros H. apply (enumerated_errors_nil _ 0) in H as [_ H].
        rewrite H. now exists [].
    + intros valid errors H. injection H as <- <-. apply Hlen.
    + split; [intros [e H]; discriminate | discriminate].
Qed.

Lemma validate_valid_iff_witness :
  six_records <> [] /\
  validate_data_format (DList six_records) = Ok (true, []) /\
  Forall record_ok (firstn 5 six_records).
Proof.
  assert (Hne : six_records <> []) by discriminate.
  split; [exact Hne |]. split; [reflexivity |].
  apply (proj1 (validate_valid_iff six_records Hne)). now exists [].
Defined.

(** * Properties of the cleaner and of the outlier detection *)

(** ** Dictionaries *)

Lemma dict_get_set {V : Type} (k k' : string) (v : V) (d : list (string * V)) :
  dict_get k' (dict_set k v d) = if String.eqb k' k then Some v else dict_get k' d.
Proof.
  induction d as [| [k0 v0] t IH]; [reflexivity |].
  cbn [dict_set]. destruct (String.eqb k k0) eqn:Ek.
  - apply String.eqb_eq in Ek. subst k0. cbn [dict_get].
    now destruct (String.eqb k' k).
  - cbn [dict_get]. rewrite IH. destruct (String.eqb k' k0) eqn:E0; [| reflexivity].
    apply String.eqb_eq in E0. subst k0. rewrite String.eqb_sym in Ek. now rewrite Ek.
Qed.

Lemma dict_get_set_same {V : Type} (k : string) (v : V) (d : list (string * V)) :
  dict_get k (dict_set k v d) = Some v.
Proof.
  now rewrite dict_get_set, String.eqb_refl.
Qed.

Lemma dict_set_keeps {V : Type} (k k' : string) (v : V) (d : list (string * V)) :
  dict_get k' d <> None -> dict_get k' (dict_set k v d) <> None.
Proof.
  intros H. rewrite dict_get_set. now destruct (String.eqb k' k).
Qed.

(** ** Standard text *)

Lemma lower_ascii_idem (c : ascii) : lower_ascii (lower_ascii c) = lower_ascii c.
Proof.
  destruct c as [[] [] [] [] [] [] [] []]; reflexivity.
Qed.

Lemma is_space_lower (c : ascii) : is_space (lower_ascii c) = is_space c.
Proof.
  destruct c as [[] [] [] [] [] [] [] []]; reflexivity.
Qed.

Lemma lower_idem (s : string) : lower (lower s) = lower s.
Proof.
  induction s as [| c t IH]; [reflexivity |].
  cbn [lower]. now rewrite lower_ascii_idem, IH.
Qed.

Lemma lstrip_lower (s : string) : lstrip (lower s) = lower (lstrip s).
Proof.
  induction s as [| c t IH]; [reflexivity |].
  cbn [lower lstrip]. rewrite is_space_lower.
  destruct (is_space c); [exact IH | reflexivity].
Qed.

Lemma rstrip_lower (s : string) : rstrip (lower s) = lower (rstrip s).
Proof.
  induction s as [| c t IH]; [reflexivity |].
  cbn [lower rstrip]. rewrite IH, is_space_lower.
  destruct (rstrip t) as [| a u]; cbn [lower].
  - now destruct (is_space c).
  - reflexivity.
Qed.

Lemma rstrip_idem (s : string) : rstrip (rstrip s) = rstrip s.
Proof.
  induction s as [| c t IH]; [reflexivity |].
  cbn [rstrip]. destruct (rstrip t) as [| a u] eqn:Et.
  - destruct (is_space c) eqn:Ec; [reflexivity |].
    cbn [rstrip]. now rewrite Ec.
  - cbn [rstrip] in *. now rewrite IH.
Qed.

Lemma rstrip_head (c : ascii) (t : string) :
  is_space c = false -> rstrip (String c t) = String c (rstrip t).
Proof.
  intros Hc. cbn [rstrip]. destruct (rstrip t); [now rewrite Hc | reflexivity].
Qed.

Lemma lstrip_head (s : string) :
  lstrip s = EmptyString \/
  exists c t, lstrip s = String c t /\ is_space c = false.
Proof.
  induction s as [| c t IH]; [now left |].
  cbn [lstrip]. destruct (is_space c) eqn:Ec; [exact IH |].
  right. now exists c, t.
Qed.

Lemma strip_idem (s : string) : strip (strip s) = strip s.
Proof.
  unfold strip. destruct (lstrip_head s) as [E | (c & t & E & Hc)]; rewrite E.
  - reflexivity.
  - rewrite (rstrip_head c t Hc). cbn [lstrip]. rewrite Hc.
    rewrite <- (rstrip_head c t Hc). apply rstrip_idem.
Qed.

Lemma strip_lower (s : string) : strip (lower s) = lower (strip s).
Proof.
  unfold strip. now rewrite lstrip_lower, rstrip_lower.
Qed.

Lemma standard_text_lower_strip (s : string) :
  standard_text (CVText (lower (strip s))).
Proof.
  exists (lower (strip s)). split; [reflexivity |]. split.
  - now rewrite strip_lower, strip_idem.
  - apply lower_idem.
Qed.

(** ** What a cleaned record holds *)

Lemma well_typed_set (k : string) (v : clean_value) (cleaned : cleaned_record) :
  well_typed cleaned -> field_ok k v -> well_typed (dict_set k v cleaned).
Proof.
  intros Hc Hv k' v' H. rewrite dict_get_set in H.
  destruct (String.eqb k' k) eqn:E.
  - apply String.eqb_eq in E. subst k'. now injection H as <-.
  - now apply Hc.
Qed.

Lemma well_typed_nil : well_typed [].
Proof.
  intros k v H. discriminate.
Qed.

Lemma numeric_not_string (field : string) :
  In field numeric_fields -> ~ In field string_fields.
Proof.
  intros H Hs. cbn in H, Hs.
  repeat (destruct H as [<- | H]; [repeat (destruct Hs as [Hs | Hs]; try discriminate); contradiction |]).
  contradiction.
Qed.

Lemma py_max2_zero_nonneg (value : pyfloat) :
  nonneg_number (CVNum (py_max2 (Num 0) value)).
Proof.
  unfold py_max2, fgt, flt. destruct value as [| x].
  - exists 0%Q. split; [reflexivity | lra].
  - unfold Qlt_bool. destruct (Qle_bool x 0) eqn:E; cbn [negb].
    + exists 0%Q. split; [reflexivity | lra].
    + exists x. split; [reflexivity |]. apply Qle_bool_false in E. lra.
Qed.

Lemma zero_nonneg : nonneg_number (CVNum (Num 0)).
Proof.
  exists 0%Q. split; [reflexivity | lra].
Qed.

Lemma field_ok_number (field : string) (v : clean_value) :
  ~ In field string_fields -> nonneg_number v -> field_ok field v.
Proof.
  intros Hs Hv. split; [now intros _ | intros H; contradiction].
Qed.

Lemma field_ok_text (field : string) (v : clean_value) :
  ~ In field numeric_fields -> standard_text v -> field_ok field v.
Proof.
  intros Hs Hv. split; [intros H; contradiction | now intros _].
Qed.

Lemma field_ok_date (v : clean_value) : field_ok "date" v.
Proof.
  split; intros H; cbn in H;
    repeat (destruct H as [H | H]; try discriminate); contradiction.
Qed.

Lemma clean_numeric_typed (i : nat) (record : raw_record) (fields : list string) :
  (forall field, In field fields -> ~ In field string_fields) ->
  forall cleaned warnings cleaned' warnings' o,
    well_typed cleaned ->
    clean_numeric i record fields cleaned warnings = (cleaned', warnings', o) ->
    well_typed cleaned'.
Proof.
  induction fields as [| field rest IH]; intros Hf cleaned warnings cleaned' warnings' o Hc H.
  - cbn in H. now injection H as <- _ _.
  - assert (Hrest : forall f, In f rest -> ~ In f string_fields)
      by (intros f Hin; apply Hf; now right).
    assert (Hfield : ~ In field string_fields) by (apply Hf; now left).
    cbn [clean_numeric] in H.
    destruct (dict_get field record) as [v |]; [| now apply (IH Hrest) in H].
    destruct (as_float v) as [value | | msg].
    + apply (IH Hrest) in H; [exact H |].
      apply well_typed_set; [exact Hc |].
      apply field_ok_number; [exact Hfield | apply py_max2_zero_nonneg].
    + apply (IH Hrest) in H; [exact H |].
      apply well_typed_set; [exact Hc |].
      apply field_ok_number; [exact Hfield | apply zero_nonneg].
    + now injection H as <- _ _.
Qed.

Lemma clean_string_typed (record : raw_record) (fields : list string) :
  (forall field, In field fields -> ~ In field numeric_fields) ->
  forall cleaned,
    well_typed cleaned ->
    well_typed (fold_left (clean_string record) fields cleaned).
Proof.
  induction fields as [| field rest IH]; intros Hf cleaned Hc; [exact Hc |].
  cbn [fold_left]. apply IH; [intros f Hin; apply Hf; now right |].
  unfold clean_string. destruct (dict_get field record) as [v |]; [| exact Hc].
  apply well_typed_set; [exact Hc |].
  apply field_ok_text; [apply Hf; now left | apply standard_text_lower_strip].
Qed.

Lemma ensure_required_typed (fields : list string) :
  (forall field, In field fields -> In field required_columns) ->
  forall cleaned,
    well_typed cleaned ->
    well_typed (fold_left ensure_required fields cleaned).
Proof.
  induction fields as [| field rest IH]; intros Hf cleaned Hc; [exact Hc |].
  cbn [fold_left]. apply IH; [intros f Hin; apply Hf; now right |].
  unfold ensure_required. destruct (dict_get field cleaned); [exact Hc |].
  assert (Hin : In field required_columns) by (apply Hf; now left).
  cbn in Hin. destruct Hin as [<- | [<- | [<- | [<- | []]]]]; cbn [String.eqb Ascii.eqb Bool.eqb];
    apply well_typed_set; try exact Hc.
  - apply field_ok_date.
  - apply field_ok_number; [| apply zero_nonneg].
    intros H. cbn in H. repeat (destruct H as [H | H]; try discriminate); contradiction.
  - apply field_ok_text.
    + intros H. cbn in H. repeat (destruct H as [H | H]; try discriminate); contradiction.
    + exists "unknown". now repeat split.
  - apply field_ok_text.
    + intros H. cbn in H. repeat (destruct H as [H | H]; try discriminate); contradiction.
    + exists "unknown". now repeat split.
Qed.

Lemma ensure_required_present (fields : list string) :
  forall cleaned col,
    In col fields \/ dict_get col cleaned <> None ->
    dict_get col (fold_left ensure_required fields cleaned) <> None.
Proof.
  induction fields as [| field rest IH]; intros cleaned col H.
  - destruct H as [[] | H]. exact H.
  - cbn [fold_left]. apply IH.
    destruct (string_dec col field) as [-> | Hne].
    + right. unfold ensure_required.
      destruct (dict_get field cleaned) eqn:E; [now rewrite E |].
      destruct (String.eqb field "sales"); rewrite dict_get_set_same; discriminate.
    + destruct H as [[H | H] | H]; [congruence | now left |].
      right. unfold ensure_required.
      destruct (dict_get field cleaned); [exact H |].
      destruct (String.eqb field "sales"); now apply dict_set_keeps.
Qed.

(** The cleaned record of a record that is kept. *)
Lemma clean_record_kept (now : nat -> string) (i : nat) (record : raw_record)
  (warnings : list string) (cleaned : cleaned_record) (warnings' : list string) :
  clean_record now i record warnings = (Some cleaned, warnings') ->
  well_typed cleaned /\ has_required cleaned.
Proof.
  unfold clean_record. intros H.
  set (start := match dict_get "date" record with
                | Some v =>
                    match as_date v with
                    | Some d => (dict_set "date" (CVText d) [], warnings)
                    | None => (dict_set "date" (CVText (now i)) [],
                               warnings ++ [msg_invalid_date i])
                    end
                | None => ([], warnings)
                end) in H.
  assert (Hstart : well_typed (fst start)).
  { unfold start. destruct (dict_get "date" record) as [v |]; [| apply well_typed_nil].
    destruct (as_date v); cbn [fst];
      (apply well_typed_set; [apply well_typed_nil | apply field_ok_date]). }
  destruct start as [c0 w0]. cbn [fst] in Hstart.
  destruct (clean_numeric i record numeric_fields c0 w0) as [[c1 w1] [msg |]] eqn:En;
    [discriminate |].
  assert (Hcleaned : cleaned =
            fold_left ensure_required required_columns
              (let c2 := fold_left (clean_string record) string_fields c1 in
               match dict_get "sales" c2, dict_get "revenue" c2 with
               | None, Some revenue => dict_set "sales" revenue c2
               | _, _ => c2
               end)) by (injection H as H _; symmetry; exact H).
  clear H. subst cleaned.
  apply clean_numeric_typed in En; [| apply numeric_not_string | exact Hstart].
  split.
  - apply ensure_required_typed; [now intros f Hf |].
    set (c2 := fold_left (clean_string record) string_fields c1).
    cbv zeta.
    assert (H2 : well_typed c2).
    { apply clean_string_typed; [| exact En].
      intros f Hf Hn. now apply (numeric_not_string f). }
    destruct (dict_get "sales" c2); [exact H2 |].
    destruct (dict_get "revenue" c2) as [revenue |] eqn:Er; [| exact H2].
    apply well_typed_set; [exact H2 |].
    apply field_ok_number.
    + intros Hs. cbn in Hs. repeat (destruct Hs as [Hs | Hs]; try discriminate); contradiction.
    + apply (H2 "revenue" revenue Er). cbn. tauto.
  - intros col Hcol. apply ensure_required_present. now left.
Qed.

(** ** Which records are kept *)

Lemma clean_numeric_outcome (i : nat) (record : raw_record) (fields : list string) :
  forall cleaned warnings cleaned' warnings' o,
    clean_numeric i record fields cleaned warnings = (cleaned', warnings', o) ->
    (o = None <->
     existsb (fun field => match dict_get field record with
                           | Some v => match as_float v with
                                       | Failed _ => true
                                       | _ => false
                                       end
                           | None => false
                           end) fields = false).
Proof.
  induction fields as [| field rest IH]; intros cleaned warnings cleaned' warnings' o H.
  - cbn in H. injection H as _ _ <-. now split.
  - cbn [clean_numeric] in H. cbn [existsb].
    destruct (dict_get field record) as [v |]; [| now apply IH in H].
    destruct (as_float v) as [value | | msg]; try now apply IH in H.
    injection H as _ _ <-. cbn [orb]. split; discriminate.
Qed.

Lemma clean_record_outcome (now : nat -> string) (i : nat) (record : raw_record)
  (warnings : list string) :
  (exists cleaned, fst (clean_record now i record warnings) = Some cleaned) <->
  conversion_fails record = false.
Proof.
  unfold clean_record, conversion_fails.
  destruct (match dict_get "date" record with
            | Some v =>
                match as_date v with
                | Some d => (dict_set "date" (CVText d) [], warnings)
                | None => (dict_set "date" (CVText (now i)) [],
                           warnings ++ [msg_invalid_date i])
                end
            | None => ([], warnings)
            end) as [c0 w0].
  destruct (clean_numeric i record numeric_fields c0 w0) as [[c1 w1] o] eqn:En.
  apply clean_numeric_outcome in En. rewrite <- En.
  destruct o as [msg |]; cbn [fst]; split.
  - intros (c & Hc). discriminate.
  - discriminate.
  - reflexivity.
  - intros _. eauto.
Qed.

Lemma clean_records_kept (now : nat -> string) (data : list raw_record) :
  forall i cleaned_data warnings,
    List.length (fst (clean_records now i data cleaned_data warnings)) =
    (List.length cleaned_data +
     List.length (filter (fun record => negb (conversion_fails record)) data))%nat.
Proof.
  induction data as [| record rest IH]; intros i cleaned_data warnings.
  - cbn. lia.
  - cbn [clean_records filter].
    pose proof (clean_record_outcome now i record warnings) as Ho.
    destruct (clean_record now i record warnings) as [[cleaned |] w] eqn:Er;
      cbn [fst] in Ho.
    + rewrite IH, length_app. cbn [List.length].
      replace (conversion_fails record) with false by (symmetry; apply Ho; eauto).
      cbn [negb List.length]. lia.
    + rewrite IH.
      destruct (conversion_fails record); [reflexivity |].
      destruct (proj2 Ho eq_refl) as (c & Hc). discriminate.
Qed.

Lemma clean_records_Forall (P : cleaned_record -> Prop) (now : nat -> string) :
  (forall i record warnings cleaned warnings',
      clean_record now i record warnings = (Some cleaned, warnings') -> P cleaned) ->
  forall data i cleaned_data warnings,
    Forall P cleaned_data ->
    Forall P (fst (clean_records now i data cleaned_data warnings)).
Proof.
  intros HP. induction data as [| record rest IH]; intros i cleaned_data warnings Hacc;
    [exact Hacc |].
  cbn [clean_records].
  destruct (clean_record now i record warnings) as [[cleaned |] w] eqn:Er.
  - apply IH. apply Forall_app. split; [exact Hacc |].
    constructor; [| constructor]. exact (HP _ _ _ _ _ Er).
  - now apply IH.
Qed.

(** ** Warnings *)

Lemma clean_numeric_warnings (i : nat) (record : raw_record) (fields : list string) :
  forall cleaned warnings cleaned' warnings' o,
    clean_numeric i record fields cleaned warnings = (cleaned', warnings', o) ->
    exists added,
      warnings' = warnings ++ added /\
      ((added = [] /\ o = None) <->
       forall field, In field fields -> numeric_tidy record field).
Proof.
  induction fields as [| field rest IH]; intros cleaned warnings cleaned' warnings' o H.
  - cbn in H. injection H as _ <- <-. exists []. rewrite app_nil_r.
    split; [reflexivity |]. split; [intros _ f [] | now intros _].
  - cbn [clean_numeric] in H.
    destruct (dict_get field record) as [v |] eqn:Ev.
    2:{ apply IH in H. destruct H as (added & -> & Hiff). exists added.
        split; [reflexivity |]. rewrite Hiff. split.
        - intros Hr f [<- | Hf]; [| now apply Hr].
          intros v Hv. congruence.
        - intros Hr f Hf. apply Hr. now right. }
    destruct (as_float v) as [value | | msg] eqn:Ef.
    + destruct (flt value (Num 0)) eqn:Eneg.
      * apply IH in H. destruct H as (added & -> & _).
        exists (msg_negative field i :: added). rewrite <- app_assoc.
        split; [reflexivity |]. split; [intros [Hd _]; discriminate |].
        intros Hr. destruct (Hr field (or_introl eq_refl) v Ev) as (x & Hx & Hneg).
        congruence.
      * apply IH in H. destruct H as (added & -> & Hiff). exists added.
        split; [reflexivity |]. rewrite Hiff. split.
        -- intros Hr f [<- | Hf]; [| now apply Hr].
           intros v' Hv'. exists value. split; congruence.
        -- intros Hr f Hf. apply Hr. now right.
    + apply IH in H. destruct H as (added & -> & _).
      exists (msg_invalid field i :: added). rewrite <- app_assoc.
      split; [reflexivity |]. split; [intros [Hd _]; discriminate |].
      intros Hr. destruct (Hr field (or_introl eq_refl) v Ev) as (x & Hx & _).
      congruence.
    + injection H as _ <- <-. exists []. rewrite app_nil_r.
      split; [reflexivity |]. split; [intros [_ Hd]; discriminate |].
      intros Hr. destruct (Hr field (or_introl eq_refl) v Ev) as (x & Hx & _).
      congruence.
Qed.

Lemma clean_record_warnings (now : nat -> string) (i : nat) (record : raw_record)
  (warnings : list string) :
  exists added,
    snd (clean_record now i record warnings) = warnings ++ added /\
    (added = [] <-> tidy record).
Proof.
  unfold clean_record, tidy.
  destruct (dict_get "date" record) as [v |] eqn:Ev; [destruct (as_date v) as [d |] eqn:Ed |].
  - destruct (clean_numeric i record numeric_fields _ warnings) as [[c1 w1] o] eqn:En.
    apply clean_numeric_warnings in En. destruct En as (added & -> & Hiff).
    destruct o as [msg |]; cbn [snd].
    + exists (added ++ [msg_error i msg]). rewrite app_assoc. split; [reflexivity |].
      split.
      * intros H. apply app_eq_nil in H. destruct H as [_ H]. discriminate.
      * intros [_ Hr]. apply Hiff in Hr. destruct Hr as [_ Hr]. discriminate.
    + exists added. split; [reflexivity |]. split.
      * intros ->. split; [| now apply Hiff].
        intros v' Hv'. congruence.
      * intros [_ Hr]. now apply Hiff in Hr.
  - destruct (clean_numeric i record numeric_fields _ _) as [[c1 w1] o] eqn:En.
    apply clean_numeric_warnings in En. destruct En as (added & -> & Hiff).
    destruct o as [msg |]; cbn [snd].
    + exists (msg_invalid_date i :: added ++ [msg_error i msg]).
      rewrite <- !app_assoc. split; [reflexivity |].
      split; [discriminate |]. intros [Hd _]. now destruct (Hd v eq_refl).
    + exists (msg_invalid_date i :: added).
      rewrite <- !app_assoc. split; [reflexivity |].
      split; [discriminate |]. intros [Hd _]. now destruct (Hd v eq_refl).
  - destruct (clean_numeric i record numeric_fields _ warnings) as [[c1 w1] o] eqn:En.
    apply clean_numeric_warnings in En. destruct En as (added & -> & Hiff).
    destruct o as [msg |]; cbn [snd].
    + exists (added ++ [msg_error i msg]). rewrite app_assoc. split; [reflexivity |].
      split.
      * intros H. apply app_eq_nil in H. destruct H as [_ H]. discriminate.
      * intros [_ Hr]. apply Hiff in Hr. destruct Hr as [_ Hr]. discriminate.
    + exists added. split; [reflexivity |]. split.
      * intros ->. split; [discriminate | now apply Hiff].
      * intros [_ Hr]. now apply Hiff in Hr.
Qed.

Lemma clean_records_warnings (now : nat -> string) (data : list raw_record) :
  forall i cleaned_data warnings,
  exists added,
    snd (clean_records now i data cleaned_data warnings) = warnings ++ added /\
    (added = [] <-> Forall tidy data).
Proof.
  induction data as [| record rest IH]; intros i cleaned_data warnings.
  - exists []. cbn. rewrite app_nil_r. split; [reflexivity |]. split; [constructor | reflexivity].
  - cbn [clean_records].
    destruct (clean_record_warnings now i record warnings) as (a1 & H1 & Hiff1).
    destruct (clean_record now i record warnings) as [[cleaned |] w]; cbn [snd] in H1; subst w.
    + destruct (IH (S i) (cleaned_data ++ [cleaned]) (warnings ++ a1)) as (a2 & -> & Hiff2).
      exists (a1 ++ a2). rewrite app_assoc. split; [reflexivity |]. split.
      * intros H. apply app_eq_nil in H. destruct H as [Ha1 Ha2].
        constructor; [now apply Hiff1 | now apply Hiff2].
      * intros H. inversion H as [| r l Hr Hl]; subst.
        apply Hiff1 in Hr. apply Hiff2 in Hl. now subst.
    + destruct (IH (S i) cleaned_data (warnings ++ a1)) as (a2 & -> & Hiff2).
      exists (a1 ++ a2). rewrite app_assoc. split; [reflexivity |]. split.
      * intros H. apply app_eq_nil in H. destruct H as [Ha1 Ha2].
        constructor; [now apply Hiff1 | now apply Hiff2].
      * intros H. inversion H as [| r l Hr Hl]; subst.
        apply Hiff1 in Hr. apply Hiff2 in Hl. now subst.
Qed.

Lemma tidy_not_failing (record : raw_record) :
  tidy record -> conversion_fails record = false.
Proof.
  intros [_ Hn]. unfold conversion_fails.
  apply not_true_iff_false. intros H. apply existsb_exists in H.
  destruct H as (field & Hin & H).
  destruct (dict_get field record) as [v |] eqn:Ev; [| discriminate].
  destruct (Hn field Hin v Ev) as (x & Hx & _). rewrite Hx in H. discriminate.
Qed.

Lemma tidy_raw_tidy : tidy tidy_raw.
Proof.
  split.
  - intros v H. cbn in H. injection H as <-. discriminate.
  - intros field Hin v H. cbn in Hin.
    destruct Hin as [<- | [<- | [<- | [<- | [<- | []]]]]]; cbn in H; try discriminate.
    injection H as <-. exists (Num (241 # 2)). split; reflexivity.
Qed.

Lemma clean_data_typed (now : nat -> string) (data : list raw_record) :
  Forall (fun cleaned => well_typed cleaned /\ has_required cleaned)
    (fst (clean_data now data)).
Proof.
  apply clean_records_Forall; [| constructor].
  intros i record warnings cleaned warnings' H. now apply clean_record_kept in H.
Qed.

Lemma cleaned_sales (cleaned : cleaned_record) :
  well_typed cleaned -> has_required cleaned ->
  exists q, dict_get "sales" cleaned = Some (CVNum (Num q)) /\ (0 <= q)%Q.
Proof.
  intros Ht Hr. destruct (dict_get "sales" cleaned) as [v |] eqn:Ev.
  - destruct (proj1 (Ht "sales" v Ev) (or_introl eq_refl)) as (q & -> & Hq).
    now exists q.
  - exfalso. apply (Hr "sales"); [cbn; tauto | exact Ev].
Qed.

(** ** The cleaner *)

(** Every record the cleaner returns has the four required columns
    [date], [sales], [product] and [region], whatever the raw record held;
    and the cleaner returns one record for each raw record except those in
    which the conversion of a numeric field ends with an exception other
    than ValueError and TypeError. *)
Theorem clean_data_required_columns (now : nat -> string) (data : list raw_record) :
  Forall has_required (fst (clean_data now data)) /\
  List.length (fst (clean_data now data)) =
  List.length (filter (fun record => negb (conversion_fails record)) data).
Proof.
  split.
  - apply Forall_impl with (2 := clean_data_typed now data). now intros c [_ H].
  - unfold clean_data. now rewrite clean_records_kept.
Qed.

Lemma clean_data_required_columns_witness :
  Forall has_required (fst (clean_data today raw_data)) /\
  List.length (fst (clean_data today raw_data)) = 2%nat.
Proof.
  exact (clean_data_required_columns today raw_data).
Defined.

(** In every record the cleaner returns, [sales] is a number that is
    not negative and not NaN, and so is every other numeric field the record
    has ([volume], [price], [units], [revenue]). *)
Theorem clean_data_numbers (now : nat -> string) (data : list raw_record)
  (cleaned : cleaned_record) :
  In cleaned (fst (clean_data now data)) ->
  (exists q, dict_get "sales" cleaned = Some (CVNum (Num q)) /\ (0 <= q)%Q) /\
  (forall field v, In field numeric_fields -> dict_get field cleaned = Some v ->
                   nonneg_number v).
Proof.
  intros Hin.
  pose proof (clean_data_typed now data) as H.
  rewrite Forall_forall in H. destruct (H cleaned Hin) as [Ht Hr].
  split; [now apply cleaned_sales |].
  intros field v Hf Hv. now apply (Ht field v Hv).
Qed.

Lemma clean_data_numbers_witness :
  (exists q, dict_get "sales"
               [("date", CVText "2024-06-01"); ("volume", CVNum (Num 0));
                ("revenue", CVNum (Num 0)); ("sales", CVNum (Num 0));
                ("product", CVText "unknown"); ("region", CVText "unknown")] =
             Some (CVNum (Num q)) /\ (0 <= q)%Q) /\
  (forall field v, In field numeric_fields ->
                   dict_get field
                     [("date", CVText "2024-06-01"); ("volume", CVNum (Num 0));
                      ("revenue", CVNum (Num 0)); ("sales", CVNum (Num 0));
                      ("product", CVText "unknown"); ("region", CVText "unknown")] =
                   Some v ->
                   nonneg_number v).
Proof.
  apply (clean_data_numbers today raw_data). vm_compute. right. left. reflexivity.
Defined.

(** In every record the cleaner returns, [product] and [region] are
    text in standard form: stripping white space or lowering the letters once
    more changes nothing. *)
Theorem clean_data_text (now : nat -> string) (data : list raw_record)
  (cleaned : cleaned_record) (field : string) :
  In cleaned (fst (clean_data now data)) ->
  In field string_fields ->
  exists s, dict_get field cleaned = Some (CVText s) /\ strip s = s /\ lower s = s.
Proof.
  intros Hin Hf.
  pose proof (clean_data_typed now data) as H.
  rewrite Forall_forall in H. destruct (H cleaned Hin) as [Ht Hr].
  destruct (dict_get field cleaned) as [v |] eqn:Ev.
  - destruct (proj2 (Ht field v Ev) Hf) as (s & -> & Hs). now exists s.
  - exfalso. apply (Hr field); [| exact Ev].
    cbn in Hf. destruct Hf as [<- | [<- | []]]; cbn; tauto.
Qed.

Lemma clean_data_text_witness :
  exists s, dict_get "product"
              [("date", CVText "2024-01-05"); ("sales", CVNum (Num (241 # 2)));
               ("product", CVText "aspirin"); ("region", CVText "north")] =
            Some (CVText s) /\ strip s = s /\ lower s = s.
Proof.
  apply (clean_data_text today raw_data).
  - vm_compute. left. reflexivity.
  - vm_compute. left. reflexivity.
Defined.

(** The cleaner raises no warning exactly when every raw record is
    tidy: its date, if it has one, can be parsed and formatted, and each
    numeric field it has converts to a number that is not negative. In that
    case no record is given up. *)
Theorem clean_data_no_warnings (now : nat -> string) (data : list raw_record) :
  (snd (clean_data now data) = [] <-> Forall tidy data) /\
  (snd (clean_data now data) = [] ->
   List.length (fst (clean_data now data)) = List.length data).
Proof.
  assert (Hiff : snd (clean_data now data) = [] <-> Forall tidy data).
  { unfold clean_data.
    destruct (clean_records_warnings now data 0 [] []) as (added & -> & Hiff).
    exact Hiff. }
  split; [exact Hiff |].
  intros H. apply Hiff in H.
  unfold clean_data. rewrite clean_records_kept. cbn [List.length Nat.add].
  f_equal. apply (filter_all tidy); [| exact H].
  intros record Ht. now rewrite (tidy_not_failing record Ht).
Qed.

Lemma clean_data_no_warnings_witness :
  snd (clean_data today [tidy_raw; tidy_raw]) = [] /\
  List.length (fst (clean_data today [tidy_raw; tidy_raw])) = 2%nat.
Proof.
  assert (H : snd (clean_data today [tidy_raw; tidy_raw]) = []).
  { apply (proj1 (clean_data_no_warnings today [tidy_raw; tidy_raw])).
    repeat constructor; apply tidy_raw_tidy. }
  split; [exact H |].
  exact (proj2 (clean_data_no_warnings today [tidy_raw; tidy_raw]) H).
Defined.

(** ** Sorted values and percentiles *)

Lemma insert_Q_In (x y : Q) (l : list Q) :
  In y (insert_Q x l) <-> y = x \/ In y l.
Proof.
  induction l as [| h t IH]; cbn [insert_Q].
  - cbn. intuition.
  - destruct (Qle_bool x h); cbn [In]; [intuition |].
    rewrite IH. intuition.
Qed.

Lemma sort_Q_In (y : Q) (l : list Q) : In y (sort_Q l) <-> In y l.
Proof.
  induction l as [| h t IH]; [reflexivity |].
  unfold sort_Q in *. cbn [fold_right]. rewrite insert_Q_In, IH. cbn. intuition.
Qed.

Lemma insert_Q_length (x : Q) (l : list Q) :
  List.length (insert_Q x l) = S (List.length l).
Proof.
  induction l as [| h t IH]; [reflexivity |].
  cbn [insert_Q]. destruct (Qle_bool x h); cbn [List.length]; [reflexivity |].
  now rewrite IH.
Qed.

Lemma sort_Q_length (l : list Q) : List.length (sort_Q l) = List.length l.
Proof.
  induction l as [| h t IH]; [reflexivity |].
  unfold sort_Q in *. cbn [fold_right]. rewrite insert_Q_length. cbn. now rewrite IH.
Qed.

Lemma insert_Q_sorted (x : Q) (l : list Q) :
  StronglySorted Qle l -> StronglySorted Qle (insert_Q x l).
Proof.
  induction 1 as [| h t Hs IH Hh]; cbn [insert_Q].
  - repeat constructor.
  - destruct (Qle_bool x h) eqn:E.
    + apply Qle_bool_iff in E. constructor; [now constructor |].
      constructor; [exact E |].
      apply Forall_impl with (P := Qle h); [| exact Hh].
      intros a Ha. now apply Qle_trans with h.
    + apply Qle_bool_false in E. constructor; [exact IH |].
      apply Forall_forall. intros y Hy. apply insert_Q_In in Hy.
      destruct Hy as [-> | Hy]; [now apply Qlt_le_weak |].
      rewrite Forall_forall in Hh. now apply Hh.
Qed.

Lemma sort_Q_sorted (l : list Q) : StronglySorted Qle (sort_Q l).
Proof.
  induction l as [| h t IH]; [constructor |].
  unfold sort_Q in *. cbn [fold_right]. now apply insert_Q_sorted.
Qed.

Lemma sorted_nth_le (s : list Q) :
  StronglySorted Qle s ->
  forall i j, (i <= j)%nat -> (j < List.length s)%nat ->
              (nth i s 0 <= nth j s 0)%Q.
Proof.
  induction 1 as [| h t Hs IH Hh]; intros i j Hij Hj; [cbn in Hj; lia |].
  destruct j as [| j].
  - replace i with 0%nat by lia. apply Qle_refl.
  - cbn [List.length] in Hj. destruct i as [| i]; cbn [nth].
    + rewrite Forall_forall in Hh. apply Hh. apply nth_In. lia.
    + apply IH; lia.
Qed.

(** Where a position between the first and the last one falls. *)
Lemma position_floor (n : nat) (virtual : Q) :
  (0 <= virtual)%Q -> (virtual <= inject_Z (Z.of_nat n))%Q ->
  (Z.to_nat (Qfloor virtual) <= n)%nat /\
  (0 <= Qfloor virtual)%Z /\
  (0 <= virtual - inject_Z (Qfloor virtual))%Q /\
  (virtual - inject_Z (Qfloor virtual) < 1)%Q.
Proof.
  intros H0 Hn.
  assert (Hk0 : (0 <= Qfloor virtual)%Z).
  { change 0%Z with (Qfloor 0). now apply Qfloor_resp_le. }
  assert (Hkn : (Qfloor virtual <= Z.of_nat n)%Z).
  { rewrite <- (Qfloor_Z (Z.of_nat n)). now apply Qfloor_resp_le. }
  pose proof (Qfloor_le virtual) as Hle.
  pose proof (Qlt_floor virtual) as Hlt.
  rewrite inject_Z_plus in Hlt. change (inject_Z 1) with 1%Q in Hlt.
  split; [lia |]. split; [exact Hk0 |]. split; lra.
Qed.

Section Interpolation.
Variable s : list Q.
Hypothesis s_sorted : StronglySorted Qle s.
Hypothesis s_nonempty : s <> [].

Lemma interpolate_between (virtual : Q) :
  (0 <= virtual)%Q -> (virtual <= inject_Z (Z.of_nat (List.length s - 1)))%Q ->
  (nth (Z.to_nat (Qfloor virtual)) s 0 <= interpolate s virtual)%Q /\
  (interpolate s virtual <=
   nth (Nat.min (Z.to_nat (Qfloor virtual) + 1) (List.length s - 1)) s 0)%Q.
Proof.
  intros H0 Hn.
  destruct (position_floor _ _ H0 Hn) as (Hk & _ & Hg0 & Hg1).
  assert (Hlen : (0 < List.length s)%nat) by (destruct s; [congruence | cbn; lia]).
  unfold interpolate.
  set (k := Z.to_nat (Qfloor virtual)) in *.
  set (gamma := (virtual - inject_Z (Qfloor virtual))%Q) in *.
  assert (Hab : (nth k s 0 <= nth (Nat.min (k + 1) (List.length s - 1)) s 0)%Q)
    by (apply sorted_nth_le; [exact s_sorted | lia | lia]).
  set (a := nth k s 0%Q) in *.
  set (b := nth (Nat.min (k + 1) (List.length s - 1)) s 0%Q) in *.
  assert (H1 : (0 <= (b - a) * gamma)%Q) by (apply Qmult_le_0_compat; lra).
  assert (H2 : (0 <= (b - a) * (1 - gamma))%Q) by (apply Qmult_le_0_compat; lra).
  split; lra.
Qed.

Lemma interpolate_mono (v1 v2 : Q) :
  (0 <= v1)%Q -> (v1 <= v2)%Q -> (v2 <= inject_Z (Z.of_nat (List.length s - 1)))%Q ->
  (interpolate s v1 <= interpolate s v2)%Q.
Proof.
  intros H0 H12 Hn.
  assert (Hlen : (0 < List.length s)%nat) by (destruct s; [congruence | cbn; lia]).
  destruct (position_floor _ v1 H0 (Qle_trans _ _ _ H12 Hn)) as (Hk1 & Hz1 & Hg1 & Hg1').
  destruct (position_floor _ v2 (Qle_trans _ _ _ H0 H12) Hn) as (Hk2 & Hz2 & Hg2 & Hg2').
  pose proof (Qfloor_resp_le _ _ H12) as Hk.
  destruct (Z.eq_dec (Qfloor v1) (Qfloor v2)) as [E | E].
  - unfold interpolate. rewrite <- E.
    set (k := Z.to_nat (Qfloor v1)) in *.
    assert (Hab : (nth k s 0 <= nth (Nat.min (k + 1) (List.length s - 1)) s 0)%Q)
      by (apply sorted_nth_le; [exact s_sorted | lia | lia]).
    set (a := nth k s 0%Q) in *.
    set (b := nth (Nat.min (k + 1) (List.length s - 1)) s 0%Q) in *.
    assert (H : (0 <= (b - a) * (v2 - v1))%Q) by (apply Qmult_le_0_compat; lra).
    lra.
  - destruct (interpolate_between v1 H0 (Qle_trans _ _ _ H12 Hn)) as [_ Hup].
    destruct (interpolate_between v2 (Qle_trans _ _ _ H0 H12) Hn) as [Hlow _].
    apply Qle_trans with (1 := Hup). apply Qle_trans with (2 := Hlow).
    apply sorted_nth_le; [exact s_sorted | lia | lia].
Qed.
End Interpolation.

Lemma finite_values_map (qs : list Q) : finite_values (map Num qs) = Some qs.
Proof.
  induction qs as [| q t IH]; [reflexivity |].
  cbn [map finite_values]. now rewrite IH.
Qed.

Lemma finite_values_inv (l : list pyfloat) (qs : list Q) :
  finite_values l = Some qs -> l = map Num qs.
Proof.
  revert qs. induction l as [| [| q] t IH]; intros qs H; cbn in H.
  - now injection H as <-.
  - discriminate.
  - destruct (finite_values t) as [qs' |]; [| discriminate].
    injection H as <-. cbn [map]. now rewrite (IH qs' eq_refl).
Qed.

Lemma percent_mono (p1 p2 : Q) : (p1 <= p2)%Q -> (p1 / 100 <= p2 / 100)%Q.
Proof.
  intros H. unfold Qdiv. change (/ 100)%Q with (1 # 100)%Q. lra.
Qed.

(** The position of the [q]-th percentile among [n] values. *)
Lemma percentile_position (n : nat) (q : Q) :
  (0 <= q)%Q -> (q <= 100)%Q ->
  (0 <= inject_Z (Z.of_nat n) * (q / 100))%Q /\
  (inject_Z (Z.of_nat n) * (q / 100) <= inject_Z (Z.of_nat n))%Q.
Proof.
  intros H0 H1.
  assert (Hn : (0 <= inject_Z (Z.of_nat n))%Q).
  { change 0%Q with (inject_Z 0). rewrite <- Zle_Qle. lia. }
  assert (Hq0 : (0 <= q / 100)%Q)
    by (unfold Qdiv; change (/ 100)%Q with (1 # 100)%Q; lra).
  assert (Hq1 : (q / 100 <= 1)%Q)
    by (unfold Qdiv; change (/ 100)%Q with (1 # 100)%Q; lra).
  set (r := (q / 100)%Q) in *.
  assert (Hq2 : (0 <= 1 - r)%Q) by lra.
  pose proof (Qmult_le_0_compat _ _ Hn Hq0).
  pose proof (Qmult_le_0_compat _ _ Hn Hq2).
  split; lra.
Qed.

Lemma np_percentile_num (qs : list Q) (q : Q) :
  qs <> [] ->
  np_percentile (map Num qs) q =
  Num (interpolate (sort_Q qs)
         (inject_Z (Z.of_nat (List.length qs - 1)) * (q / 100))%Q).
Proof.
  intros Hq. unfold np_percentile. rewrite finite_values_map.
  destruct qs; [congruence | reflexivity].
Qed.

Lemma np_percentile_inv (values : list pyfloat) (q r : Q) :
  np_percentile values q = Num r ->
  exists qs, values = map Num qs /\ qs <> [].
Proof.
  unfold np_percentile. destruct (finite_values values) as [[| x t] |] eqn:E;
    try discriminate.
  intros _. exists (x :: t). split; [now apply finite_values_inv | discriminate].
Qed.

Lemma sort_Q_nonempty (qs : list Q) : qs <> [] -> sort_Q qs <> [].
Proof.
  intros H E. apply H. apply length_zero_iff_nil.
  now rewrite <- sort_Q_length, E.
Qed.

(** Percentiles grow with the percentage. *)
Lemma np_percentile_mono (qs : list Q) (p1 p2 : Q) :
  qs <> [] -> (0 <= p1)%Q -> (p1 <= p2)%Q -> (p2 <= 100)%Q ->
  (interpolate (sort_Q qs) (inject_Z (Z.of_nat (List.length qs - 1)) * (p1 / 100)) <=
   interpolate (sort_Q qs) (inject_Z (Z.of_nat (List.length qs - 1)) * (p2 / 100)))%Q.
Proof.
  intros Hq H0 H12 H100.
  destruct (percentile_position (List.length qs - 1) p1) as [Ha _]; [lra | lra |].
  destruct (percentile_position (List.length qs - 1) p2) as [_ Hb]; [lra | lra |].
  apply interpolate_mono.
  - apply sort_Q_sorted.
  - now apply sort_Q_nonempty.
  - exact Ha.
  - assert (Hn : (0 <= inject_Z (Z.of_nat (List.length qs - 1)))%Q).
    { change 0%Q with (inject_Z 0). rewrite <- Zle_Qle. lia. }
    pose proof (percent_mono p1 p2 H12) as Hp.
    set (r1 := (p1 / 100)%Q) in *. set (r2 := (p2 / 100)%Q) in *.
    assert (Hd : (0 <= r2 - r1)%Q) by lra.
    pose proof (Qmult_le_0_compat _ _ Hn Hd). lra.
  - now rewrite sort_Q_length.
Qed.

(** A percentile lies between the smallest and the largest value. *)
Lemma np_percentile_bounds (qs : list Q) (p lo hi : Q) :
  qs <> [] -> (0 <= p)%Q -> (p <= 100)%Q ->
  Forall (fun x => lo <= x /\ x <= hi)%Q qs ->
  (lo <= interpolate (sort_Q qs) (inject_Z (Z.of_nat (List.length qs - 1)) * (p / 100)) /\
   interpolate (sort_Q qs) (inject_Z (Z.of_nat (List.length qs - 1)) * (p / 100)) <= hi)%Q.
Proof.
  intros Hq H0 H100 Hall.
  destruct (percentile_position (List.length qs - 1) p H0 H100) as [Ha Hb].
  assert (Hlen : (0 < List.length qs)%nat) by (destruct qs; [congruence | cbn; lia]).
  destruct (position_floor _ _ Ha Hb) as (Hk & _).
  destruct (interpolate_between (sort_Q qs) (sort_Q_sorted qs) (sort_Q_nonempty qs Hq)
              (inject_Z (Z.of_nat (List.length qs - 1)) * (p / 100))%Q) as [Hlow Hup].
  - exact Ha.
  - now rewrite sort_Q_length.
  - rewrite Forall_forall in Hall. rewrite sort_Q_length in Hup.
    assert (Hnth : forall i, (i < List.length qs)%nat ->
                             (lo <= nth i (sort_Q qs) 0 /\ nth i (sort_Q qs) 0 <= hi)%Q).
    { intros i Hi. apply Hall. apply sort_Q_In. apply nth_In.
      now rewrite sort_Q_length. }
    split.
    + apply Qle_trans with (2 := Hlow). apply Hnth. lia.
    + apply Qle_trans with (1 := Hup). apply Hnth. lia.
Qed.

(** ** Flagged positions *)

Lemma indices_where_combine {A : Type} (test : A -> bool) (l : list A) :
  forall start,
    StronglySorted lt
      (map fst (filter (fun iv => test (snd iv))
                  (combine (List.seq start (List.length l)) l))) /\
    forall i,
      In i (map fst (filter (fun iv => test (snd iv))
                       (combine (List.seq start (List.length l)) l))) <->
      exists v, (start <= i)%nat /\ nth_error l (i - start) = Some v /\ test v = true.
Proof.
  induction l as [| a t IH]; intros start.
  - cbn. split; [constructor |]. intros i. split; [intros [] |].
    intros (v & _ & H & _). destruct (i - start)%nat; discriminate.
  - destruct (IH (S start)) as [Hs Hin].
    cbn [List.length List.seq combine filter snd].
    assert (Hstep : forall i,
               (exists v, (start <= i)%nat /\
                          nth_error (a :: t) (i - start) = Some v /\ test v = true) <->
               (i = start /\ test a = true) \/
               (exists v, (S start <= i)%nat /\
                          nth_error t (i - S start) = Some v /\ test v = true)).
    { intros i. split.
      - intros (v & Hi & Hn & Hv).
        destruct (i - start)%nat as [| d] eqn:Ed.
        + left. cbn in Hn. injection Hn as <-. split; [lia | exact Hv].
        + right. exists v. cbn in Hn. replace (i - S start)%nat with d by lia.
          repeat split; [lia | exact Hn | exact Hv].
      - intros [[-> Ha] | (v & Hi & Hn & Hv)].
        + exists a. rewrite Nat.sub_diag. repeat split; [lia | exact Ha].
        + exists v. replace (i - start)%nat with (S (i - S start)) by lia.
          repeat split; [lia | exact Hn | exact Hv]. }
    destruct (test a) eqn:Ea; cbn [map fst].
    + split.
      * constructor; [exact Hs |]. apply Forall_forall. intros j Hj.
        apply Hin in Hj. destruct Hj as (v & Hj & _). lia.
      * intros i. rewrite Hstep. cbn [In]. rewrite Hin. intuition (auto; congruence).
    + split; [exact Hs |].
      intros i. rewrite Hstep, Hin. intuition congruence.
Qed.

Lemma indices_where_sorted (test : pyfloat -> bool) (values : list pyfloat) :
  StronglySorted lt (indices_where test values).
Proof.
  apply (indices_where_combine test values 0).
Qed.

Lemma indices_where_In (test : pyfloat -> bool) (values : list pyfloat) (i : nat) :
  In i (indices_where test values) <->
  exists v, nth_error values i = Some v /\ test v = true.
Proof.
  unfold indices_where, enumerate.
  rewrite (proj2 (indices_where_combine test values 0)). rewrite Nat.sub_0_r.
  split.
  - intros (v & _ & H). now exists v.
  - intros (v & H). exists v. split; [lia | exact H].
Qed.

Lemma indices_where_none (test : pyfloat -> bool) (values : list pyfloat) :
  (forall v, In v values -> test v = false) -> indices_where test values = [].
Proof.
  intros H. destruct (indices_where test values) as [| i t] eqn:E; [reflexivity |].
  exfalso. assert (Hi : In i (indices_where test values)) by (rewrite E; now left).
  apply indices_where_In in Hi. destruct Hi as (v & Hn & Hv).
  apply nth_error_In in Hn. rewrite (H v Hn) in Hv. discriminate.
Qed.

Lemma indices_where_bound (test : pyfloat -> bool) (values : list pyfloat) :
  Forall (fun i => (i < List.length values)%nat) (indices_where test values).
Proof.
  apply Forall_forall. intros i Hi. apply indices_where_In in Hi.
  destruct Hi as (v & Hn & _). apply nth_error_Some. congruence.
Qed.

(** ** The column the detector reads *)

Lemma as_numbers_length (values : list clean_value) (numbers : list pyfloat) :
  as_numbers values = Ok numbers -> List.length numbers = List.length values.
Proof.
  apply mapM_length.
Qed.

Lemma as_numbers_nth (values : list clean_value) (numbers : list pyfloat) :
  as_numbers values = Ok numbers ->
  forall i f, nth_error values i = Some (CVNum f) -> nth_error numbers i = Some f.
Proof.
  intros H. apply mapM_Ok_inv in H.
  induction H as [| a b t bs Hab _ IH]; intros i f Hi; [destruct i; discriminate |].
  destruct i as [| i]; cbn in *.
  - injection Hi as ->. now injection Hab as ->.
  - now apply IH.
Qed.

Lemma column_values_length (column : string) (data : list cleaned_record) :
  List.length (column_values column data) = List.length data.
Proof.
  apply length_map.
Qed.

(** A column of numbers, as the detector reads it. *)
Lemma column_numbers (P : Q -> Prop) (column : string) (data : list cleaned_record) :
  Forall (fun record => exists q, dict_get column record = Some (CVNum (Num q)) /\ P q)
    data ->
  exists qs,
    as_numbers (column_values column data) = Ok (map Num qs) /\
    List.length qs = List.length data /\
    Forall P qs.
Proof.
  induction 1 as [| record rest (q & Hq & HP) _ (qs & Hn & Hl & Hall)].
  - exists []. repeat split. constructor.
  - exists (q :: qs). unfold as_numbers, column_values in *.
    cbn [map mapM]. rewrite Hq. cbn [bind]. rewrite Hn. cbn [bind].
    repeat split; [cbn; now rewrite Hl | now constructor].
Qed.

Lemma in_columns_nonempty (column : string) (data : list cleaned_record) :
  data <> [] ->
  Forall (fun record => dict_get column record <> None) data ->
  in_columns column data = true.
Proof.
  intros Hd H. destruct data as [| record rest]; [congruence |].
  inversion H as [| r l Hr _]; subst. unfold in_columns. cbn [existsb].
  destruct (dict_get column record); [reflexivity | congruence].
Qed.

(** ** Means of bounded values *)

Lemma inject_Z_succ (n : nat) :
  (inject_Z (Z.of_nat (S n)) == inject_Z (Z.of_nat n) + 1)%Q.
Proof.
  rewrite Nat2Z.inj_succ. unfold Z.succ. now rewrite inject_Z_plus.
Qed.

Lemma fold_fadd_bounds (lo hi : Q) (l : list Q) :
  Forall (fun x => lo <= x /\ x <= hi)%Q l ->
  forall a, exists s,
    fold_left fadd (map Num l) (Num a) = Num s /\
    (a + inject_Z (Z.of_nat (List.length l)) * lo <= s)%Q /\
    (s <= a + inject_Z (Z.of_nat (List.length l)) * hi)%Q.
Proof.
  induction 1 as [| x t [Hlo Hhi] _ IH]; intros a.
  - exists a. cbn [map fold_left List.length Z.of_nat].
    change (inject_Z 0) with 0%Q. split; [reflexivity |]. split; lra.
  - destruct (IH (a + x)%Q) as (s & Hs & H1 & H2). exists s.
    cbn [map fold_left fadd List.length]. split; [exact Hs |].
    rewrite inject_Z_succ. split; lra.
Qed.

Lemma np_mean_bounds (lo hi : Q) (l : list Q) :
  l <> [] ->
  Forall (fun x => lo <= x /\ x <= hi)%Q l ->
  exists mu, np_mean (map Num l) = Num mu /\ (lo <= mu)%Q /\ (mu <= hi)%Q.
Proof.
  intros Hl Hall.
  destruct (fold_fadd_bounds lo hi l Hall 0) as (s & Hs & H1 & H2).
  assert (Hn : (0 < inject_Z (Z.of_nat (List.length l)))%Q).
  { change 0%Q with (inject_Z 0). rewrite <- Zlt_Qlt.
    destruct l; [congruence | cbn [List.length]; lia]. }
  rewrite <- (length_map Num l) in Hn, H1, H2.
  destruct l as [| x t]; [congruence |].
  unfold np_mean, fsum. cbn [map] in *. rewrite Hs.
  unfold of_nat, fdiv.
  set (n := inject_Z (Z.of_nat (List.length (Num x :: map Num t)))) in *.
  destruct (Qeq_bool n 0) eqn:Ez.
  - apply Qeq_bool_iff in Ez. lra.
  - eexists. split; [reflexivity |]. split.
    + apply Qle_shift_div_l; [exact Hn | lra].
    + apply Qle_shift_div_r; [exact Hn | lra].
Qed.

(** A value at the mean has z-score zero, whatever the deviation is. *)
Lemma z_score_at_mean (c mu : Q) (spread : pyfloat) :
  (mu == c)%Q ->
  fgt (np_abs (fdiv (fsub (Num c) (Num mu)) spread)) (Num 3) = false.
Proof.
  intros Hmu. destruct spread as [| y]; [reflexivity |].
  cbn [fsub fdiv]. destruct (Qeq_bool y 0); [reflexivity |].
  cbn [np_abs]. unfold fgt, flt, Qlt_bool.
  replace (Qle_bool (Qabs ((c - mu) / y)) 3) with true; [reflexivity |].
  symmetry. apply Qle_bool_iff.
  assert (Hz : ((c - mu) / y == 0)%Q).
  { unfold Qdiv. assert (H0 : (c - mu == 0)%Q) by lra. rewrite H0. ring. }
  rewrite Hz. cbn. lra.
Qed.

(** ** The outlier detection *)

(** Whatever the data, the column and the method, the flagged
    positions come in strictly increasing order, each one is the position of
    a record of the data, and the count in the report is their number. *)
Theorem detect_outliers_indices (data : list cleaned_record) (column method : string) :
  StronglySorted lt (fst (detect_outliers data column method)) /\
  Forall (fun i => (i < List.length data)%nat) (fst (detect_outliers data column method)) /\
  reported_count (snd (detect_outliers data column method)) =
  List.length (fst (detect_outliers data column method)).
Proof.
  assert (Hnone : StronglySorted lt (@nil nat) /\
                  Forall (fun i => (i < List.length data)%nat) (@nil nat) /\
                  reported_count NoInfo = List.length (@nil nat))
    by (repeat split; constructor).
  unfold detect_outliers.
  destruct (in_columns column data); cbn [negb]; [| exact Hnone].
  destruct (String.eqb method "iqr").
  - destruct (as_numbers (column_values column data)) as [numbers | e] eqn:En;
      [| exact Hnone].
    cbv zeta. cbn [fst snd reported_count].
    split; [apply indices_where_sorted |]. split; [| reflexivity].
    rewrite <- (column_values_length column data), <- (as_numbers_length _ _ En).
    apply indices_where_bound.
  - destruct (String.eqb method "zscore"); [| exact Hnone].
    destruct (as_numbers (column_values column data)) as [numbers | e] eqn:En;
      [| exact Hnone].
    cbv zeta. cbn [fst snd reported_count].
    split; [apply indices_where_sorted |]. split; [| reflexivity].
    rewrite <- (column_values_length column data), <- (as_numbers_length _ _ En).
    match goal with
    | |- Forall _ (indices_where ?t (map ?f numbers)) =>
        rewrite <- (length_map f numbers)
    end.
    apply indices_where_bound.
Qed.

Lemma detect_outliers_indices_witness :
  StronglySorted lt [4%nat] /\
  Forall (fun i => (i < 5)%nat) [4%nat] /\
  1%nat = 1%nat.
Proof.
  exact (detect_outliers_indices five_sales "sales" "iqr").
Defined.

(** When the IQR method reports finite quartiles, the fences bracket
    them: lower bound <= Q1 <= Q3 <= upper bound. So a record whose value
    lies between the two quartiles is never flagged. *)
Theorem detect_outliers_iqr_fences (data : list cleaned_record) (column : string)
  (outlier_indices : list nat) (lower_bound upper_bound Q1 Q3 : Q) (n : nat) :
  detect_outliers data column "iqr" =
  (outlier_indices, IqrInfo (Num lower_bound) (Num upper_bound) (Num Q1) (Num Q3) n) ->
  (lower_bound <= Q1)%Q /\ (Q1 <= Q3)%Q /\ (Q3 <= upper_bound)%Q /\
  forall i v,
    nth_error (column_values column data) i = Some (CVNum (Num v)) ->
    (Q1 <= v)%Q -> (v <= Q3)%Q -> ~ In i outlier_indices.
Proof.
  unfold detect_outliers.
  destruct (in_columns column data); cbn [negb]; [| discriminate].
  change (String.eqb "iqr" "iqr") with true. cbv iota.
  destruct (as_numbers (column_values column data)) as [numbers | e] eqn:En;
    [| discriminate].
  cbv zeta. intros H.
  assert (HQ1 : np_percentile numbers 25 = Num Q1) by congruence.
  destruct (np_percentile_inv _ _ _ HQ1) as (qs & -> & Hqs).
  rewrite !np_percentile_num in H by exact Hqs.
  pose proof (np_percentile_mono qs 25 75 Hqs) as Hmono.
  cbn [fsub fmul fadd] in H.
  injection H as Hidx Hlo Hhi H1 H3 _.
  rewrite H1, H3 in Hmono. rewrite H1, H3 in Hlo. rewrite H1, H3 in Hhi.
  assert (H13 : (Q1 <= Q3)%Q) by (apply Hmono; lra).
  assert (Hl : (lower_bound <= Q1)%Q) by (rewrite <- Hlo; lra).
  assert (Hu : (Q3 <= upper_bound)%Q) by (rewrite <- Hhi; lra).
  repeat split; try assumption.
  intros i v Hv Hv1 Hv3 Hin. rewrite <- Hidx in Hin.
  apply indices_where_In in Hin. destruct Hin as (val & Hval & Htest).
  rewrite (as_numbers_nth _ _ En i (Num v) Hv) in Hval. injection Hval as <-.
  rewrite H1, H3 in Htest. rewrite Hlo, Hhi in Htest.
  apply orb_true_iff in Htest. unfold fgt, flt, Qlt_bool in Htest.
  destruct Htest as [Ht | Ht]; apply negb_true_iff in Ht;
    apply Qle_bool_false in Ht; lra.
Qed.

Lemma detect_outliers_iqr_fences_witness :
  ((-2000000 # 2000000) <= (200 # 100))%Q /\
  ((200 # 100) <= (400 # 100))%Q /\
  ((400 # 100) <= (14000000 # 2000000))%Q /\
  forall i v,
    nth_error (column_values "sales" five_sales) i = Some (CVNum (Num v)) ->
    ((200 # 100) <= v)%Q -> (v <= (400 # 100))%Q -> ~ In i [4%nat].
Proof.
  apply (detect_outliers_iqr_fences five_sales "sales" [4%nat]
           (-2000000 # 2000000) (14000000 # 2000000) (200 # 100) (400 # 100) 1).
  vm_compute. reflexivity.
Defined.

(** A column that holds the same number in every record has no
    outlier, under either method (and under any other name of a method). *)
Theorem detect_outliers_constant (data : list cleaned_record) (column method : string)
  (c : Q) :
  Forall (fun record => dict_get column record = Some (CVNum (Num c))) data ->
  fst (detect_outliers data column method) = [].
Proof.
  intros Hall.
  assert (Hcol : Forall (fun record =>
                           exists q, dict_get column record = Some (CVNum (Num q)) /\
                                     (c <= q /\ q <= c)%Q) data).
  { apply Forall_impl with (2 := Hall). intros r Hr. exists c.
    split; [exact Hr | lra]. }
  destruct (column_numbers _ column data Hcol) as (qs & Hn & Hlen & Hqs).
  unfold detect_outliers.
  destruct (in_columns column data) eqn:Ein; cbn [negb]; [| reflexivity].
  assert (Hne : qs <> []).
  { intros ->. destruct data; [discriminate | discriminate]. }
  rewrite Hn.
  destruct (String.eqb method "iqr"); [| destruct (String.eqb method "zscore")];
    cbv zeta; cbn [fst]; [| | reflexivity].
  - rewrite !np_percentile_num by exact Hne.
    destruct (np_percentile_bounds qs 25 c c Hne) as [Ha1 Ha2]; [lra | lra | exact Hqs |].
    destruct (np_percentile_bounds qs 75 c c Hne) as [Hb1 Hb2]; [lra | lra | exact Hqs |].
    cbn [fsub fmul fadd].
    apply indices_where_none. intros v Hv. apply in_map_iff in Hv.
    destruct Hv as (q & <- & Hq). rewrite Forall_forall in Hqs.
    destruct (Hqs q Hq) as [Hq1 Hq2].
    apply orb_false_iff. unfold fgt, flt, Qlt_bool.
    split; apply negb_false_iff; apply Qle_bool_iff; lra.
  - destruct (np_mean_bounds c c qs Hne Hqs) as (mu & Hmu & Hm1 & Hm2).
    rewrite Hmu.
    apply indices_where_none. intros z Hz. apply in_map_iff in Hz.
    destruct Hz as (v & <- & Hv). apply in_map_iff in Hv.
    destruct Hv as (q & <- & Hq). rewrite Forall_forall in Hqs.
    destruct (Hqs q Hq) as [Hq1 Hq2].
    apply z_score_at_mean. lra.
Qed.

Lemma detect_outliers_constant_witness :
  fst (detect_outliers flat_sales "sales" "zscore") = [] /\
  fst (detect_outliers flat_sales "sales" "iqr") = [].
Proof.
  split.
  - apply (detect_outliers_constant flat_sales "sales" "zscore" 7).
    repeat constructor.
  - apply (detect_outliers_constant flat_sales "sales" "iqr" 7).
    repeat constructor.
Defined.

(** The outlier step of the analysis route, on what the cleaner
    returns: as soon as one record is kept, the IQR method on [sales] gives a
    full report (never the empty report of the error path) whose count is the
    number of flagged positions; and whenever the two quartiles of the report
    are finite numbers, the first one is not negative and not above the
    third. (A sales value that converts to an infinity is kept by the cleaner
    and makes the third quartile infinite or NaN.) *)
Theorem cleaned_sales_iqr_report (now : nat -> string) (data : list raw_record) :
  fst (clean_data now data) <> [] ->
  exists lower_bound upper_bound Q1 Q3 : pyfloat,
    snd (detect_outliers (fst (clean_data now data)) "sales" "iqr") =
    IqrInfo lower_bound upper_bound Q1 Q3
      (List.length (fst (detect_outliers (fst (clean_data now data)) "sales" "iqr"))) /\
    forall a b : Q, Q1 = Num a -> Q3 = Num b -> (0 <= a)%Q /\ (a <= b)%Q.
Proof.
  intros Hne.
  pose proof (clean_data_typed now data) as Ht.
  set (cleaned_data := fst (clean_data now data)) in *.
  assert (Hcol : Forall (fun record =>
                           exists q, dict_get "sales" record = Some (CVNum (Num q)) /\
                                     (0 <= q)%Q) cleaned_data).
  { apply Forall_impl with (2 := Ht). intros c [H1 H2]. now apply cleaned_sales. }
  destruct (column_numbers _ "sales" cleaned_data Hcol) as (qs & Hn & Hlen & Hqs).
  assert (Hin : in_columns "sales" cleaned_data = true).
  { apply in_columns_nonempty; [exact Hne |].
    apply Forall_impl with (2 := Hcol). intros c (q & Hq & _). congruence. }
  assert (Hq : qs <> []).
  { intros ->. apply Hne. now apply length_zero_iff_nil. }
  unfold detect_outliers. rewrite Hin. cbn [negb].
  change (String.eqb "iqr" "iqr") with true. cbv iota.
  rewrite Hn. cbv zeta. cbn [fst snd].
  rewrite !np_percentile_num by exact Hq. cbn [fsub fmul fadd].
  do 4 eexists. split; [reflexivity |].
  intros a b Ha Hb. injection Ha as <-. injection Hb as <-. split.
  - destruct (percentile_position (List.length qs - 1) 25) as [Ha Hb']; [lra | lra |].
    destruct (interpolate_between (sort_Q qs) (sort_Q_sorted qs) (sort_Q_nonempty qs Hq)
                (inject_Z (Z.of_nat (List.length qs - 1)) * (25 / 100))%Q) as [Hlow _];
      [exact Ha | now rewrite sort_Q_length |].
    apply Qle_trans with (2 := Hlow).
    rewrite Forall_forall in Hqs. apply Hqs. apply sort_Q_In. apply nth_In.
    rewrite sort_Q_length.
    destruct (position_floor _ _ Ha Hb') as (Hk & _).
    assert (0 < List.length qs)%nat by (destruct qs; [congruence | cbn; lia]). lia.
  - apply np_percentile_mono; [exact Hq | lra | lra | lra].
Qed.

Lemma cleaned_sales_iqr_report_witness :
  exists lower_bound upper_bound Q1 Q3 : pyfloat,
    snd (detect_outliers (fst (clean_data today raw_data)) "sales" "iqr") =
    IqrInfo lower_bound upper_bound Q1 Q3
      (List.length (fst (detect_outliers (fst (clean_data today raw_data)) "sales" "iqr"))) /\
    forall a b : Q, Q1 = Num a -> Q3 = Num b -> (0 <= a)%Q /\ (a <= b)%Q.
Proof.
  apply (cleaned_sales_iqr_report today raw_data). vm_compute. discriminate.
Defined.
